(** * WhatsApp transcript analyser: parser and aggregation engine

    A shallow embedding of [WA_prog_senti_distribution.py]: the timestamp
    normaliser [parse_datetime], the system-notification filter
    [is_system_message], the line loop of [parse_whatsapp_chat] and the
    aggregation functions that [display_chat_summary] calls.

    Python values are modelled as follows.
    - A [str] is the list of its code points ([N]).  ASCII literals of the
      source are written [u "..."].
    - The [re] module is modelled by a backtracking matcher over a syntax
      tree of the pattern; each pattern of the source is transcribed
      constructor by constructor.
    - [datetime.strptime] follows CPython's [_strptime.py]: a format is turned
      into a pattern, the pattern must consume all of the data, and the
      captured fields are converted and range-checked.
    - Exceptions are values of [result]; [print] appends to a log.
    - A float is the rational it denotes ([Q]), so that floats compare as
      they do in Python.  The float literals of the source and the
      percentages of [sentiment_analysis] are rounded to the nearest double
      ([to_double]); the means and the minutes of [response_time_analysis]
      are the exact values.

    The character tables are those of CPython 3.11 (Unicode 14.0): [\s]
    and [str.strip] use the white-space set, [\d] and [int] the decimal
    digits, and [re.IGNORECASE] the case classes of the characters that
    the patterns of the program contain. *)

From Stdlib Require Import List ZArith NArith QArith Bool Lia Lqa String Ascii.
Import ListNotations.

Close Scope Q_scope.
Local Open Scope list_scope.

(** ** Text *)

Definition char := N.
Definition str := list char.
Bind Scope N_scope with char.

Definition chr (a : ascii) : char := N_of_ascii a.

Fixpoint u (s : string) : str :=
  match s with
  | EmptyString => []
  | String a rest => chr a :: u rest
  end.
Arguments u s%_string.
Arguments chr a%_char.

Definition between (lo hi c : char) : bool := (N.leb lo c && N.leb c hi)%bool.
Arguments between (lo hi c)%_N.

(** [str.isspace] on one code point, which is also the class [\s] of a
    [str] pattern. *)
Definition isspace (c : char) : bool :=
  (between 9 13 c || between 28 32 c || N.eqb c 133 || N.eqb c 160
   || N.eqb c 5760 || between 8192 8202 c || N.eqb c 8232 || N.eqb c 8233
   || N.eqb c 8239 || N.eqb c 8287 || N.eqb c 12288)%bool.

(** An ASCII digit. *)
Definition isdigit (c : char) : bool := between 48 57 c.

(** The decimal digits (category Nd): they come in runs of ten, digit
    zero first; these are the first characters of the runs. *)
Definition decimal_runs : list N :=
  [48; 1632; 1776; 1984; 2406; 2534; 2662; 2790; 2918; 3046; 3174; 3302; 3430; 3558;
   3664; 3792; 3872; 4160; 4240; 6112; 6160; 6470; 6608; 6784; 6800; 6992; 7088; 7232;
   7248; 42528; 43216; 43264; 43472; 43504; 43600; 44016; 65296; 66720; 68912; 69734;
   69872; 69942; 70096; 70384; 70736; 70864; 71248; 71360; 71472; 71904; 72016; 72784;
   73040; 73120; 92768; 92864; 93008; 120782; 120792; 120802; 120812; 120822; 123200;
   123632; 125264; 130032]%N.

(** The value of a decimal digit, as [int] reads it. *)
Definition decimal (c : char) : option Z :=
  match find (fun first => between first (first + 9) c) decimal_runs with
  | Some first => Some (Z.of_N (c - first))
  | None => None
  end.

(** The class [\d] of a [str] pattern. *)
Definition isdecimal (c : char) : bool :=
  match decimal c with Some _ => true | None => false end.

Definition lower (c : char) : char := if between 65 90 c then (c + 32)%N else c.
Definition upper (c : char) : char := if between 97 122 c then (c - 32)%N else c.

(** The case class of a character for [re.IGNORECASE]: two characters
    match when their lower-case forms are equal or have the same upper-case
    form.  Besides the two cases of each ASCII letter, dotted capital I
    and dotless i go with [i], long s with [s] and the Kelvin sign with
    [k]; these are all the characters that match an ASCII character. *)
Definition fold (c : char) : char :=
  if (N.eqb c 304 || N.eqb c 305)%bool then 105%N
  else if N.eqb c 383 then 115%N
  else if N.eqb c 8490 then 107%N
  else lower c.

Definition newline : char := 10%N.
Definition space : char := 32%N.

Fixpoint str_eqb (a b : str) : bool :=
  match a, b with
  | [], [] => true
  | x :: a', y :: b' => (N.eqb x y && str_eqb a' b')%bool
  | _, _ => false
  end.

(** [str.lstrip], [str.rstrip] and [str.strip] with no argument. *)
Fixpoint lstrip (s : str) : str :=
  match s with
  | [] => []
  | c :: rest => if isspace c then lstrip rest else s
  end.

Definition rstrip (s : str) : str := rev (lstrip (rev s)).

Definition strip (s : str) : str := rstrip (lstrip s).

(** [a.startswith(p)] and [p in a]. *)
Fixpoint startswith (p s : str) : bool :=
  match p, s with
  | [], _ => true
  | x :: p', y :: s' => (N.eqb x y && startswith p' s')%bool
  | _ :: _, [] => false
  end.

Fixpoint contains (p s : str) : bool :=
  (startswith p s ||
   match s with
   | [] => false
   | _ :: s' => contains p s'
   end)%bool.

(** [s.replace(a, b)] for one-character [a] and [b]. *)
Definition replace_char (a b : char) (s : str) : str :=
  map (fun c => if N.eqb c a then b else c) s.

(** [re.sub(r"\s+", " ", s)]: every maximal run of white space becomes one
    space. *)
Fixpoint collapse_spaces (s : str) : str :=
  match s with
  | [] => []
  | c :: rest =>
      if isspace c then
        match rest with
        | d :: _ => if isspace d then collapse_spaces rest
                    else space :: collapse_spaces rest
        | [] => [space]
        end
      else c :: collapse_spaces rest
  end.

(** ** Exceptions *)

Inductive value_error :=
| NoValidMessages                       (* "Error: No valid messages found in the chat file." *)
| UnknownFormat (date_str : str)        (* "Time data ... does not match known formats." *)
| NoMatch                               (* strptime: data does not match format *)
| UnconvertedData                       (* strptime: unconverted data remains *)
| BadDirective                          (* strptime: bad directive in format *)
| OutOfRange                            (* date(...): field out of range *)
| BadInt.                               (* int(...): invalid literal *)

Inductive exception :=
| ValueError (e : value_error)
| TypeError
| AttributeError.

Inductive result (A : Type) :=
| Ok (a : A)
| Raise (e : exception).
Arguments Ok {A} a.
Arguments Raise {A} e.

Definition bind {A B} (r : result A) (f : A -> result B) : result B :=
  match r with
  | Ok a => f a
  | Raise e => Raise e
  end.

Notation "x <- r ;; k" := (bind r (fun x => k))
  (at level 61, r at next level, right associativity).

(** ** Regular expressions *)

Inductive item :=
| Ch (c : char)
| Rng (lo hi : char)
| CatDigit
| CatSpace.

Inductive regex :=
| Eps
| Lit (c : char)
| Cls (items : list item)
| Any
| Bol
| Seq (r1 r2 : regex)
| Alt (r1 r2 : regex)
| Rep (r : regex) (lo : nat) (hi : option nat) (greedy : bool)
| Group (name : string) (r : regex).

Definition Digit : regex := Cls [CatDigit].
Definition Space : regex := Cls [CatSpace].
Definition Opt (r : regex) : regex := Rep r 0 (Some 1%nat) true.
Definition Star (r : regex) : regex := Rep r 0 None true.
Definition LazyStar (r : regex) : regex := Rep r 0 None false.
Definition Plus (r : regex) : regex := Rep r 1 None true.
Definition Exactly (n : nat) (r : regex) : regex := Rep r n (Some n) true.
Definition FromTo (lo hi : nat) (r : regex) : regex := Rep r lo (Some hi) true.

Fixpoint cat (rs : list regex) : regex :=
  match rs with
  | [] => Eps
  | [r] => r
  | r :: rest => Seq r (cat rest)
  end.

Fixpoint alts (rs : list regex) : regex :=
  match rs with
  | [] => Cls []
  | [r] => r
  | r :: rest => Alt r (alts rest)
  end.

Definition word (s : str) : regex := cat (map Lit s).

(** One literal against one character; [ic] is [re.IGNORECASE].  The
    ranges that the program matches without regard to case are ranges of
    digits, which have no case. *)
Definition lit_match (ic : bool) (a c : char) : bool :=
  if ic then N.eqb (fold a) (fold c) else N.eqb a c.

Definition item_match (ic : bool) (i : item) (c : char) : bool :=
  match i with
  | Ch a => lit_match ic a c
  | Rng lo hi =>
      (between lo hi c || (ic && (between lo hi (lower c) || between lo hi (upper c))))%bool
  | CatDigit => isdecimal c
  | CatSpace => isspace c
  end.

Definition captures := list (string * str).

Fixpoint group (g : captures) (name : string) : option str :=
  match g with
  | [] => None
  | (n, v) :: rest => if String.eqb n name then Some v else group rest name
  end.

Definition outcome := option (nat * captures).
Definition cont := nat -> str -> captures -> outcome.
Definition matcher := nat -> str -> captures -> cont -> outcome.

Fixpoint times (n : nat) (body : matcher) : matcher :=
  fun pos s g k =>
    match n with
    | O => k pos s g
    | S n' => body pos s g (fun pos' s' g' => times n' body pos' s' g' k)
    end.

Fixpoint upto (n : nat) (greedy : bool) (body : matcher) : matcher :=
  fun pos s g k =>
    match n with
    | O => k pos s g
    | S n' =>
        if greedy then
          match body pos s g (fun pos' s' g' => upto n' greedy body pos' s' g' k) with
          | Some r => Some r
          | None => k pos s g
          end
        else
          match k pos s g with
          | Some r => Some r
          | None => body pos s g (fun pos' s' g' => upto n' greedy body pos' s' g' k)
          end
    end.

Definition one (p : char -> bool) : matcher :=
  fun pos s g k =>
    match s with
    | c :: s' => if p c then k (S pos) s' g else None
    | [] => None
    end.

Fixpoint run (ic : bool) (r : regex) {struct r} : matcher :=
  match r with
  | Eps => fun pos s g k => k pos s g
  | Lit a => one (lit_match ic a)
  | Cls items => one (fun c => existsb (fun i => item_match ic i c) items)
  | Any => one (fun c => negb (N.eqb c newline))
  | Bol => fun pos s g k => if Nat.eqb pos 0 then k pos s g else None
  | Seq r1 r2 => fun pos s g k => run ic r1 pos s g (fun pos' s' g' => run ic r2 pos' s' g' k)
  | Alt r1 r2 =>
      fun pos s g k =>
        match run ic r1 pos s g k with
        | Some x => Some x
        | None => run ic r2 pos s g k
        end
  | Rep r' lo hi greedy =>
      fun pos s g k =>
        times lo (run ic r') pos s g
          (fun pos' s' g' =>
             upto (match hi with Some h => h - lo | None => List.length s' end)
                  greedy (run ic r') pos' s' g' k)
  | Group name r' =>
      fun pos s g k =>
        run ic r' pos s g
          (fun pos' s' g' => k pos' s' ((name, firstn (pos' - pos) s) :: g'))
  end.

Definition accept : cont := fun pos _ g => Some (pos, g).

(** [re.match]: anchored at the start of the subject. *)
Definition re_match (ic : bool) (r : regex) (s : str) : outcome :=
  run ic r 0 s [] accept.

(** [re.search]: the first position from which the pattern matches. *)
Fixpoint search_from (ic : bool) (r : regex) (pos : nat) (s : str) : outcome :=
  match run ic r pos s [] accept with
  | Some x => Some x
  | None =>
      match s with
      | [] => None
      | _ :: s' => search_from ic r (S pos) s'
      end
  end.

Definition re_search (ic : bool) (r : regex) (s : str) : outcome :=
  search_from ic r 0 s.

Definition truthy {A} (o : option A) : bool :=
  match o with Some _ => true | None => false end.

(** ** Dates and times ([datetime]) *)

Record datetime := mkdatetime {
  year : Z; month : Z; day : Z; hour : Z; minute : Z; second : Z
}.

Local Open Scope Z_scope.

Definition is_leap (y : Z) : bool :=
  ((y mod 4 =? 0) && (negb (y mod 100 =? 0) || (y mod 400 =? 0)))%bool.

Definition DAYS_IN_MONTH : list Z := [31; 28; 31; 30; 31; 30; 31; 31; 30; 31; 30; 31].

Definition days_in_month (y m : Z) : Z :=
  if ((m =? 2) && is_leap y)%bool then 29
  else nth (Z.to_nat (m - 1)) DAYS_IN_MONTH 0.

Definition days_before_year (y : Z) : Z :=
  let p := y - 1 in p * 365 + p / 4 - p / 100 + p / 400.

Definition days_before_month (y m : Z) : Z :=
  fold_right Z.add 0 (firstn (Z.to_nat (m - 1)) DAYS_IN_MONTH)
  + (if ((2 <? m) && is_leap y)%bool then 1 else 0).

Definition ymd2ord (y m d : Z) : Z :=
  days_before_year y + days_before_month y m + d.

Definition toordinal (t : datetime) : Z := ymd2ord (year t) (month t) (day t).

(** [date(y, m, d)] raises [ValueError] unless the fields are in range. *)
Definition check_date_fields (y m d : Z) : bool :=
  ((1 <=? y) && (y <=? 9999) && (1 <=? m) && (m <=? 12)
   && (1 <=? d) && (d <=? days_in_month y m))%bool.

Definition check_time_fields (h mi s : Z) : bool :=
  ((0 <=? h) && (h <=? 23) && (0 <=? mi) && (mi <=? 59) && (0 <=? s) && (s <=? 59))%bool.

(** [(a - b).total_seconds()] *)
Definition total_seconds_between (a b : datetime) : Z :=
  (toordinal a - toordinal b) * 86400
  + ((hour a * 3600 + minute a * 60 + second a)
     - (hour b * 3600 + minute b * 60 + second b)).

Definition fields (t : datetime) : list Z :=
  [year t; month t; day t; hour t; minute t; second t].

Fixpoint lex_ltb (a b : list Z) : bool :=
  match a, b with
  | x :: a', y :: b' => if x <? y then true else if y <? x then false else lex_ltb a' b'
  | [], _ :: _ => true
  | _, [] => false
  end.

(** [a < b] on [datetime] values. *)
Definition dt_ltb (a b : datetime) : bool := lex_ltb (fields a) (fields b).

(** [ts.date()] *)
Definition date_of (t : datetime) : Z * Z * Z := (year t, month t, day t).

(** ** [int(...)] on a captured field *)

Fixpoint digits_value (acc : Z) (s : str) : option Z :=
  match s with
  | [] => Some acc
  | c :: rest =>
      match decimal c with
      | Some v => digits_value (acc * 10 + v) rest
      | None => None
      end
  end.

Definition py_int (s : str) : result Z :=
  match strip s with
  | [] => Raise (ValueError BadInt)
  | t => match digits_value 0 t with
         | Some z => Ok z
         | None => Raise (ValueError BadInt)
         end
  end.

(** ** [datetime.strptime] *)

Definition d09 : regex := Cls [Rng (chr "0") (chr "9")].
Definition d19 : regex := Cls [Rng (chr "1") (chr "9")].
Definition rng (a b : ascii) : regex := Cls [Rng (chr a) (chr b)].
Arguments rng (a b)%_char.

(** The directive table of [TimeRE], for the directives the program uses;
    [%p] is the one of the C and English locales. *)
Definition directive (a : ascii) : option regex :=
  match a with
  | "d"%char =>
      Some (Group "d" (alts [Seq (Lit (chr "3")) (rng "0" "1");
                             Seq (rng "1" "2") Digit;
                             Seq (Lit (chr "0")) (rng "1" "9");
                             rng "1" "9";
                             Seq (Lit (chr " ")) (rng "1" "9")]))
  | "H"%char =>
      Some (Group "H" (alts [Seq (Lit (chr "2")) (rng "0" "3");
                             Seq (rng "0" "1") Digit;
                             Digit]))
  | "I"%char =>
      Some (Group "I" (alts [Seq (Lit (chr "1")) (rng "0" "2");
                             Seq (Lit (chr "0")) (rng "1" "9");
                             rng "1" "9"]))
  | "m"%char =>
      Some (Group "m" (alts [Seq (Lit (chr "1")) (rng "0" "2");
                             Seq (Lit (chr "0")) (rng "1" "9");
                             rng "1" "9"]))
  | "M"%char =>
      Some (Group "M" (alts [Seq (rng "0" "5") Digit; Digit]))
  | "y"%char => Some (Group "y" (Seq Digit Digit))
  | "Y"%char => Some (Group "Y" (cat [Digit; Digit; Digit; Digit]))
  | "p"%char => Some (Group "p" (Alt (word (u "am")) (word (u "pm"))))
  | _ => None
  end.

(** [TimeRE.pattern]: a directive becomes its pattern, a run of white
    space becomes [\s+], anything else is a literal. *)
Fixpoint pattern_items (f : string) : option (list regex) :=
  match f with
  | EmptyString => Some []
  | String "%"%char EmptyString => None
  | String "%"%char (String a rest) =>
      match directive a, pattern_items rest with
      | Some d, Some l => Some (d :: l)
      | _, _ => None
      end
  | String c rest =>
      match pattern_items rest with
      | None => None
      | Some l =>
          if isspace (chr c) then
            match rest with
            | String c' _ => if isspace (chr c') then Some l else Some (Plus Space :: l)
            | EmptyString => Some (Plus Space :: l)
            end
          else Some (Lit (chr c) :: l)
      end
  end.

Definition pattern (f : string) : option regex := option_map cat (pattern_items f).

Definition int_group (g : captures) (name : string) (default : Z) : result Z :=
  match group g name with
  | Some v => py_int v
  | None => Ok default
  end.

Definition year_of (g : captures) : result Z :=
  match group g "y", group g "Y" with
  | Some v, _ => y <- py_int v ;; Ok (if y <=? 68 then y + 2000 else y + 1900)
  | None, Some v => py_int v
  | None, None => Ok 1900
  end.

Definition hour_of (g : captures) : result Z :=
  match group g "I" with
  | Some v =>
      h <- py_int v ;;
      let ampm := map lower (match group g "p" with Some p => p | None => [] end) in
      if (str_eqb ampm [] || str_eqb ampm (u "am"))%bool then
        Ok (if h =? 12 then 0 else h)
      else if str_eqb ampm (u "pm") then
        Ok (if h =? 12 then h else h + 12)
      else Ok h
  | None => int_group g "H" 0
  end.

Definition strptime (data : str) (fmt : string) : result datetime :=
  match pattern fmt with
  | None => Raise (ValueError BadDirective)
  | Some re =>
      match re_match true re data with
      | None => Raise (ValueError NoMatch)
      | Some (stop, g) =>
          if negb (Nat.eqb (List.length data) stop) then Raise (ValueError UnconvertedData)
          else
            y <- year_of g ;;
            m <- int_group g "m" 1 ;;
            d <- int_group g "d" 1 ;;
            h <- hour_of g ;;
            mi <- int_group g "M" 0 ;;
            if (check_date_fields y m d && check_time_fields h mi 0)%bool
            then Ok (mkdatetime y m d h mi 0)
            else Raise (ValueError OutOfRange)
      end
  end.

Local Close Scope Z_scope.

(** ** [parse_datetime] *)

Definition formats : list string :=
  ["%d/%m/%Y %I:%M %p"; "%m/%d/%Y %I:%M %p"; "%d/%m/%y %I:%M %p"; "%m/%d/%y %I:%M %p";
   "%Y/%m/%d %I:%M %p"; "%y/%m/%d %I:%M %p"; "%d/%m/%Y %H:%M"; "%m/%d/%Y %H:%M";
   "%d/%m/%y %H:%M"; "%m/%d/%y %H:%M"; "%Y/%m/%d %H:%M"; "%y/%m/%d %H:%M";
   "%d-%m-%Y %I:%M %p"; "%m-%d-%Y %I:%M %p"; "%d-%m-%y %I:%M %p"; "%m-%d-%y %I:%M %p";
   "%d-%m-%Y %H:%M"; "%m-%d-%Y %H:%M"; "%d-%m-%y %H:%M"; "%m-%d-%y %H:%M"]%string.

(** The [for fmt in formats: try ... except ValueError: continue] loop,
    followed by the final [raise]. *)
Fixpoint try_formats (fs : list string) (date_str : str) : result (option datetime) :=
  match fs with
  | [] => Raise (ValueError (UnknownFormat date_str))
  | fmt :: rest =>
      match strptime date_str fmt with
      | Ok t => Ok (Some t)
      | Raise (ValueError _) => try_formats rest date_str
      | Raise e => Raise e
      end
  end.

Definition normalize (date_str : str) : str :=
  collapse_spaces (strip (replace_char 8239 32 date_str)).

Definition parse_datetime (date_str : str) : result (option datetime) :=
  match date_str with
  | [] => Ok None
  | _ => try_formats formats (normalize date_str)
  end.

(** ** [is_system_message] *)

(** The source lists eleven pattern strings, [.*phrase.*] or
    [.*first.*second.*]; they are kept as their phrases and turned into
    patterns by [notice_pattern]. *)
Inductive notice :=
| Phrase (s : string)
| Phrase2 (s1 s2 : string).

Definition notice_pattern (n : notice) : regex :=
  match n with
  | Phrase s => cat [Star Any; word (u s); Star Any]
  | Phrase2 s1 s2 => cat [Star Any; word (u s1); Star Any; word (u s2); Star Any]
  end.

Definition system_phrases : list notice :=
  [Phrase "Messages to this group are now secured with end-to-end encryption";
   Phrase "created group";
   Phrase "changed this group's";
   Phrase "left the group";
   Phrase2 "added" "to the group";
   Phrase2 "removed" "from the group";
   Phrase "changed the subject to";
   Phrase "changed the group description";
   Phrase "deleted this message";
   Phrase "started a call";
   Phrase "ended the call"].

Definition system_patterns : list regex := map notice_pattern system_phrases.

Definition is_system_message (line : str) : bool :=
  existsb (fun p => truthy (re_search true p line)) system_patterns.

(** ** [chat_pattern] *)

Definition date_sep : regex := Cls [Ch (chr "-"); Ch (chr "/"); Ch (chr "."); CatSpace].
Definition en_dash : char := 8211%N.

Definition chat_pattern : regex :=
  cat [Bol;
       Group "1" (cat [FromTo 1 2 Digit; date_sep; FromTo 1 2 Digit; date_sep;
                       FromTo 2 4 Digit]);
       Opt (Lit (chr ","));
       Opt Space;
       Opt (Group "2" (cat [FromTo 1 2 Digit; Lit (chr ":"); Exactly 2 Digit;
                            Opt (Group "3" (cat [Opt Space;
                                                 Exactly 2 (Cls [Ch (chr "A"); Ch (chr "P");
                                                                 Ch (chr "M"); Ch (chr "a");
                                                                 Ch (chr "p"); Ch (chr "m")])]))]));
       Opt Space;
       Cls [Ch (chr "-"); Ch en_dash];
       Space;
       Group "4" (LazyStar Any);
       Lit (chr ":");
       Space;
       Group "5" (Star Any)].

(** ** Python containers used as accumulators *)

(** [d[k] += 1] on a [defaultdict(int)]; a dict keeps insertion order. *)
Fixpoint incr {K : Type} (eqb : K -> K -> bool) (k : K) (d : list (K * nat)) : list (K * nat) :=
  match d with
  | [] => [(k, 1)]
  | (k', n) :: rest => if eqb k k' then (k', S n) :: rest else (k', n) :: incr eqb k rest
  end.

(** [s.add(x)] on a [set]. *)
Definition set_add (x : str) (s : list str) : list str :=
  if existsb (str_eqb x) s then s else s ++ [x].

(** [a < b] between two values that may be [None]: comparing with [None]
    raises [TypeError]. *)
Definition py_lt (a b : option datetime) : result bool :=
  match a, b with
  | Some x, Some y => Ok (dt_ltb x y)
  | _, _ => Raise TypeError
  end.

(** [min(l)] and [max(l)] after their first element. *)
Fixpoint min_loop (cur : option datetime) (l : list (option datetime)) : result (option datetime) :=
  match l with
  | [] => Ok cur
  | x :: rest => b <- py_lt x cur ;; min_loop (if b then x else cur) rest
  end.

Fixpoint max_loop (cur : option datetime) (l : list (option datetime)) : result (option datetime) :=
  match l with
  | [] => Ok cur
  | x :: rest => b <- py_lt cur x ;; max_loop (if b then x else cur) rest
  end.

(** [min(timestamps) if timestamps else None], and the same with [max]. *)
Definition min_or_none (l : list (option datetime)) : result (option datetime) :=
  match l with [] => Ok None | x :: rest => min_loop x rest end.
Definition max_or_none (l : list (option datetime)) : result (option datetime) :=
  match l with [] => Ok None | x :: rest => max_loop x rest end.

(** ** [parse_whatsapp_chat] *)

(** One message dict: [{"timestamp": ..., "user": ..., "message": ...}]. *)
Record msg := mkmsg {
  timestamp : option datetime;
  user : str;
  message : str
}.

(** What the parser prints. *)
Inductive event :=
| SkippedMissingDate (line : str)
| SkippedFormatError (line : str) (e : value_error).

(** Standard output: the only state that outlives a call. *)
Definition world := list event.

(** The locals that lines 64-69 create, with the output written so far. *)
Record accumulators := mkacc {
  messages : list msg;
  user_message_count : list (str * nat);
  timestamps : list (option datetime);
  users : list str;
  emojis_count : list (str * nat);
  link_count : nat;
  printed : world
}.

Record chat_data := mkchat {
  cd_messages : list msg;
  cd_user_message_count : list (str * nat);
  cd_users : list str;
  cd_timestamps : list (option datetime);
  chat_start : option datetime;
  chat_end : option datetime;
  emoji_count : list (str * nat);
  cd_link_count : nat
}.

Definition fresh (w : world) : accumulators := mkacc [] [] [] [] [] 0 w.

Definition print (e : event) (a : accumulators) : accumulators :=
  mkacc (messages a) (user_message_count a) (timestamps a) (users a)
        (emojis_count a) (link_count a) (printed a ++ [e]).

(** [value if value else default] on a group that may be [None] or empty. *)
Definition or_else (v : option str) (default : str) : str :=
  match v with
  | Some (c :: rest) => c :: rest
  | _ => default
  end.

(** A group that always takes part in a match. *)
Definition text_of (v : option str) : str :=
  match v with Some s => s | None => [] end.

(** ["http" in message or "www." in message] *)
Definition has_link (body : str) : bool :=
  (contains (u "http") body || contains (u "www.") body)%bool.

Section Parser.

(** [char in emoji.EMOJI_DATA], the catalogue of the [emoji] package. *)
Variable EMOJI_DATA : char -> bool.

(** The loop over the characters of a message. *)
Fixpoint count_emojis (who : str) (body : str) (d : list (str * nat)) : list (str * nat) :=
  match body with
  | [] => d
  | c :: rest => count_emojis who rest (if EMOJI_DATA c then incr str_eqb who d else d)
  end.

(** The body of the [try] once the timestamp is known. *)
Definition record (a : accumulators) (ts : option datetime) (who body : str) : accumulators :=
  mkacc (messages a ++ [mkmsg ts who body])
        (incr str_eqb who (user_message_count a))
        (timestamps a ++ [ts])
        (set_add who (users a))
        (count_emojis who body (emojis_count a))
        (if has_link body then S (link_count a) else link_count a)
        (printed a).

(** One iteration of [for line in lines].  [except ValueError] absorbs a
    [ValueError] of the [try] body; any other exception leaves the loop. *)
Definition process_line (a : accumulators) (raw : str) : result accumulators :=
  let line := strip raw in
  if is_system_message line then Ok a
  else
    match re_match false chat_pattern line with
    | None => Ok a
    | Some (_, g) =>
        match group g "1" with
        | None | Some [] => Ok (print (SkippedMissingDate line) a)
        | Some date =>
            let time := or_else (group g "2") (u "00:00") in
            match parse_datetime (date ++ [space] ++ time) with
            | Ok ts => Ok (record a ts (text_of (group g "4")) (text_of (group g "5")))
            | Raise (ValueError e) => Ok (print (SkippedFormatError line e) a)
            | Raise e => Raise e
            end
        end
    end.

(** The whole loop: the accumulators when it stopped, and the exception
    that stopped it, if any. *)
Fixpoint parse_loop (a : accumulators) (lines : list str) : accumulators * option exception :=
  match lines with
  | [] => (a, None)
  | raw :: rest =>
      match process_line a raw with
      | Ok a' => parse_loop a' rest
      | Raise e => (a, Some e)
      end
  end.

(** After the loop: [if not messages: raise ValueError(...)], then the
    returned dict. *)
Definition finish (a : accumulators) : result chat_data :=
  match messages a with
  | [] => Raise (ValueError NoValidMessages)
  | _ =>
      lo <- min_or_none (timestamps a) ;;
      hi <- max_or_none (timestamps a) ;;
      Ok (mkchat (messages a) (user_message_count a) (users a) (timestamps a)
                 lo hi (emojis_count a) (link_count a))
  end.

(** [lines] is what [file.readlines()] returned; the result pairs the
    output after the call with the value returned or the exception raised. *)
Definition parse_whatsapp_chat (w : world) (lines : list str) : world * result chat_data :=
  let (a, stopped) := parse_loop (fresh w) lines in
  (printed a, match stopped with Some e => Raise e | None => finish a end).

End Parser.

(** ** Floats

    [to_double] rounds a rational to the nearest double (binary64: a
    significand of 53 bits, a last place of at least 2^-1074, ties to the
    even significand).  It is the value of a decimal literal of the source
    and the result of [int / int] and of a product of floats.  Above the
    largest double it keeps rounding to 53 bits; the program has no such
    value. *)

Definition round_half_even (a b : Z) : Z :=
  let q := (a / b)%Z in
  match (2 * (a mod b) ?= b)%Z with
  | Lt => q
  | Gt => (q + 1)%Z
  | Eq => if Z.even q then q else (q + 1)%Z
  end.

(** [a / b < 2 ^ e] *)
Definition below_power (a b e : Z) : bool :=
  if (0 <=? e)%Z then (a <? b * 2 ^ e)%Z else (a * 2 ^ (- e) <? b)%Z.

(** The exponent of the last place of [a / b]. *)
Definition ulp_exponent (a b : Z) : Z :=
  let e := (Z.log2 a - Z.log2 b)%Z in
  Z.max ((if below_power a b e then e - 1 else e) - 52) (-1074).

Definition to_double (x : Q) : Q :=
  let (n, d) := Qred x in
  if (n =? 0)%Z then 0%Q else
  let a := Z.abs n in
  let b := Z.pos d in
  let e := ulp_exponent a b in
  if (0 <=? e)%Z
  then inject_Z (Z.sgn n * round_half_even a (b * 2 ^ e) * 2 ^ e)
  else Qred (Z.sgn n * round_half_even (a * 2 ^ (- e)) b # Z.to_pos (2 ^ (- e))).

(** ** Aggregation *)

Local Open Scope Q_scope.

(** [np.mean] of a non-empty list. *)
Definition mean (l : list Q) : Q :=
  fold_right Qplus 0 l / inject_Z (Z.of_nat (List.length l)).

Definition date_eqb (a b : Z * Z * Z) : bool :=
  match a, b with
  | (y1, m1, d1), (y2, m2, d2) => (Z.eqb y1 y2 && Z.eqb m1 m2 && Z.eqb d1 d2)%bool
  end.

(** [daily_chat_frequency]; [ts.date()] on [None] raises [AttributeError]. *)
Fixpoint daily_loop (daily_freq : list (Z * Z * Z * nat)) (ts : list (option datetime))
  : result (list (Z * Z * Z * nat)) :=
  match ts with
  | [] => Ok daily_freq
  | Some t :: rest => daily_loop (incr date_eqb (date_of t) daily_freq) rest
  | None :: _ => Raise AttributeError
  end.

Definition daily_chat_frequency (ts : list (option datetime)) : result (list (Z * Z * Z * nat)) :=
  daily_loop [] ts.

Definition average_messages_per_day (daily_freq : list (Z * Z * Z * nat)) : Q :=
  match daily_freq with
  | [] => 0
  | _ => mean (map (fun kv => inject_Z (Z.of_nat (snd kv))) daily_freq)
  end.

(** [response_time_analysis]: [prev_time] is falsy only while it is [None];
    subtracting from [None] raises [TypeError]. *)
Fixpoint response_loop (prev_time : option datetime) (response_times : list Q) (ms : list msg)
  : result (list Q) :=
  match ms with
  | [] => Ok response_times
  | m :: rest =>
      match prev_time with
      | None => response_loop (timestamp m) response_times rest
      | Some p =>
          match timestamp m with
          | Some t =>
              response_loop (timestamp m)
                (response_times ++ [inject_Z (total_seconds_between t p) / 60]) rest
          | None => Raise TypeError
          end
      end
  end.

Definition response_time_analysis (ms : list msg) : result Q :=
  match response_loop None [] ms with
  | Ok [] => Ok 0
  | Ok response_times => Ok (mean response_times)
  | Raise e => Raise e
  end.

(** The keys of [sentiment_counts]. *)
Inductive bucket := TooNegative | Negative | Neutral | Positive | VeryPositive.

Definition bucket_eqb (a b : bucket) : bool :=
  match a, b with
  | TooNegative, TooNegative | Negative, Negative | Neutral, Neutral
  | Positive, Positive | VeryPositive, VeryPositive => true
  | _, _ => false
  end.

(** The [if]/[elif] chain of lines 165-174; the polarity is compared with
    the doubles that the literals [-0.6], [-0.2], [0.2] and [0.6] denote. *)
Definition classify (polarity : Q) : bucket :=
  if Qle_bool polarity (to_double (-6 # 10)) then TooNegative
  else if Qle_bool polarity (to_double (-2 # 10)) then Negative
  else if Qle_bool polarity (to_double (2 # 10)) then Neutral
  else if Qle_bool polarity (to_double (6 # 10)) then Positive
  else VeryPositive.

Record sentiment := mksentiment {
  average_polarity : Q;
  distribution : list (bucket * nat);
  percentages : list (bucket * Q)
}.

Definition no_counts : list (bucket * nat) :=
  [(TooNegative, 0%nat); (Negative, 0%nat); (Neutral, 0%nat); (Positive, 0%nat);
   (VeryPositive, 0%nat)].

Section Sentiment.

(** [TextBlob(text).sentiment.polarity] *)
Variable polarity_of : str -> Q.

Fixpoint sentiment_loop (polarities : list Q) (sentiment_counts : list (bucket * nat))
    (ms : list msg) : list Q * list (bucket * nat) :=
  match ms with
  | [] => (polarities, sentiment_counts)
  | m :: rest =>
      let polarity := polarity_of (message m) in
      sentiment_loop (polarities ++ [polarity])
                     (incr bucket_eqb (classify polarity) sentiment_counts) rest
  end.

Definition sentiment_analysis (ms : list msg) : sentiment :=
  let (polarities, sentiment_counts) := sentiment_loop [] no_counts ms in
  let total_messages := List.length ms in
  match total_messages with
  | O => mksentiment 0 sentiment_counts (map (fun kv => (fst kv, 0)) sentiment_counts)
  | _ =>
      mksentiment (mean polarities) sentiment_counts
        (map (fun kv => (fst kv,
                         to_double
                           (to_double (inject_Z (Z.of_nat (snd kv))
                                       / inject_Z (Z.of_nat total_messages)) * 100)))
             sentiment_counts)
  end.

(** The statistics that [display_chat_summary] derives from the parsed chat. *)
Record summary := mksummary {
  daily_freq : list (Z * Z * Z * nat);
  avg_messages_per_day : Q;
  response_time : Q;
  sentiment_result : sentiment
}.

Definition summarize (cd : chat_data) : result summary :=
  df <- daily_chat_frequency (cd_timestamps cd) ;;
  rt <- response_time_analysis (cd_messages cd) ;;
  Ok (mksummary df (average_messages_per_day df) rt (sentiment_analysis (cd_messages cd))).

End Sentiment.

Local Close Scope Q_scope.

(** Parse, then aggregate: one run of the program on the lines of a file. *)
Definition analyse (EMOJI_DATA : char -> bool) (polarity_of : str -> Q)
    (w : world) (lines : list str) : world * result (chat_data * summary) :=
  let (w', r) := parse_whatsapp_chat EMOJI_DATA w lines in
  (w', cd <- r ;; s <- summarize polarity_of cd ;; Ok (cd, s)).

(** ** Vocabulary of the statements *)

Definition no_emoji : char -> bool := fun _ => false.

(** What one line contributes when it is processed on its own: the record
    appended to [messages], if any, and what is printed. *)
Definition line_record (raw : str) : option msg :=
  match process_line no_emoji (fresh []) raw with
  | Ok a => hd_error (messages a)
  | Raise _ => None
  end.

Definition line_events (raw : str) : list event :=
  match process_line no_emoji (fresh []) raw with
  | Ok a => printed a
  | Raise _ => []
  end.

Definition opt_list {A} (o : option A) : list A :=
  match o with Some x => [x] | None => [] end.

Definition records (lines : list str) : list msg :=
  flat_map (fun raw => opt_list (line_record raw)) lines.

Definition diagnostics (lines : list str) : list event :=
  flat_map line_events lines.

(** The effect of one line on the accumulators, in terms of what the line
    contributes on its own. *)
Definition absorb (E : char -> bool) (a : accumulators) (raw : str) : accumulators :=
  match line_record raw with
  | Some m => record E a (timestamp m) (user m) (message m)
  | None => fold_left (fun b e => print e b) (line_events raw) a
  end.

(** Everything in the accumulators except the output. *)
Definition data (a : accumulators) :=
  (messages a, user_message_count a, timestamps a, users a, emojis_count a, link_count a).

(** Sample transcripts. *)
Definition nl (s : string) : str := u s ++ [newline].
Arguments nl s%_string.

Definition multi_line_chat : list str :=
  [nl "1/2/23, 9:00 AM - Alice: hello"; nl "second line"; nl "third line"].

Definition notices_only : list str :=
  [nl "1/2/23, 9:00 AM - Messages to this group are now secured with end-to-end encryption.";
   nl "1/2/23, 9:01 AM - Alice created group Friends";
   nl "1/2/23, 9:02 AM - Alice added Bob to the group"].

Definition nameless_chat : list str := [nl "1/2/23, 9:00 AM - : hello"].

Definition dotted_date_chat : list str :=
  [nl "1/2/23, 9:00 AM - Alice: hello"; nl "1.2.23, 9:03 - Bob: lost";
   nl "1/2/23, 9:05 AM - Bob: hi"].

Definition http_word_chat : list str := [nl "1/2/23, 9:00 AM - Alice: the http spec"].

Definition call_chat : list str :=
  [nl "1/2/23, 9:00 AM - Alice: Bob STARTED A CALL with me yesterday"].

(** The text that a header line hands to [parse_datetime]. *)
Definition header_datetime (raw : str) : option str :=
  match re_match false chat_pattern (strip raw) with
  | Some (_, g) =>
      match group g "1" with
      | Some (c :: date) => Some ((c :: date) ++ [space] ++ or_else (group g "2") (u "00:00"))
      | _ => None
      end
  | None => None
  end.

(** The sender and the body that a header line captures. *)
Definition header_sender (raw : str) : option str :=
  match re_match false chat_pattern (strip raw) with
  | Some (_, g) => Some (text_of (group g "4"))
  | None => None
  end.

Definition header_body (raw : str) : option str :=
  match re_match false chat_pattern (strip raw) with
  | Some (_, g) => Some (text_of (group g "5"))
  | None => None
  end.

(** A URL token as the specification words it: [http://], [https://] or
    [www.]. *)
Definition has_url_token (body : str) : bool :=
  (contains (u "http://") body || contains (u "https://") body
   || contains (u "www.") body)%bool.

Definition count_if {A} (p : A -> bool) (l : list A) : nat := List.length (filter p l).

(** Minutes between each timestamp and its predecessor, in list order. *)
Fixpoint deltas_minutes (prev : datetime) (ts : list datetime) : list Q :=
  match ts with
  | [] => []
  | t :: rest => (inject_Z (total_seconds_between t prev) / 60)%Q :: deltas_minutes t rest
  end.

Definition gaps_minutes (ts : list datetime) : list Q :=
  match ts with
  | [] => []
  | first :: rest => deltas_minutes first rest
  end.

Definition mean_or_zero (l : list Q) : Q :=
  match l with [] => 0%Q | _ => mean l end.

Definition at_minute (y mo d h mi : Z) (who body : str) : msg :=
  mkmsg (Some (mkdatetime y mo d h mi 0)) who body.

Definition total (d : list (bucket * nat)) : nat := fold_right Nat.add 0%nat (map snd d).

(** Case-insensitive occurrence of a phrase in a line, and of two phrases
    in order with no line break between them. *)
Definition same_letter (c a : char) : Prop := lower c = lower a.

Definition mentions (p line : str) : Prop :=
  exists pre mid post, line = pre ++ mid ++ post /\ Forall2 same_letter mid p.

Definition mentions2 (p1 p2 line : str) : Prop :=
  exists pre m1 gap m2 post,
    line = pre ++ m1 ++ gap ++ m2 ++ post
    /\ Forall2 same_letter m1 p1 /\ Forall2 same_letter m2 p2
    /\ Forall (fun c => c <> newline) gap.

Definition occurs (n : notice) (line : str) : Prop :=
  match n with
  | Phrase s => mentions (u s) line
  | Phrase2 s1 s2 => mentions2 (u s1) (u s2) line
  end.

(** The same up to the case classes of [re.IGNORECASE], which also put
    long s, the Kelvin sign and the dotted and dotless i with a letter. *)
Definition same_class (c a : char) : Prop := fold c = fold a.

Definition spells (p line : str) : Prop :=
  exists pre mid post, line = pre ++ mid ++ post /\ Forall2 same_class mid p.

Definition spells2 (p1 p2 line : str) : Prop :=
  exists pre m1 gap m2 post,
    line = pre ++ m1 ++ gap ++ m2 ++ post
    /\ Forall2 same_class m1 p1 /\ Forall2 same_class m2 p2
    /\ Forall (fun c => c <> newline) gap.

Definition shows (n : notice) (line : str) : Prop :=
  match n with
  | Phrase s => spells (u s) line
  | Phrase2 s1 s2 => spells2 (u s1) (u s2) line
  end.

(** The first and the last character of a phrase are not white space. *)
Definition first_solid (p : str) : bool :=
  match p with
  | [] => false
  | a :: _ => negb (isspace (lower a))
  end.

Definition solid_edges (n : notice) : bool :=
  match n with
  | Phrase s => first_solid (u s) && first_solid (rev (u s))
  | Phrase2 s1 s2 => first_solid (u s1) && first_solid (rev (u s2))
  end%bool.

(** Layouts whose first field is the day, the month. *)
Definition day_first (fmt : string) : bool := String.prefix "%d" fmt.
Definition month_first (fmt : string) : bool := String.prefix "%m" fmt.

(** The layout with the first two directives exchanged. *)
Definition swap_first_two (fmt : string) : string :=
  match fmt with
  | String p1 (String a (String sep (String p2 (String b rest)))) =>
      String p1 (String b (String sep (String p2 (String a rest))))
  | _ => fmt
  end.

(** Every month-first layout of a list comes directly after the day-first
    layout that differs from it only in the order of the first two fields. *)
Fixpoint day_before_month (prev : option string) (fs : list string) : bool :=
  match fs with
  | [] => true
  | f :: rest =>
      ((if month_first f then
          match prev with
          | Some p => day_first p && String.eqb f (swap_first_two p)
          | None => false
          end
        else true)
       && day_before_month (Some f) rest)%bool
  end.

Definition succeeds {A} (r : result A) : bool :=
  match r with Ok _ => true | Raise _ => false end.

(** No white space other than single spaces. *)
Fixpoint single_spaced (s : str) : bool :=
  match s with
  | [] => true
  | c :: rest =>
      ((if isspace c then
          N.eqb c space && match rest with d :: _ => negb (isspace d) | [] => true end
        else true)
       && single_spaced rest)%bool
  end.

Definition two_digit_value (d1 d2 : char) : Z := (10 * (Z.of_N d1 - 48) + (Z.of_N d2 - 48))%Z.

Definition is_some {A} (o : option A) : bool := truthy o.

(** ** Vocabulary for the accumulated statistics *)

(** [d.get(k, 0)] on a dict of counters. *)
Fixpoint count_of {K : Type} (eqb : K -> K -> bool) (k : K) (d : list (K * nat)) : nat :=
  match d with
  | [] => 0
  | (k', n) :: rest => if eqb k k' then n else count_of eqb k rest
  end.

Definition keys {K : Type} (d : list (K * nat)) : list K := map fst d.

(** [sum(d.values())] *)
Definition sum_values {K : Type} (d : list (K * nat)) : nat :=
  fold_right Nat.add 0 (map snd d).

(** The accumulators as folds over the records, in transcript order. *)
Definition tally_users (ms : list msg) (d : list (str * nat)) : list (str * nat) :=
  fold_left (fun d m => incr str_eqb (user m) d) ms d.

Definition collect_users (ms : list msg) (s : list str) : list str :=
  fold_left (fun s m => set_add (user m) s) ms s.

Definition tally_emojis (E : char -> bool) (ms : list msg) (d : list (str * nat))
  : list (str * nat) :=
  fold_left (fun d m => count_emojis E (user m) (message m) d) ms d.

Definition sent_by (who : str) (m : msg) : bool := str_eqb who (user m).

(** The number of catalogue characters in the bodies of the records. *)
Definition emojis_in (E : char -> bool) (ms : list msg) : nat :=
  fold_right Nat.add 0 (map (fun m => count_if E (message m)) ms).

(** [a <= b] on timestamps, as [not (b < a)]. *)
Definition dt_leb (a b : datetime) : bool := negb (dt_ltb b a).

(** A well-formed [datetime]: what its constructor accepts. *)
Definition valid_datetime (t : datetime) : bool :=
  (check_date_fields (year t) (month t) (day t)
   && check_time_fields (hour t) (minute t) (second t))%bool.

(** Seconds from the start of day 0 of the proleptic calendar. *)
Definition epoch_seconds (t : datetime) : Z :=
  (toordinal t * 86400 + (hour t * 3600 + minute t * 60 + second t))%Z.

Definition on_date (d : Z * Z * Z) (t : datetime) : bool := date_eqb d (date_of t).

Definition tally_days (ts : list datetime) (d : list (Z * Z * Z * nat)) : list (Z * Z * Z * nat) :=
  fold_left (fun d t => incr date_eqb (date_of t) d) ts d.

Definition sum_Q (l : list Q) : Q := fold_right Qplus 0%Q l.

Definition of_nat (n : nat) : Q := inject_Z (Z.of_nat n).

(** The last timestamp of a list, or the given one if the list is empty. *)
Definition last_of (ts : list datetime) (first : datetime) : datetime := last ts first.

Definition falls_in (polarity_of : str -> Q) (b : bucket) (m : msg) : bool :=
  bucket_eqb b (classify (polarity_of (message m))).

(** The share of [count] among [total] in per cent, as doubles give it:
    the quotient is rounded, and so is its product with 100. *)
Definition percentage (count total : nat) : Q :=
  to_double (to_double (of_nat count / of_nat total) * 100).

(** ** What a pattern matches

    The matcher is a search; [denote] says what it can find: [denote ic r
    pos w g g'] holds when [r] matches exactly the text [w] at position
    [pos], turning the captures [g] into [g']. *)

Inductive iter (P : nat -> str -> captures -> captures -> Prop)
  : nat -> nat -> str -> captures -> captures -> Prop :=
| iter_none pos g : iter P 0 pos [] g g
| iter_more n pos w1 w2 g g1 g2 :
    P pos w1 g g1 -> iter P n (pos + List.length w1) w2 g1 g2 ->
    iter P (S n) pos (w1 ++ w2) g g2.

Fixpoint denote (ic : bool) (r : regex) : nat -> str -> captures -> captures -> Prop :=
  match r with
  | Eps => fun pos w g g' => w = [] /\ g' = g
  | Lit a => fun pos w g g' => exists c, w = [c] /\ lit_match ic a c = true /\ g' = g
  | Cls items =>
      fun pos w g g' =>
        exists c, w = [c] /\ existsb (fun i => item_match ic i c) items = true /\ g' = g
  | Any => fun pos w g g' => exists c, w = [c] /\ c <> newline /\ g' = g
  | Bol => fun pos w g g' => pos = 0 /\ w = [] /\ g' = g
  | Seq r1 r2 =>
      fun pos w g g' =>
        exists w1 w2 g1,
          w = w1 ++ w2 /\ denote ic r1 pos w1 g g1
          /\ denote ic r2 (pos + List.length w1) w2 g1 g'
  | Alt r1 r2 => fun pos w g g' => denote ic r1 pos w g g' \/ denote ic r2 pos w g g'
  | Rep r' lo hi _ =>
      fun pos w g g' =>
        exists n,
          lo <= n
          /\ match hi with Some h => n <= lo + (h - lo) | None => True end
          /\ iter (denote ic r') n pos w g g'
  | Group name r' =>
      fun pos w g g' => exists g1, denote ic r' pos w g g1 /\ g' = (name, w) :: g1
  end.

(** A pattern without capturing groups. *)
Fixpoint no_groups (r : regex) : bool :=
  match r with
  | Eps | Lit _ | Cls _ | Any | Bol => true
  | Seq r1 r2 | Alt r1 r2 => no_groups r1 && no_groups r2
  | Rep r' _ _ _ => no_groups r'
  | Group _ _ => false
  end.

(** [chat_pattern] cut in two: up to the white space after the dash, and
    from the sender on. *)
Definition header_date : regex :=
  Group "1" (cat [FromTo 1 2 Digit; date_sep; FromTo 1 2 Digit; date_sep;
                  FromTo 2 4 Digit]).

Definition header_time : regex :=
  Group "2" (cat [FromTo 1 2 Digit; Lit (chr ":"); Exactly 2 Digit;
                  Opt (Group "3" (cat [Opt Space;
                                       Exactly 2 (Cls [Ch (chr "A"); Ch (chr "P");
                                                       Ch (chr "M"); Ch (chr "a");
                                                       Ch (chr "p"); Ch (chr "m")])]))]).

Definition header_front : regex :=
  cat [Bol; header_date; Opt (Lit (chr ",")); Opt Space; Opt header_time; Opt Space;
       Cls [Ch (chr "-"); Ch en_dash]; Space].

Definition header_tail : regex :=
  cat [Lit (chr ":"); Space; Group "5" (Star Any)].

(** What the parser can print about a line. *)
Definition is_format_error (e : event) : bool :=
  match e with
  | SkippedFormatError _ (UnknownFormat _) => true
  | _ => false
  end.

(** The text up to the first line break. *)
Fixpoint first_line (s : str) : str :=
  match s with
  | [] => []
  | c :: rest => if N.eqb c newline then [] else c :: first_line rest
  end.

Definition colon : char := chr ":".

(** No colon of the text is directly followed by white space, the colon
    that ends the text included. *)
Definition no_colon_space (sender : str) : Prop :=
  forall w1 w2, sender = w1 ++ colon :: w2 ->
                exists c t, w2 ++ [colon] = c :: t /\ isspace c = false.

Definition bucket_rank (b : bucket) : nat :=
  match b with
  | TooNegative => 0
  | Negative => 1
  | Neutral => 2
  | Positive => 3
  | VeryPositive => 4
  end.

(** Text as [normalize] leaves it: single spaces as the only white space,
    none of it at either end. *)
Definition solid_start (s : str) : bool :=
  match s with
  | [] => true
  | c :: _ => negb (isspace c)
  end.

Definition tidy (s : str) : bool :=
  (single_spaced s && solid_start s && solid_start (rev s))%bool.

(** * Properties *)

(** ** Exceptions of the timestamp normaliser *)

Lemma py_int_raises_value_error (s : str) (e : exception) :
  py_int s = Raise e -> exists v, e = ValueError v.
Proof.
  unfold py_int. destruct (strip s) as [|c t]; [intros [= <-]; eauto|].
  destruct (digits_value 0 (c :: t)); [discriminate|]. intros [= <-]; eauto.
Qed.

Lemma int_group_raises_value_error g name default e :
  int_group g name default = Raise e -> exists v, e = ValueError v.
Proof.
  unfold int_group. destruct (group g name); [apply py_int_raises_value_error|discriminate].
Qed.

Lemma year_of_raises_value_error g e :
  year_of g = Raise e -> exists v, e = ValueError v.
Proof.
  unfold year_of. destruct (group g "y") as [v|].
  - destruct (py_int v) eqn:H; simpl; [discriminate|].
    intros [= <-]. eapply py_int_raises_value_error; eauto.
  - destruct (group g "Y"); [apply py_int_raises_value_error|discriminate].
Qed.

Lemma hour_of_raises_value_error g e :
  hour_of g = Raise e -> exists v, e = ValueError v.
Proof.
  unfold hour_of. destruct (group g "I") as [v|].
  - destruct (py_int v) eqn:H; simpl.
    + repeat match goal with |- context [if ?b then _ else _] => destruct b end; discriminate.
    + intros [= <-]. eapply py_int_raises_value_error; eauto.
  - apply int_group_raises_value_error.
Qed.

Lemma strptime_raises_value_error data fmt e :
  strptime data fmt = Raise e -> exists v, e = ValueError v.
Proof.
  unfold strptime.
  destruct (pattern fmt); [|intros [= <-]; eauto].
  destruct (re_match true r data) as [[stop g]|]; [|intros [= <-]; eauto].
  destruct (negb _); [intros [= <-]; eauto|].
  destruct (year_of g) eqn:Hy; simpl;
    [|intros [= <-]; eapply year_of_raises_value_error; eauto].
  destruct (int_group g "m" 1) eqn:Hm; simpl;
    [|intros [= <-]; eapply int_group_raises_value_error; eauto].
  destruct (int_group g "d" 1) eqn:Hd; simpl;
    [|intros [= <-]; eapply int_group_raises_value_error; eauto].
  destruct (hour_of g) eqn:Hh; simpl;
    [|intros [= <-]; eapply hour_of_raises_value_error; eauto].
  destruct (int_group g "M" 0) eqn:Hmi; simpl;
    [|intros [= <-]; eapply int_group_raises_value_error; eauto].
  destruct (_ && _)%bool; [discriminate|intros [= <-]; eauto].
Qed.

Lemma try_formats_outcome fs d :
  (exists t, try_formats fs d = Ok (Some t))
  \/ try_formats fs d = Raise (ValueError (UnknownFormat d)).
Proof.
  induction fs as [|f fs IH]; simpl; [now right|].
  destruct (strptime d f) as [t|e] eqn:H; [left; eauto|].
  destruct (strptime_raises_value_error _ _ _ H) as [v ->]. exact IH.
Qed.

(** The normaliser is first-match over the list it is given. *)
Lemma try_formats_first_match fs d t :
  try_formats fs d = Ok (Some t) <->
  exists before fmt after,
    fs = before ++ fmt :: after
    /\ strptime d fmt = Ok t
    /\ Forall (fun f => exists e, strptime d f = Raise e) before.
Proof.
  induction fs as [|f fs IH]; simpl.
  - split; [discriminate|]. intros (b & fmt & a & H & _). destruct b; discriminate.
  - destruct (strptime d f) as [t'|e] eqn:Hf.
    + split.
      * intros [= ->]. exists [], f, fs. repeat split; auto.
      * intros (b & fmt & a & H & Hok & Hb). destruct b as [|f' b].
        -- injection H as -> ->. congruence.
        -- injection H as -> ->. inversion Hb as [|? ? [e He] _]; subst. congruence.
    + destruct (strptime_raises_value_error _ _ _ Hf) as [v ->].
      rewrite IH. split.
      * intros (b & fmt & a & -> & Hok & Hb). exists (f :: b), fmt, a.
        repeat split; auto. constructor; eauto.
      * intros (b & fmt & a & H & Hok & Hb). destruct b as [|f' b].
        -- injection H as -> ->. congruence.
        -- injection H as -> ->. inversion Hb; subst. exists b, fmt, a. auto.
Qed.

Lemma parse_datetime_outcome c s :
  (exists t, parse_datetime (c :: s) = Ok (Some t))
  \/ parse_datetime (c :: s) = Raise (ValueError (UnknownFormat (normalize (c :: s)))).
Proof. unfold parse_datetime. apply try_formats_outcome. Qed.

(** ** The line loop *)

Lemma process_line_absorb E a raw : process_line E a raw = Ok (absorb E a raw).
Proof.
  unfold absorb, line_record, line_events, process_line.
  destruct (is_system_message (strip raw)); [reflexivity|].
  destruct (re_match false chat_pattern (strip raw)) as [[stop g]|]; [|reflexivity].
  destruct (group g "1") as [[|c date]|]; try reflexivity.
  change ((c :: date) ++ [space] ++ or_else (group g "2") (u "00:00"))
    with (c :: (date ++ [space] ++ or_else (group g "2") (u "00:00"))).
  destruct (parse_datetime_outcome c (date ++ [space] ++ or_else (group g "2") (u "00:00")))
    as [[t ->] | ->]; reflexivity.
Qed.

Lemma parse_loop_fold E lines : forall a,
  parse_loop E a lines = (fold_left (absorb E) lines a, None).
Proof.
  induction lines as [|raw lines IH]; intros a; simpl; [reflexivity|].
  rewrite process_line_absorb. apply IH.
Qed.

(** A recorded line always carries a timestamp, and prints nothing. *)
Lemma line_record_timestamp raw m :
  line_record raw = Some m -> exists t, timestamp m = Some t.
Proof.
  unfold line_record, process_line.
  destruct (is_system_message (strip raw)); [discriminate|].
  destruct (re_match false chat_pattern (strip raw)) as [[stop g]|]; [|discriminate].
  destruct (group g "1") as [[|c date]|]; try discriminate.
  change ((c :: date) ++ [space] ++ or_else (group g "2") (u "00:00"))
    with (c :: (date ++ [space] ++ or_else (group g "2") (u "00:00"))).
  destruct (parse_datetime_outcome c (date ++ [space] ++ or_else (group g "2") (u "00:00")))
    as [[t ->] | ->]; simpl; [|discriminate].
  intros [= <-]. simpl. eauto.
Qed.

Lemma messages_print_all evs : forall a,
  messages (fold_left (fun b e => print e b) evs a) = messages a.
Proof. induction evs as [|e evs IH]; intros a; simpl; [reflexivity|]. now rewrite IH. Qed.

Lemma timestamps_print_all evs : forall a,
  timestamps (fold_left (fun b e => print e b) evs a) = timestamps a.
Proof. induction evs as [|e evs IH]; intros a; simpl; [reflexivity|]. now rewrite IH. Qed.

Lemma link_count_print_all evs : forall a,
  link_count (fold_left (fun b e => print e b) evs a) = link_count a.
Proof. induction evs as [|e evs IH]; intros a; simpl; [reflexivity|]. now rewrite IH. Qed.

Lemma printed_print_all evs : forall a,
  printed (fold_left (fun b e => print e b) evs a) = printed a ++ evs.
Proof.
  induction evs as [|e evs IH]; intros a; simpl; [now rewrite app_nil_r|].
  rewrite IH. simpl. now rewrite <- app_assoc.
Qed.

Lemma line_record_silent raw m : line_record raw = Some m -> line_events raw = [].
Proof.
  unfold line_record, line_events, process_line.
  destruct (is_system_message (strip raw)); [discriminate|].
  destruct (re_match false chat_pattern (strip raw)) as [[stop g]|]; [|discriminate].
  destruct (group g "1") as [[|c date]|]; try discriminate.
  destruct (parse_datetime _) as [ts|[v| |]]; simpl; try discriminate. reflexivity.
Qed.

Lemma messages_absorb E a raw :
  messages (absorb E a raw) = messages a ++ opt_list (line_record raw).
Proof.
  unfold absorb. destruct (line_record raw) as [[ts who body]|]; simpl.
  - reflexivity.
  - rewrite messages_print_all. now rewrite app_nil_r.
Qed.

Lemma timestamps_absorb E a raw :
  timestamps (absorb E a raw) = timestamps a ++ map timestamp (opt_list (line_record raw)).
Proof.
  unfold absorb. destruct (line_record raw) as [[ts who body]|]; simpl.
  - reflexivity.
  - rewrite timestamps_print_all. now rewrite app_nil_r.
Qed.

Lemma printed_absorb E a raw :
  printed (absorb E a raw) = printed a ++ line_events raw.
Proof.
  unfold absorb. destruct (line_record raw) as [m|] eqn:H.
  - rewrite (line_record_silent _ _ H). simpl. now rewrite app_nil_r.
  - apply printed_print_all.
Qed.

Lemma link_count_absorb E a raw :
  link_count (absorb E a raw)
  = (link_count a + count_if (fun m => has_link (message m)) (opt_list (line_record raw)))%nat.
Proof.
  unfold absorb, count_if. destruct (line_record raw) as [[ts who body]|]; simpl.
  - destruct (has_link body); simpl; lia.
  - rewrite link_count_print_all. lia.
Qed.

Lemma messages_loop E lines : forall a,
  messages (fold_left (absorb E) lines a) = messages a ++ records lines.
Proof.
  induction lines as [|raw lines IH]; intros a; simpl; [now rewrite app_nil_r|].
  rewrite IH, messages_absorb. unfold records. simpl. now rewrite <- app_assoc.
Qed.

Lemma timestamps_loop E lines : forall a,
  timestamps (fold_left (absorb E) lines a) = timestamps a ++ map timestamp (records lines).
Proof.
  induction lines as [|raw lines IH]; intros a; simpl; [now rewrite app_nil_r|].
  rewrite IH, timestamps_absorb. unfold records. simpl.
  now rewrite map_app, <- app_assoc.
Qed.

Lemma printed_loop E lines : forall a,
  printed (fold_left (absorb E) lines a) = printed a ++ diagnostics lines.
Proof.
  induction lines as [|raw lines IH]; intros a; simpl; [now rewrite app_nil_r|].
  rewrite IH, printed_absorb. unfold diagnostics. simpl. now rewrite <- app_assoc.
Qed.

Lemma link_count_loop E lines : forall a,
  link_count (fold_left (absorb E) lines a)
  = (link_count a + count_if (fun m => has_link (message m)) (records lines))%nat.
Proof.
  induction lines as [|raw lines IH]; intros a; simpl; [unfold count_if; simpl; lia|].
  rewrite IH, link_count_absorb. unfold records, count_if. simpl.
  rewrite filter_app, length_app. lia.
Qed.

Lemma records_app l1 l2 : records (l1 ++ l2) = records l1 ++ records l2.
Proof. unfold records. apply flat_map_app. Qed.

Lemma diagnostics_app l1 l2 : diagnostics (l1 ++ l2) = diagnostics l1 ++ diagnostics l2.
Proof. unfold diagnostics. apply flat_map_app. Qed.

Lemma records_timestamps lines :
  Forall (fun m => exists t, timestamp m = Some t) (records lines).
Proof.
  induction lines as [|raw lines IH]; simpl; [constructor|].
  unfold records. simpl. apply Forall_app. split; [|exact IH].
  destruct (line_record raw) as [m|] eqn:H; simpl; [|constructor].
  constructor; [|constructor]. eapply line_record_timestamp; eauto.
Qed.

(** ** [min] and [max] over timestamps that are all present *)

Lemma min_loop_ok l : forall t,
  Forall (fun o => exists x : datetime, o = Some x) l ->
  exists r, min_loop (Some t) l = Ok (Some r).
Proof.
  induction l as [|o l IH]; intros t H; simpl; [eauto|].
  inversion H as [|? ? [x ->] Hl]; subst. simpl.
  destruct (dt_ltb x t); apply IH; assumption.
Qed.

Lemma max_loop_ok l : forall t,
  Forall (fun o => exists x : datetime, o = Some x) l ->
  exists r, max_loop (Some t) l = Ok (Some r).
Proof.
  induction l as [|o l IH]; intros t H; simpl; [eauto|].
  inversion H as [|? ? [x ->] Hl]; subst. simpl.
  destruct (dt_ltb t x); apply IH; assumption.
Qed.

(** ** What [parse_whatsapp_chat] returns *)

Lemma parse_output E w lines :
  fst (parse_whatsapp_chat E w lines) = w ++ diagnostics lines.
Proof.
  unfold parse_whatsapp_chat. rewrite parse_loop_fold. simpl.
  now rewrite printed_loop.
Qed.

Lemma parse_no_messages E w lines :
  records lines = [] ->
  snd (parse_whatsapp_chat E w lines) = Raise (ValueError NoValidMessages).
Proof.
  intros H. unfold parse_whatsapp_chat. rewrite parse_loop_fold. simpl.
  unfold finish. now rewrite messages_loop, H.
Qed.

Lemma parse_some_messages E w lines :
  records lines <> [] ->
  exists cd,
    snd (parse_whatsapp_chat E w lines) = Ok cd
    /\ cd_messages cd = records lines
    /\ cd_timestamps cd = map timestamp (records lines)
    /\ cd_link_count cd = count_if (fun m => has_link (message m)) (records lines).
Proof.
  intros H. unfold parse_whatsapp_chat. rewrite parse_loop_fold. simpl.
  unfold finish. rewrite messages_loop, timestamps_loop, link_count_loop. simpl.
  destruct (records lines) as [|m ms] eqn:Hr; [congruence|].
  assert (Hts : Forall (fun o => exists x : datetime, o = Some x) (map timestamp (m :: ms))).
  { rewrite <- Hr. apply Forall_map. apply records_timestamps. }
  simpl in Hts. inversion Hts as [|? ? [x Hx] Hrest]; subst.
  simpl. rewrite Hx.
  destruct (min_loop_ok _ x Hrest) as [lo ->].
  destruct (max_loop_ok _ x Hrest) as [hi ->].
  simpl. eexists. repeat split; reflexivity.
Qed.

Lemma parse_returns E w lines cd :
  snd (parse_whatsapp_chat E w lines) = Ok cd ->
  cd_messages cd = records lines
  /\ cd_timestamps cd = map timestamp (records lines)
  /\ cd_link_count cd = count_if (fun m => has_link (message m)) (records lines).
Proof.
  intros H. destruct (records lines) as [|m ms] eqn:Hr.
  - rewrite (parse_no_messages E w lines Hr) in H. discriminate.
  - destruct (parse_some_messages E w lines) as (cd' & H' & ?); [congruence|].
    rewrite H' in H. injection H as <-. now rewrite <- Hr.
Qed.

(** ** Single lines *)

Lemma line_record_inv raw m :
  line_record raw = Some m ->
  is_system_message (strip raw) = false
  /\ exists s t,
       header_datetime raw = Some s
       /\ parse_datetime s = Ok (Some t)
       /\ timestamp m = Some t
       /\ header_sender raw = Some (user m)
       /\ header_body raw = Some (message m).
Proof.
  unfold line_record, process_line, header_datetime, header_sender, header_body.
  destruct (is_system_message (strip raw)); [discriminate|].
  destruct (re_match false chat_pattern (strip raw)) as [[stop g]|]; [|discriminate].
  destruct (group g "1") as [[|c date]|]; try discriminate.
  change ((c :: date) ++ [space] ++ or_else (group g "2") (u "00:00"))
    with (c :: (date ++ [space] ++ or_else (group g "2") (u "00:00"))).
  destruct (parse_datetime_outcome c (date ++ [space] ++ or_else (group g "2") (u "00:00")))
    as [[t Ht] | Ht]; rewrite Ht; simpl; [|discriminate].
  intros [= <-]. split; [reflexivity|]. simpl. eauto 10.
Qed.

Lemma unmatched_line raw :
  re_match false chat_pattern (strip raw) = None ->
  line_record raw = None /\ line_events raw = [].
Proof.
  intros H. unfold line_record, line_events, process_line. rewrite H.
  destruct (is_system_message (strip raw)); auto.
Qed.

Lemma system_line raw :
  is_system_message (strip raw) = true ->
  line_record raw = None /\ line_events raw = [].
Proof.
  intros H. unfold line_record, line_events, process_line. rewrite H. auto.
Qed.

Lemma bad_timestamp_line raw s e :
  header_datetime raw = Some s ->
  parse_datetime s = Raise e ->
  line_record raw = None
  /\ exists v, e = ValueError v
       /\ (is_system_message (strip raw) = false ->
           line_events raw = [SkippedFormatError (strip raw) v]).
Proof.
  unfold header_datetime, line_record, line_events, process_line.
  destruct (re_match false chat_pattern (strip raw)) as [[stop g]|]; [|discriminate].
  destruct (group g "1") as [[|c date]|]; try discriminate.
  intros Hs He. injection Hs as <-.
  change ((c :: date) ++ [space] ++ or_else (group g "2") (u "00:00"))
    with (c :: (date ++ [space] ++ or_else (group g "2") (u "00:00"))).
  destruct (parse_datetime_outcome c (date ++ [space] ++ or_else (group g "2") (u "00:00")))
    as [[t Ht] | Ht]; rewrite Ht.
  - pose proof (eq_trans (eq_sym Ht) He) as Hc. discriminate Hc.
  - pose proof (eq_trans (eq_sym Ht) He) as Hc. injection Hc as <-.
    destruct (is_system_message (strip raw)); simpl; split; eauto.
    eexists; split; [reflexivity|discriminate].
Qed.

Lemma in_records m lines :
  In m (records lines) -> exists raw, In raw lines /\ line_record raw = Some m.
Proof.
  unfold records. rewrite in_flat_map. intros (raw & Hin & Hm).
  exists raw. split; [assumption|].
  destruct (line_record raw) as [m'|]; simpl in Hm; [|contradiction].
  destruct Hm as [->|[]]. reflexivity.
Qed.

(** ** The output never feeds back into the data *)

Lemma data_print_all evs : forall a, data (fold_left (fun b e => print e b) evs a) = data a.
Proof. induction evs as [|e evs IH]; intros a; simpl; [reflexivity|]. now rewrite IH. Qed.

Lemma data_absorb E a b raw : data a = data b -> data (absorb E a raw) = data (absorb E b raw).
Proof.
  unfold absorb. intros H. destruct (line_record raw) as [m|].
  - unfold data in *. injection H as H1 H2 H3 H4 H5 H6. unfold record. simpl.
    now rewrite H1, H2, H3, H4, H5, H6.
  - now rewrite !data_print_all.
Qed.

Lemma data_loop E lines : forall a b,
  data a = data b -> data (fold_left (absorb E) lines a) = data (fold_left (absorb E) lines b).
Proof.
  induction lines as [|raw lines IH]; intros a b H; simpl; [assumption|].
  apply IH. now apply data_absorb.
Qed.

Lemma finish_data a b : data a = data b -> finish a = finish b.
Proof. unfold data, finish. intros [= H1 H2 H3 H4 H5 H6]. now rewrite H1, H2, H3, H4, H5, H6. Qed.

Lemma parse_any_world E w w' lines :
  snd (parse_whatsapp_chat E w lines) = snd (parse_whatsapp_chat E w' lines).
Proof.
  unfold parse_whatsapp_chat. rewrite !parse_loop_fold. simpl.
  apply finish_data, data_loop. reflexivity.
Qed.

Lemma data_skip E a raw : line_record raw = None -> data (absorb E a raw) = data a.
Proof. unfold absorb. intros ->. apply data_print_all. Qed.

Lemma parse_skip E w before raw after :
  line_record raw = None ->
  snd (parse_whatsapp_chat E w (before ++ raw :: after))
  = snd (parse_whatsapp_chat E w (before ++ after)).
Proof.
  intros H. unfold parse_whatsapp_chat. rewrite !parse_loop_fold. simpl.
  apply finish_data. rewrite !fold_left_app. simpl.
  apply data_loop, data_skip, H.
Qed.

(** ** Multi-line messages *)

(** C1 (as stated, refuted): on a header followed by two lines that match no
    header, the parser returns one record whose body is the header body
    alone; neither following line is part of it. *)
Lemma C1_continuation_lines_lost :
  map (fun raw => truthy (re_match false chat_pattern (strip raw))) multi_line_chat
    = [true; false; false]
  /\ exists cd,
       snd (parse_whatsapp_chat no_emoji [] multi_line_chat) = Ok cd
       /\ map message (cd_messages cd) = [u "hello"]
       /\ contains (u "second line") (u "hello") = false
       /\ contains (u "third line") (u "hello") = false.
Proof.
  split; [vm_compute; reflexivity|].
  eexists. split; [vm_compute; reflexivity|].
  repeat split; vm_compute; reflexivity.
Qed.

(** C1 (amended): a header line that yields a record, followed by two lines
    that match no header structure, yields exactly that one record, whose
    body is the body captured from the header line; the two following
    lines are discarded, wherever the three lines stand in the file. *)
Theorem C1_header_then_unmatched_lines E w before h c1 c2 after r :
  line_record h = Some r ->
  re_match false chat_pattern (strip c1) = None ->
  re_match false chat_pattern (strip c2) = None ->
  exists cd,
    snd (parse_whatsapp_chat E w (before ++ h :: c1 :: c2 :: after)) = Ok cd
    /\ cd_messages cd = records before ++ r :: records after
    /\ header_body h = Some (message r).
Proof.
  intros Hh H1 H2.
  assert (Hr : records (before ++ h :: c1 :: c2 :: after)
               = records before ++ r :: records after).
  { rewrite records_app. f_equal. unfold records. simpl.
    rewrite Hh, (proj1 (unmatched_line _ H1)), (proj1 (unmatched_line _ H2)).
    reflexivity. }
  destruct (parse_some_messages E w (before ++ h :: c1 :: c2 :: after)) as (cd & Hcd & Hm & _).
  { rewrite Hr. destruct (records before); discriminate. }
  exists cd. repeat split; [assumption|congruence|].
  destruct (line_record_inv _ _ Hh) as (_ & s & t & _ & _ & _ & _ & Hb). exact Hb.
Qed.

Lemma C1_header_then_unmatched_lines_witness :
  exists cd,
    snd (parse_whatsapp_chat no_emoji []
           ([] ++ nl "1/2/23, 9:00 AM - Alice: hello" :: nl "second line"
               :: nl "third line" :: [])) = Ok cd
    /\ cd_messages cd
       = records [] ++ at_minute 2023 2 1 9 0 (u "Alice") (u "hello") :: records []
    /\ header_body (nl "1/2/23, 9:00 AM - Alice: hello")
       = Some (message (at_minute 2023 2 1 9 0 (u "Alice") (u "hello"))).
Proof.
  apply (C1_header_then_unmatched_lines no_emoji [] []
           (nl "1/2/23, 9:00 AM - Alice: hello") (nl "second line") (nl "third line") []
           (at_minute 2023 2 1 9 0 (u "Alice") (u "hello")));
    vm_compute; reflexivity.
Defined.

(** ** No valid messages *)

(** C2: whenever no record survives parsing - in particular on the empty
    line sequence and on a sequence of system-notification lines only - the
    parser raises the "no valid messages" error instead of returning. *)
Theorem C2_no_valid_messages E w lines :
  lines = []
  \/ Forall (fun raw => is_system_message (strip raw) = true) lines
  \/ records lines = [] ->
  snd (parse_whatsapp_chat E w lines) = Raise (ValueError NoValidMessages).
Proof.
  intros H. apply parse_no_messages.
  destruct H as [-> | [H | H]]; [reflexivity| |assumption].
  induction H as [|raw lines Hraw _ IH]; [reflexivity|].
  unfold records. simpl. rewrite (proj1 (system_line _ Hraw)). exact IH.
Qed.

Lemma C2_no_valid_messages_witness :
  snd (parse_whatsapp_chat no_emoji [] notices_only) = Raise (ValueError NoValidMessages).
Proof.
  apply (C2_no_valid_messages no_emoji [] notices_only).
  right; left. unfold notices_only.
  repeat apply Forall_cons; try apply Forall_nil; vm_compute; reflexivity.
Defined.

(** ** The record invariant *)

(** C6 (as stated, refuted): a header with nothing between the separator
    and the colon yields a record whose sender is the empty string. *)
Lemma C6_empty_sender_recorded :
  exists cd,
    snd (parse_whatsapp_chat no_emoji [] nameless_chat) = Ok cd
    /\ map user (cd_messages cd) = [[]].
Proof. eexists. split; vm_compute; reflexivity. Qed.

(** C6 (amended): every record the parser returns carries the timestamp
    that the normaliser produced for the date and time of its own header
    line, and a header line whose date and time the normaliser rejects
    yields no record; the sender is the text captured before the first
    colon-space, which may be empty. *)
Theorem C6_records_carry_parsed_timestamps E w lines cd :
  snd (parse_whatsapp_chat E w lines) = Ok cd ->
  cd_messages cd = records lines
  /\ Forall (fun m => exists raw s t,
                 In raw lines
                 /\ header_datetime raw = Some s
                 /\ parse_datetime s = Ok (Some t)
                 /\ timestamp m = Some t
                 /\ header_sender raw = Some (user m))
            (cd_messages cd)
  /\ forall raw s e,
       header_datetime raw = Some s -> parse_datetime s = Raise e ->
       line_record raw = None.
Proof.
  intros H. destruct (parse_returns _ _ _ _ H) as (Hm & _). split; [assumption|]. split.
  - rewrite Hm. apply Forall_forall. intros m Hin.
    destruct (in_records _ _ Hin) as (raw & Hraw & Hrec).
    destruct (line_record_inv _ _ Hrec) as (_ & s & t & Hs & Ht & Hts & Hu & _).
    exists raw, s, t. auto.
  - intros raw s e Hs He. exact (proj1 (bad_timestamp_line _ _ _ Hs He)).
Qed.

Lemma C6_records_carry_parsed_timestamps_witness :
  exists cd,
    snd (parse_whatsapp_chat no_emoji [] dotted_date_chat) = Ok cd
    /\ cd_messages cd = records dotted_date_chat
    /\ Forall (fun m => exists raw s t,
                   In raw dotted_date_chat
                   /\ header_datetime raw = Some s
                   /\ parse_datetime s = Ok (Some t)
                   /\ timestamp m = Some t
                   /\ header_sender raw = Some (user m))
              (cd_messages cd)
    /\ forall raw s e,
         header_datetime raw = Some s -> parse_datetime s = Raise e ->
         line_record raw = None.
Proof.
  eexists. split; [vm_compute; reflexivity|].
  apply (C6_records_carry_parsed_timestamps no_emoji [] dotted_date_chat).
  vm_compute. reflexivity.
Defined.

(** ** Recovery from a bad timestamp *)

(** C8: a header line whose date and time match no layout is dropped and
    reported, and nothing else changes: the parser returns what it returns
    without that line, so the other lines still produce their records and
    the only exception that can leave the parser is "no valid messages". *)
Theorem C8_bad_timestamp_is_skipped E w before bad after s e :
  is_system_message (strip bad) = false ->
  header_datetime bad = Some s ->
  parse_datetime s = Raise e ->
  (exists v, e = ValueError v
     /\ In (SkippedFormatError (strip bad) v)
           (fst (parse_whatsapp_chat E w (before ++ bad :: after))))
  /\ snd (parse_whatsapp_chat E w (before ++ bad :: after))
     = snd (parse_whatsapp_chat E w (before ++ after))
  /\ (snd (parse_whatsapp_chat E w (before ++ bad :: after))
        = Raise (ValueError NoValidMessages)
      /\ records before ++ records after = []
      \/ exists cd,
           snd (parse_whatsapp_chat E w (before ++ bad :: after)) = Ok cd
           /\ cd_messages cd = records before ++ records after).
Proof.
  intros Hsys Hs He.
  destruct (bad_timestamp_line _ _ _ Hs He) as (Hnone & v & -> & Hev).
  specialize (Hev Hsys). split; [|split].
  - exists v. split; [reflexivity|].
    rewrite parse_output, diagnostics_app. unfold diagnostics at 2. simpl. rewrite Hev.
    apply in_or_app. right. apply in_or_app. right. apply in_or_app. left. now left.
  - now apply parse_skip.
  - rewrite (parse_skip E w before bad after Hnone).
    destruct (records (before ++ after)) as [|m ms] eqn:Hr.
    + left. split; [now apply parse_no_messages|]. now rewrite <- records_app.
    + right. destruct (parse_some_messages E w (before ++ after)) as (cd & Hcd & Hm & _);
        [congruence|].
      exists cd. split; [assumption|]. now rewrite Hm, records_app.
Qed.

Lemma C8_bad_timestamp_is_skipped_witness :
  (exists v, ValueError (UnknownFormat (u "1.2.23 9:03")) = ValueError v
     /\ In (SkippedFormatError (strip (nl "1.2.23, 9:03 - Bob: lost")) v)
           (fst (parse_whatsapp_chat no_emoji []
                   ([nl "1/2/23, 9:00 AM - Alice: hello"] ++ nl "1.2.23, 9:03 - Bob: lost"
                      :: [nl "1/2/23, 9:05 AM - Bob: hi"]))))
  /\ snd (parse_whatsapp_chat no_emoji []
            ([nl "1/2/23, 9:00 AM - Alice: hello"] ++ nl "1.2.23, 9:03 - Bob: lost"
               :: [nl "1/2/23, 9:05 AM - Bob: hi"]))
     = snd (parse_whatsapp_chat no_emoji []
              ([nl "1/2/23, 9:00 AM - Alice: hello"] ++ [nl "1/2/23, 9:05 AM - Bob: hi"]))
  /\ (snd (parse_whatsapp_chat no_emoji []
             ([nl "1/2/23, 9:00 AM - Alice: hello"] ++ nl "1.2.23, 9:03 - Bob: lost"
                :: [nl "1/2/23, 9:05 AM - Bob: hi"]))
        = Raise (ValueError NoValidMessages)
      /\ records [nl "1/2/23, 9:00 AM - Alice: hello"]
           ++ records [nl "1/2/23, 9:05 AM - Bob: hi"] = []
      \/ exists cd,
           snd (parse_whatsapp_chat no_emoji []
                  ([nl "1/2/23, 9:00 AM - Alice: hello"] ++ nl "1.2.23, 9:03 - Bob: lost"
                     :: [nl "1/2/23, 9:05 AM - Bob: hi"])) = Ok cd
           /\ cd_messages cd
              = records [nl "1/2/23, 9:00 AM - Alice: hello"]
                  ++ records [nl "1/2/23, 9:05 AM - Bob: hi"]).
Proof.
  apply (C8_bad_timestamp_is_skipped no_emoji [] [nl "1/2/23, 9:00 AM - Alice: hello"]
           (nl "1.2.23, 9:03 - Bob: lost") [nl "1/2/23, 9:05 AM - Bob: hi"]
           (u "1.2.23 9:03") (ValueError (UnknownFormat (u "1.2.23 9:03"))));
    vm_compute; reflexivity.
Defined.

(** ** Response time *)

Lemma response_loop_present ms : forall ts p acc,
  map timestamp ms = map Some ts ->
  response_loop (Some p) acc ms = Ok (acc ++ deltas_minutes p ts).
Proof.
  induction ms as [|m ms IH]; intros [|t ts] p acc H; simpl in *; try discriminate.
  - now rewrite app_nil_r.
  - injection H as Ht Hrest. rewrite Ht. rewrite (IH ts t _ Hrest).
    now rewrite <- app_assoc.
Qed.

Lemma response_time_present ms ts :
  map timestamp ms = map Some ts ->
  response_time_analysis ms = Ok (mean_or_zero (gaps_minutes ts)).
Proof.
  intros H. unfold response_time_analysis.
  destruct ms as [|m ms], ts as [|t ts]; simpl in *; try discriminate; [reflexivity|].
  injection H as Ht Hrest. rewrite Ht, (response_loop_present ms ts t [] Hrest). simpl.
  destruct (deltas_minutes t ts); reflexivity.
Qed.

Lemma length_deltas_minutes ts : forall p, List.length (deltas_minutes p ts) = List.length ts.
Proof. induction ts as [|t ts IH]; intros p; simpl; [reflexivity|]. now rewrite IH. Qed.

Lemma gap_within_the_hour y mo d h m1 m2 :
  total_seconds_between (mkdatetime y mo d h m2 0) (mkdatetime y mo d h m1 0)
  = (60 * (m2 - m1))%Z.
Proof.
  unfold total_seconds_between, toordinal. cbn [year month day hour minute second].
  generalize (ymd2ord y mo d). intros o. lia.
Qed.

(** C3 (as stated, refuted): for records at minute offsets 0, 5 and 15 the
    function returns 7.5, the mean gap in minutes, not 450. *)
Lemma C3_three_records_give_minutes :
  exists q,
    response_time_analysis
      [at_minute 2023 1 2 9 0 (u "Alice") (u "a");
       at_minute 2023 1 2 9 5 (u "Bob") (u "b");
       at_minute 2023 1 2 9 15 (u "Alice") (u "c")] = Ok q
    /\ (q == 15 # 2)%Q
    /\ ~ (q == 450)%Q.
Proof.
  eexists. split; [vm_compute; reflexivity|]. split.
  - vm_compute. reflexivity.
  - intros H. vm_compute in H. discriminate H.
Qed.

(** C3 (amended): for records that all carry a timestamp, the function
    returns the arithmetic mean, in minutes, of the time from each record to
    the next one in transcript order, and zero when there are fewer than two
    records; for three records at minute offsets 0, 5 and 15 it is 7.5. *)
Theorem C3_mean_gap_in_minutes ms ts :
  map timestamp ms = map Some ts ->
  response_time_analysis ms = Ok (mean_or_zero (gaps_minutes ts))
  /\ List.length (gaps_minutes ts) = Nat.pred (List.length ts)
  /\ (List.length ts < 2 -> response_time_analysis ms = Ok 0%Q)
  /\ forall y mo d h who body,
       exists q,
         response_time_analysis
           [at_minute y mo d h 0 who body; at_minute y mo d h 5 who body;
            at_minute y mo d h 15 who body] = Ok q
         /\ (q == 15 # 2)%Q.
Proof.
  intros H. split; [now apply response_time_present|]. split; [|split].
  - destruct ts as [|t ts]; simpl; [reflexivity|apply length_deltas_minutes].
  - intros Hlen. rewrite (response_time_present _ _ H).
    destruct ts as [|t [|t' ts]]; simpl in *; try reflexivity. lia.
  - intros y mo d h who body. eexists. split.
    + apply (response_time_present _
               [mkdatetime y mo d h 0 0; mkdatetime y mo d h 5 0; mkdatetime y mo d h 15 0]).
      reflexivity.
    + unfold gaps_minutes, deltas_minutes. rewrite !gap_within_the_hour.
      vm_compute. reflexivity.
Qed.

Lemma C3_mean_gap_in_minutes_witness :
  response_time_analysis
    [at_minute 2023 1 2 9 0 (u "Alice") (u "a"); at_minute 2023 1 2 9 5 (u "Bob") (u "b")]
  = Ok (mean_or_zero (gaps_minutes [mkdatetime 2023 1 2 9 0 0; mkdatetime 2023 1 2 9 5 0])).
Proof.
  apply (C3_mean_gap_in_minutes
           [at_minute 2023 1 2 9 0 (u "Alice") (u "a"); at_minute 2023 1 2 9 5 (u "Bob") (u "b")]
           [mkdatetime 2023 1 2 9 0 0; mkdatetime 2023 1 2 9 5 0]).
  reflexivity.
Defined.

(** ** Sentiment buckets *)

Lemma total_incr b d : total (incr bucket_eqb b d) = S (total d).
Proof.
  unfold total. induction d as [|[k n] d IH]; simpl; [reflexivity|].
  destruct (bucket_eqb b k); simpl; [reflexivity|]. rewrite IH. lia.
Qed.

Lemma total_sentiment_loop polarity_of ms : forall ps d,
  total (snd (sentiment_loop polarity_of ps d ms)) = (total d + List.length ms)%nat.
Proof.
  induction ms as [|m ms IH]; intros ps d; simpl; [lia|].
  rewrite IH, total_incr. lia.
Qed.

Lemma keys_incr b d : In b (map fst d) -> map fst (incr bucket_eqb b d) = map fst d.
Proof.
  induction d as [|[k n] d IH]; simpl; [contradiction|].
  destruct (bucket_eqb b k) eqn:E; simpl; [reflexivity|].
  intros [-> | H]; [destruct b; discriminate|]. now rewrite IH.
Qed.

Lemma keys_sentiment_loop polarity_of ms : forall ps d,
  map fst d = [TooNegative; Negative; Neutral; Positive; VeryPositive] ->
  map fst (snd (sentiment_loop polarity_of ps d ms))
  = [TooNegative; Negative; Neutral; Positive; VeryPositive].
Proof.
  induction ms as [|m ms IH]; intros ps d H; simpl; [assumption|].
  apply IH. rewrite keys_incr; [assumption|].
  rewrite H. destruct (classify (polarity_of (message m))); simpl; auto 6.
Qed.

Lemma distribution_sentiment_analysis polarity_of ms :
  distribution (sentiment_analysis polarity_of ms)
  = snd (sentiment_loop polarity_of [] no_counts ms).
Proof.
  unfold sentiment_analysis.
  destruct (sentiment_loop polarity_of [] no_counts ms) as [ps d].
  destruct (List.length ms); reflexivity.
Qed.

(** The doubles that the four literals denote. *)
Lemma threshold_values :
  to_double (-6 # 10) = (-5404319552844595 # 9007199254740992)%Q
  /\ to_double (-2 # 10) = (-3602879701896397 # 18014398509481984)%Q
  /\ to_double (2 # 10) = (3602879701896397 # 18014398509481984)%Q
  /\ to_double (6 # 10) = (5404319552844595 # 9007199254740992)%Q.
Proof. repeat split; vm_compute; reflexivity. Qed.

Lemma classify_cases (p : Q) :
  (p <= to_double (-6 # 10) /\ classify p = TooNegative)%Q
  \/ (to_double (-6 # 10) < p /\ p <= to_double (-2 # 10) /\ classify p = Negative)%Q
  \/ (to_double (-2 # 10) < p /\ p <= to_double (2 # 10) /\ classify p = Neutral)%Q
  \/ (to_double (2 # 10) < p /\ p <= to_double (6 # 10) /\ classify p = Positive)%Q
  \/ (to_double (6 # 10) < p /\ classify p = VeryPositive)%Q.
Proof.
  unfold classify.
  destruct (Qle_bool p (to_double (-6 # 10))) eqn:H1;
    [left; split; [now apply Qle_bool_iff|reflexivity]|].
  assert (L1 : (to_double (-6 # 10) < p)%Q).
  { apply Qnot_le_lt. intros H. apply Qle_bool_iff in H. congruence. }
  destruct (Qle_bool p (to_double (-2 # 10))) eqn:H2;
    [right; left; repeat split; [assumption|now apply Qle_bool_iff]|].
  assert (L2 : (to_double (-2 # 10) < p)%Q).
  { apply Qnot_le_lt. intros H. apply Qle_bool_iff in H. congruence. }
  destruct (Qle_bool p (to_double (2 # 10))) eqn:H3;
    [right; right; left; repeat split; [assumption|now apply Qle_bool_iff]|].
  assert (L3 : (to_double (2 # 10) < p)%Q).
  { apply Qnot_le_lt. intros H. apply Qle_bool_iff in H. congruence. }
  destruct (Qle_bool p (to_double (6 # 10))) eqn:H4;
    [right; right; right; left; repeat split; [assumption|now apply Qle_bool_iff]|].
  assert (L4 : (to_double (6 # 10) < p)%Q).
  { apply Qnot_le_lt. intros H. apply Qle_bool_iff in H. congruence. }
  right; right; right; right. split; [assumption|reflexivity].
Qed.

(** C4: a polarity falls in exactly one bucket, by inclusive upper
    thresholds: at most -0.6 Too Negative, then at most -0.2 Negative, at
    most 0.2 Neutral, at most 0.6 Positive, above 0.6 Very Positive, where
    a decimal stands for the double that Python reads it as; the doubles
    -0.2, 0.2 and 0.61 are Negative, Neutral and Very Positive; and the
    five counts add up to the number of records. *)
Theorem C4_sentiment_buckets :
  (forall p : Q,
     (classify p = TooNegative <-> p <= to_double (-6 # 10))%Q
     /\ (classify p = Negative <-> to_double (-6 # 10) < p /\ p <= to_double (-2 # 10))%Q
     /\ (classify p = Neutral <-> to_double (-2 # 10) < p /\ p <= to_double (2 # 10))%Q
     /\ (classify p = Positive <-> to_double (2 # 10) < p /\ p <= to_double (6 # 10))%Q
     /\ (classify p = VeryPositive <-> to_double (6 # 10) < p)%Q)
  /\ classify (to_double (-2 # 10)) = Negative
  /\ classify (to_double (2 # 10)) = Neutral
  /\ classify (to_double (61 # 100)) = VeryPositive
  /\ forall polarity_of ms,
       total (distribution (sentiment_analysis polarity_of ms)) = List.length ms
       /\ map fst (distribution (sentiment_analysis polarity_of ms))
          = [TooNegative; Negative; Neutral; Positive; VeryPositive].
Proof.
  split; [|split; [vm_compute; reflexivity
                  |split; [vm_compute; reflexivity|split; [vm_compute; reflexivity|]]]].
  - intros p. destruct threshold_values as (T1 & T2 & T3 & T4).
    destruct (classify_cases p)
      as [[A ->] | [(A & B & ->) | [(A & B & ->) | [(A & B & ->) | [A ->]]]]];
      rewrite T1, T2, T3, T4 in *;
      repeat split; intros;
        repeat match goal with H : _ /\ _ |- _ => destruct H end;
        try discriminate; try reflexivity; try assumption; try lra; exfalso; lra.
  - intros polarity_of ms. rewrite distribution_sentiment_analysis. split.
    + rewrite total_sentiment_loop. reflexivity.
    + apply keys_sentiment_loop. reflexivity.
Qed.

(** ** Links *)

Lemma startswith_app p q s : startswith (p ++ q) s = true -> startswith p s = true.
Proof.
  revert s. induction p as [|x p IH]; intros s; simpl; [reflexivity|].
  destruct s as [|y s]; [discriminate|].
  destruct (N.eqb x y); simpl; [apply IH|discriminate].
Qed.

Lemma contains_app p q s : contains (p ++ q) s = true -> contains p s = true.
Proof.
  induction s as [|y s IH]; simpl.
  - rewrite !orb_false_r. apply startswith_app.
  - intros H. apply orb_true_iff in H. apply orb_true_iff.
    destruct H as [H|H]; [left; now apply startswith_app in H|right; now apply IH].
Qed.

(** C5 (as stated, refuted): a body with the bare word "http" holds no
    [http://], [https://] or [www.] token, yet it is counted. *)
Lemma C5_bare_http_is_counted :
  exists cd,
    snd (parse_whatsapp_chat no_emoji [] http_word_chat) = Ok cd
    /\ map message (cd_messages cd) = [u "the http spec"]
    /\ has_url_token (u "the http spec") = false
    /\ count_if (fun m => has_url_token (message m)) (cd_messages cd) = 0%nat
    /\ cd_link_count cd = 1%nat.
Proof. eexists. split; [vm_compute; reflexivity|]. repeat split; vm_compute; reflexivity. Qed.

(** C5 (amended): [link_count] is the number of records whose body contains
    the substring [http] or the substring [www.]; every record with an
    [http://], [https://] or [www.] token is among them, and a record
    with neither substring contributes nothing. *)
Theorem C5_link_count_counts_substrings E w lines cd :
  snd (parse_whatsapp_chat E w lines) = Ok cd ->
  cd_link_count cd = count_if (fun m => has_link (message m)) (cd_messages cd)
  /\ (forall body, has_url_token body = true -> has_link body = true)
  /\ (forall body,
        contains (u "http") body = false -> contains (u "www.") body = false ->
        has_link body = false).
Proof.
  intros H. destruct (parse_returns _ _ _ _ H) as (Hm & _ & Hl). split; [|split].
  - now rewrite Hl, Hm.
  - intros body. unfold has_url_token, has_link. intros Ht.
    apply orb_true_iff in Ht. destruct Ht as [Ht|Ht].
    + apply orb_true_iff in Ht. apply orb_true_iff. left.
      destruct Ht as [Ht|Ht].
      * apply (contains_app (u "http") (u "://")). exact Ht.
      * apply (contains_app (u "http") (u "s://")). exact Ht.
    + apply orb_true_iff. now right.
  - intros body H1 H2. unfold has_link. now rewrite H1, H2.
Qed.

Lemma C5_link_count_counts_substrings_witness :
  exists cd,
    snd (parse_whatsapp_chat no_emoji [] http_word_chat) = Ok cd
    /\ cd_link_count cd = count_if (fun m => has_link (message m)) (cd_messages cd)
    /\ (forall body, has_url_token body = true -> has_link body = true)
    /\ (forall body,
          contains (u "http") body = false -> contains (u "www.") body = false ->
          has_link body = false).
Proof.
  eexists. split; [vm_compute; reflexivity|].
  apply (C5_link_count_counts_substrings no_emoji [] http_word_chat).
  vm_compute. reflexivity.
Defined.

(** ** Repeated runs *)

Lemma analyse_result E polarity_of w lines :
  snd (analyse E polarity_of w lines)
  = (cd <- snd (parse_whatsapp_chat E w lines) ;;
     s <- summarize polarity_of cd ;; Ok (cd, s)).
Proof.
  unfold analyse. destruct (parse_whatsapp_chat E w lines) as [w' r]. reflexivity.
Qed.

Lemma analyse_output E polarity_of w lines :
  fst (analyse E polarity_of w lines) = w ++ diagnostics lines.
Proof.
  unfold analyse. rewrite <- parse_output with (E := E).
  destruct (parse_whatsapp_chat E w lines) as [w' r]. reflexivity.
Qed.

(** C9: a run creates its accumulators afresh, so it returns the same
    statistics whatever was done before it: running the analysis a second
    time, after the first run and on the output the first run left behind,
    gives the same result as the first run, and so does a run started
    from any other state of the output. *)
Theorem C9_aggregation_is_repeatable E polarity_of w lines :
  snd (analyse E polarity_of (fst (analyse E polarity_of w lines)) lines)
  = snd (analyse E polarity_of w lines)
  /\ (forall w', snd (analyse E polarity_of w' lines) = snd (analyse E polarity_of w lines))
  /\ fst (analyse E polarity_of (fst (analyse E polarity_of w lines)) lines)
     = (w ++ diagnostics lines) ++ diagnostics lines.
Proof.
  split; [|split].
  - rewrite !analyse_result.
    now rewrite (parse_any_world E (fst (analyse E polarity_of w lines)) w).
  - intros w'. rewrite !analyse_result. now rewrite (parse_any_world E w' w).
  - now rewrite !analyse_output.
Qed.

(** ** The order of the layouts *)

Lemma collapse_spaces_nonspace d rest :
  isspace d = false -> collapse_spaces (d :: rest) = d :: collapse_spaces rest.
Proof. intros H. simpl. now rewrite H. Qed.

Lemma single_spaced_collapse s : single_spaced (collapse_spaces s) = true.
Proof.
  induction s as [|c rest IH]; [reflexivity|].
  destruct (isspace c) eqn:Hc.
  - destruct rest as [|d rest']; [simpl; rewrite Hc; reflexivity|].
    destruct (isspace d) eqn:Hd.
    + simpl. rewrite Hc, Hd. simpl in IH. rewrite Hd in IH. exact IH.
    + replace (collapse_spaces (c :: d :: rest')) with (space :: collapse_spaces (d :: rest'))
        by (simpl; now rewrite Hc, Hd).
      rewrite collapse_spaces_nonspace in * by assumption.
      change (single_spaced (space :: d :: collapse_spaces rest'))
        with ((true && negb (isspace d)) && single_spaced (d :: collapse_spaces rest'))%bool.
      now rewrite Hd, IH.
  - rewrite collapse_spaces_nonspace by assumption. simpl. now rewrite Hc, IH.
Qed.

Lemma digit_cases c :
  isdigit c = true ->
  (c = 48 \/ c = 49 \/ c = 50 \/ c = 51 \/ c = 52 \/ c = 53 \/ c = 54 \/ c = 55
   \/ c = 56 \/ c = 57)%N.
Proof.
  unfold isdigit, between. intros H. apply andb_true_iff in H. destruct H as [H1 H2].
  apply N.leb_le in H1, H2. lia.
Qed.

Lemma month_first_rejects_13_and_up d1 d2 rest fmt :
  isdigit d1 = true -> isdigit d2 = true ->
  (13 <= two_digit_value d1 d2)%Z ->
  In fmt formats -> month_first fmt = true ->
  strptime (d1 :: d2 :: rest) fmt = Raise (ValueError NoMatch).
Proof.
  intros H1 H2 H13 Hin Hmf.
  apply digit_cases in H1, H2. simpl in Hin.
  repeat (destruct Hin as [<- | Hin]; [try discriminate Hmf|]); try contradiction;
    clear Hmf;
    repeat (destruct H1 as [-> | H1]); try subst d1;
    repeat (destruct H2 as [-> | H2]); try subst d2;
    try (exfalso; cbv in H13; apply H13; reflexivity);
    vm_compute; reflexivity.
Qed.

(** C7 (as stated, refuted): a date whose leading field is 13 resolves
    under a day-first layout, and under no month-first layout. *)
Lemma C7_leading_13_resolves_day_first :
  parse_datetime (u "13/04/25 9:00 AM") = Ok (Some (mkdatetime 2025 4 13 9 0 0))
  /\ strptime (normalize (u "13/04/25 9:00 AM")) "%d/%m/%y %I:%M %p"
     = Ok (mkdatetime 2025 4 13 9 0 0)
  /\ day_first "%d/%m/%y %I:%M %p" = true
  /\ existsb (fun f => month_first f
                       && succeeds (strptime (normalize (u "13/04/25 9:00 AM")) f))
             formats = false.
Proof. repeat split; vm_compute; reflexivity. Qed.

(** C7 (amended): the normaliser turns narrow no-break spaces into spaces,
    strips and collapses white space, and returns the instant of the first
    layout of its fixed list that matches the whole text; each month-first
    layout comes directly after its day-first twin, so 03/04/25 with a
    12-hour time is day 3 of month 4; and a leading two-digit field of 13
    or more is rejected by every month-first layout (it resolves under a
    day-first layout or, failing that, a year-first one). *)
Theorem C7_first_matching_layout :
  (forall s t,
     s <> [] ->
     (parse_datetime s = Ok (Some t) <->
      exists before fmt after,
        formats = before ++ fmt :: after
        /\ strptime (normalize s) fmt = Ok t
        /\ Forall (fun f => exists e, strptime (normalize s) f = Raise e) before))
  /\ (forall s, single_spaced (normalize s) = true)
  /\ normalize (u "03/04/25  9:00" ++ [8239%N] ++ u "AM ") = u "03/04/25 9:00 AM"
  /\ day_before_month None formats = true
  /\ parse_datetime (u "03/04/25 9:00 AM") = Ok (Some (mkdatetime 2025 4 3 9 0 0))
  /\ parse_datetime (u "31/04/25 9:00 AM") = Ok (Some (mkdatetime 2031 4 25 9 0 0))
  /\ (forall d1 d2 rest fmt,
        isdigit d1 = true -> isdigit d2 = true ->
        (13 <= two_digit_value d1 d2)%Z ->
        In fmt formats -> month_first fmt = true ->
        strptime (d1 :: d2 :: rest) fmt = Raise (ValueError NoMatch)).
Proof.
  split; [|split; [|split; [|split; [|split; [|split]]]]].
  - intros [|c s] t Hs; [congruence|]. unfold parse_datetime.
    apply try_formats_first_match.
  - intros s. apply single_spaced_collapse.
  - vm_compute. reflexivity.
  - vm_compute. reflexivity.
  - vm_compute. reflexivity.
  - vm_compute. reflexivity.
  - apply month_first_rejects_13_and_up.
Qed.

Lemma C7_first_matching_layout_witness :
  strptime (chr "1" :: chr "3" :: u "/04/25 9:00 AM") "%m/%d/%y %I:%M %p"
  = Raise (ValueError NoMatch).
Proof.
  apply (proj2 (proj2 (proj2 (proj2 (proj2 (proj2 C7_first_matching_layout))))));
    vm_compute; try reflexivity.
  - discriminate.
  - do 3 right. left. reflexivity.
Defined.

(** ** System notifications *)

Lemma upto_greedy_fallback n body pos s g k :
  k pos s g <> None -> upto n true body pos s g k <> None.
Proof.
  intros H. destruct n as [|n]; simpl; [assumption|].
  destruct (body pos s g _); [discriminate|assumption].
Qed.

Lemma upto_greedy_step n body pos s g k :
  upto (S n) true body pos s g k
  = match body pos s g (fun pos' s' g' => upto n true body pos' s' g' k) with
    | Some r => Some r
    | None => k pos s g
    end.
Proof. reflexivity. Qed.

Lemma run_any_cons ic c s pos g k :
  c <> newline -> run ic Any pos (c :: s) g k = k (S pos) s g.
Proof. intros H. simpl. unfold one. apply N.eqb_neq in H. now rewrite H. Qed.

(** A greedy [.*] can stop after any stretch free of line breaks. *)
Lemma star_any_reaches ic gap : forall n pos rest g k,
  Forall (fun c => c <> newline) gap ->
  List.length gap <= n ->
  k (pos + List.length gap) rest g <> None ->
  upto n true (run ic Any) pos (gap ++ rest) g k <> None.
Proof.
  induction gap as [|c gap IH]; intros n pos rest g k Hgap Hn Hk.
  - simpl in *. rewrite Nat.add_0_r in Hk. now apply upto_greedy_fallback.
  - destruct n as [|n]; simpl in Hn; [lia|].
    inversion Hgap as [|? ? Hc Hrest]; subst.
    change ((c :: gap) ++ rest) with (c :: gap ++ rest).
    rewrite upto_greedy_step, run_any_cons by assumption.
    assert (H : upto n true (run ic Any) (S pos) (gap ++ rest) g k <> None).
    { apply IH; [assumption|lia|]. simpl in Hk.
      now replace (S pos + List.length gap) with (pos + S (List.length gap)) by lia. }
    destruct (upto n true (run ic Any) (S pos) (gap ++ rest) g k); [discriminate|contradiction].
Qed.

Lemma run_cat_cons ic r rs pos s g k :
  run ic (cat (r :: rs)) pos s g k
  = run ic r pos s g (fun pos' s' g' => run ic (cat rs) pos' s' g' k).
Proof. destruct rs; reflexivity. Qed.

Lemma same_letter_class c a : same_letter c a -> same_class c a.
Proof.
  unfold same_letter, same_class, fold, lower. intros H.
  assert (Hb : forall lo hi x, between lo hi x = true -> (lo <= x <= hi)%N).
  { intros lo hi x Hx. unfold between in Hx. apply andb_prop in Hx.
    destruct Hx as [H1 H2]. apply N.leb_le in H1. apply N.leb_le in H2. lia. }
  assert (Hn : forall x y : N, x <> y -> N.eqb x y = false) by (intros; now apply N.eqb_neq).
  destruct (N.eq_dec c a) as [->|Hne]; [reflexivity|].
  destruct (between 65 90 c) eqn:Ec, (between 65 90 a) eqn:Ea;
    try (apply Hb in Ec); try (apply Hb in Ea).
  - lia.
  - subst a. rewrite !(Hn c), !(Hn (c + 32)%N) by lia. reflexivity.
  - subst c. rewrite !(Hn a), !(Hn (a + 32)%N) by lia. reflexivity.
  - contradiction.
Qed.

Lemma Forall2_same_letter_class mid p :
  Forall2 same_letter mid p -> Forall2 same_class mid p.
Proof. induction 1; constructor; [now apply same_letter_class|assumption]. Qed.

Lemma occurs_shows n line : occurs n line -> shows n line.
Proof.
  destruct n as [s|s1 s2]; simpl.
  - intros (pre & mid & post & E & H). exists pre, mid, post.
    split; [assumption|now apply Forall2_same_letter_class].
  - intros (pre & m1 & gap & m2 & post & E & H1 & H2 & Hgap). exists pre, m1, gap, m2, post.
    repeat split; try assumption; now apply Forall2_same_letter_class.
Qed.

(** A literal word matches any text whose characters are in the case
    classes of its characters. *)
Lemma word_matches p : forall mid pos rest g k,
  Forall2 same_class mid p ->
  run true (word p) pos (mid ++ rest) g k = k (pos + List.length mid) rest g.
Proof.
  unfold word. induction p as [|a p IH]; intros mid pos rest g k H.
  - inversion H; subst. simpl. now rewrite Nat.add_0_r.
  - inversion H as [|c ? mid' ? Hc Hrest]; subst.
    change (map Lit (a :: p)) with (Lit a :: map Lit p). rewrite run_cat_cons.
    simpl. unfold one, lit_match. unfold same_class in Hc. rewrite Hc, N.eqb_refl.
    rewrite IH by assumption. f_equal. lia.
Qed.

Lemma search_finds ic r pre : forall pos s,
  run ic r (pos + List.length pre) s [] accept <> None ->
  search_from ic r pos (pre ++ s) <> None.
Proof.
  induction pre as [|c pre IH]; intros pos s H.
  - simpl in H. rewrite Nat.add_0_r in H. destruct s; simpl;
      destruct (run ic r pos _ [] accept); try discriminate; contradiction.
  - simpl. destruct (run ic r pos (c :: pre ++ s) [] accept); [discriminate|].
    apply IH. simpl in H.
    now replace (S pos + List.length pre) with (pos + S (List.length pre)) by lia.
Qed.

Lemma star_any_run ic pos s g k :
  run ic (Star Any) pos s g k = upto (List.length s) true (run ic Any) pos s g k.
Proof. reflexivity. Qed.

Lemma phrase_found s line :
  spells (u s) line -> truthy (re_search true (notice_pattern (Phrase s)) line) = true.
Proof.
  intros (pre & mid & post & -> & Hmid).
  assert (H : re_search true (notice_pattern (Phrase s)) (pre ++ mid ++ post) <> None).
  { unfold re_search. apply search_finds.
    unfold notice_pattern. rewrite run_cat_cons, star_any_run.
    apply upto_greedy_fallback.
    rewrite run_cat_cons, word_matches by assumption.
    change (cat [Star Any]) with (Star Any). rewrite star_any_run.
    apply upto_greedy_fallback. discriminate. }
  destruct (re_search _ _ _); [reflexivity|contradiction].
Qed.

Lemma phrase2_found s1 s2 line :
  spells2 (u s1) (u s2) line ->
  truthy (re_search true (notice_pattern (Phrase2 s1 s2)) line) = true.
Proof.
  intros (pre & m1 & gap & m2 & post & -> & H1 & H2 & Hgap).
  assert (H : re_search true (notice_pattern (Phrase2 s1 s2))
                (pre ++ m1 ++ gap ++ m2 ++ post) <> None).
  { unfold re_search. apply search_finds.
    unfold notice_pattern. rewrite run_cat_cons, star_any_run.
    apply upto_greedy_fallback.
    rewrite run_cat_cons, word_matches by assumption.
    rewrite run_cat_cons, star_any_run.
    apply star_any_reaches; [assumption|rewrite !length_app; lia|].
    rewrite run_cat_cons, word_matches by assumption.
    change (cat [Star Any]) with (Star Any). rewrite star_any_run.
    apply upto_greedy_fallback. discriminate. }
  destruct (re_search _ _ _); [reflexivity|contradiction].
Qed.

Lemma notice_found n line :
  shows n line -> truthy (re_search true (notice_pattern n) line) = true.
Proof. destruct n; [apply phrase_found|apply phrase2_found]. Qed.

Lemma is_system_message_shows n line :
  In n system_phrases -> shows n line -> is_system_message line = true.
Proof.
  intros Hin Hocc. unfold is_system_message, system_patterns.
  apply existsb_exists. exists (notice_pattern n). split.
  - now apply in_map.
  - now apply notice_found.
Qed.

Lemma is_system_message_occurs n line :
  In n system_phrases -> occurs n line -> is_system_message line = true.
Proof. intros Hin Hocc. apply (is_system_message_shows n); [assumption|now apply occurs_shows]. Qed.

Lemma space_is_not_a_capital c : isspace c = true -> lower c = c.
Proof.
  unfold lower, between. intros H.
  destruct (N.leb 65 c && N.leb c 90)%bool eqn:E; [|reflexivity].
  apply andb_true_iff in E. destruct E as [E1 E2]. apply N.leb_le in E1, E2.
  assert (Hc : (c = 65 \/ c = 66 \/ c = 67 \/ c = 68 \/ c = 69 \/ c = 70 \/ c = 71 \/ c = 72
                \/ c = 73 \/ c = 74 \/ c = 75 \/ c = 76 \/ c = 77 \/ c = 78 \/ c = 79
                \/ c = 80 \/ c = 81 \/ c = 82 \/ c = 83 \/ c = 84 \/ c = 85 \/ c = 86
                \/ c = 87 \/ c = 88 \/ c = 89 \/ c = 90)%N) by lia.
  repeat (destruct Hc as [-> | Hc]; [discriminate H|]). subst c. discriminate H.
Qed.

Lemma same_letter_solid c a :
  same_letter c a -> isspace (lower a) = false -> isspace c = false.
Proof.
  unfold same_letter. intros Hc Ha. destruct (isspace c) eqn:E; [|reflexivity].
  rewrite (space_is_not_a_capital c E) in Hc. congruence.
Qed.

Lemma lstrip_app_solid pre c t :
  isspace c = false -> lstrip (pre ++ c :: t) = lstrip pre ++ c :: t.
Proof.
  intros Hc. induction pre as [|a pre IH]; simpl; [now rewrite Hc|].
  destruct (isspace a); [exact IH|reflexivity].
Qed.

(** Stripping a line keeps any stretch that starts and ends with a
    character that is not white space. *)
Lemma strip_keeps pre c t front l post :
  isspace c = false -> isspace l = false -> c :: t = front ++ [l] ->
  strip (pre ++ (c :: t) ++ post) = lstrip pre ++ (c :: t) ++ rstrip post.
Proof.
  intros Hc Hl Hmid. unfold strip, rstrip.
  change (pre ++ (c :: t) ++ post) with (pre ++ c :: (t ++ post)).
  rewrite lstrip_app_solid by assumption.
  change (lstrip pre ++ c :: t ++ post) with (lstrip pre ++ (c :: t) ++ post).
  rewrite Hmid. rewrite !rev_app_distr. simpl.
  rewrite <- app_assoc. simpl.
  rewrite lstrip_app_solid by assumption.
  rewrite rev_app_distr. simpl. rewrite rev_app_distr, !rev_involutive.
  now rewrite <- !app_assoc.
Qed.

Lemma solid_first mid p :
  Forall2 same_letter mid p -> first_solid p = true ->
  exists c t, mid = c :: t /\ isspace c = false.
Proof.
  intros H Hp. destruct H as [|c a mid p Hc _]; [discriminate|].
  simpl in Hp. apply negb_true_iff in Hp.
  exists c, mid. split; [reflexivity|]. eapply same_letter_solid; eauto.
Qed.

Lemma solid_last mid p :
  Forall2 same_letter mid p -> first_solid (rev p) = true ->
  exists front l, mid = front ++ [l] /\ isspace l = false.
Proof.
  intros H Hp. destruct (rev p) as [|z q] eqn:E; [discriminate|].
  assert (Hpz : p = rev q ++ [z]).
  { rewrite <- (rev_involutive p), E. reflexivity. }
  rewrite Hpz in H. apply Forall2_app_inv_r in H.
  destruct H as (front & lastpart & _ & Hl & ->).
  inversion Hl as [|l ? ? ? Hlz Hnil]; subst. inversion Hnil; subst.
  simpl in Hp. apply negb_true_iff in Hp.
  exists front, l. split; [reflexivity|]. eapply same_letter_solid; eauto.
Qed.

Lemma occurs_strip n raw :
  solid_edges n = true -> occurs n raw -> occurs n (strip raw).
Proof.
  destruct n as [s | s1 s2]; simpl; intros He Ho; apply andb_true_iff in He;
    destruct He as [Hfirst Hlast].
  - destruct Ho as (pre & mid & post & -> & Hmid).
    destruct (solid_first _ _ Hmid Hfirst) as (c & t & -> & Hc).
    destruct (solid_last _ _ Hmid Hlast) as (front & l & Hfl & Hl).
    rewrite (strip_keeps pre c t front l post Hc Hl Hfl).
    exists (lstrip pre), (c :: t), (rstrip post). auto.
  - destruct Ho as (pre & m1 & gap & m2 & post & -> & H1 & H2 & Hgap).
    destruct (solid_first _ _ H1 Hfirst) as (c & t & -> & Hc).
    destruct (solid_last _ _ H2 Hlast) as (front & l & -> & Hl).
    replace (pre ++ (c :: t) ++ gap ++ (front ++ [l]) ++ post)
      with (pre ++ (c :: (t ++ gap ++ front ++ [l])) ++ post)
      by (simpl; now rewrite <- !app_assoc).
    rewrite (strip_keeps pre c (t ++ gap ++ front ++ [l]) ((c :: t) ++ gap ++ front) l post Hc Hl)
      by (simpl; now rewrite <- !app_assoc).
    exists (lstrip pre), (c :: t), gap, (front ++ [l]), (rstrip post).
    repeat split; try assumption. simpl. now rewrite <- !app_assoc.
Qed.

Lemma system_phrases_solid n : In n system_phrases -> solid_edges n = true.
Proof.
  intros H. assert (Hall : forallb solid_edges system_phrases = true) by (vm_compute; reflexivity).
  rewrite forallb_forall in Hall. now apply Hall.
Qed.

(** C10: a line in which one of the system phrases occurs, in any letter
    case and anywhere in the line, is taken for a system notification before
    the header pattern is tried: it yields no record and changes nothing,
    even when it is a complete message header. *)
Theorem C10_system_phrase_wins E a raw n :
  In n system_phrases -> occurs n raw ->
  is_system_message (strip raw) = true
  /\ process_line E a raw = Ok a
  /\ line_record raw = None
  /\ forall w before after,
       snd (parse_whatsapp_chat E w (before ++ raw :: after))
       = snd (parse_whatsapp_chat E w (before ++ after)).
Proof.
  intros Hin Hocc.
  assert (Hsys : is_system_message (strip raw) = true).
  { apply (is_system_message_occurs n); [assumption|].
    apply occurs_strip; [now apply system_phrases_solid|assumption]. }
  split; [assumption|]. split; [|split].
  - unfold process_line. now rewrite Hsys.
  - exact (proj1 (system_line _ Hsys)).
  - intros w before after. apply parse_skip. exact (proj1 (system_line _ Hsys)).
Qed.

Lemma C10_system_phrase_wins_witness :
  truthy (re_match false chat_pattern
            (strip (nl "1/2/23, 9:00 AM - Alice: Bob STARTED A CALL with me yesterday"))) = true
  /\ is_system_message
       (strip (nl "1/2/23, 9:00 AM - Alice: Bob STARTED A CALL with me yesterday")) = true
  /\ process_line no_emoji (fresh [])
       (nl "1/2/23, 9:00 AM - Alice: Bob STARTED A CALL with me yesterday") = Ok (fresh [])
  /\ line_record (nl "1/2/23, 9:00 AM - Alice: Bob STARTED A CALL with me yesterday") = None
  /\ forall w before after,
       snd (parse_whatsapp_chat no_emoji w
              (before ++ nl "1/2/23, 9:00 AM - Alice: Bob STARTED A CALL with me yesterday"
                 :: after))
       = snd (parse_whatsapp_chat no_emoji w (before ++ after)).
Proof.
  split; [vm_compute; reflexivity|].
  apply (C10_system_phrase_wins no_emoji (fresh [])
           (nl "1/2/23, 9:00 AM - Alice: Bob STARTED A CALL with me yesterday")
           (Phrase "started a call")).
  - vm_compute. do 9 right. left. reflexivity.
  - exists (u "1/2/23, 9:00 AM - Alice: Bob "), (u "STARTED A CALL"),
      (nl " with me yesterday").
    split; [vm_compute; reflexivity|].
    repeat (constructor; [vm_compute; reflexivity|]). constructor.
Defined.

(** * Further properties of the parser *)

(** ** Every field of the result as a fold over the records *)

Lemma field_loop {F : Type} (f : accumulators -> F) (step : F -> msg -> F) E :
  (forall a raw, f (absorb E a raw) = fold_left step (opt_list (line_record raw)) (f a)) ->
  forall lines a, f (fold_left (absorb E) lines a) = fold_left step (records lines) (f a).
Proof.
  intros H. induction lines as [|raw lines IH]; intros a; simpl; [reflexivity|].
  rewrite IH, H. unfold records. simpl. now rewrite fold_left_app.
Qed.

Lemma user_message_count_print_all evs : forall a,
  user_message_count (fold_left (fun b e => print e b) evs a) = user_message_count a.
Proof. induction evs as [|e evs IH]; intros a; simpl; [reflexivity|]. now rewrite IH. Qed.

Lemma users_print_all evs : forall a,
  users (fold_left (fun b e => print e b) evs a) = users a.
Proof. induction evs as [|e evs IH]; intros a; simpl; [reflexivity|]. now rewrite IH. Qed.

Lemma emojis_count_print_all evs : forall a,
  emojis_count (fold_left (fun b e => print e b) evs a) = emojis_count a.
Proof. induction evs as [|e evs IH]; intros a; simpl; [reflexivity|]. now rewrite IH. Qed.

Lemma user_message_count_loop E lines a :
  user_message_count (fold_left (absorb E) lines a)
  = tally_users (records lines) (user_message_count a).
Proof.
  apply (field_loop user_message_count (fun d m => incr str_eqb (user m) d)).
  intros b raw. unfold absorb. destruct (line_record raw) as [[ts who body]|]; simpl;
    [reflexivity|apply user_message_count_print_all].
Qed.

Lemma users_loop E lines a :
  users (fold_left (absorb E) lines a) = collect_users (records lines) (users a).
Proof.
  apply (field_loop users (fun s m => set_add (user m) s)).
  intros b raw. unfold absorb. destruct (line_record raw) as [[ts who body]|]; simpl;
    [reflexivity|apply users_print_all].
Qed.

Lemma emojis_count_loop E lines a :
  emojis_count (fold_left (absorb E) lines a) = tally_emojis E (records lines) (emojis_count a).
Proof.
  apply (field_loop emojis_count (fun d m => count_emojis E (user m) (message m) d)).
  intros b raw. unfold absorb. destruct (line_record raw) as [[ts who body]|]; simpl;
    [reflexivity|apply emojis_count_print_all].
Qed.

(** What the parser returns, field by field. *)
Lemma parse_fields E w lines cd :
  snd (parse_whatsapp_chat E w lines) = Ok cd ->
  cd_messages cd = records lines
  /\ cd_user_message_count cd = tally_users (records lines) []
  /\ cd_users cd = collect_users (records lines) []
  /\ cd_timestamps cd = map timestamp (records lines)
  /\ emoji_count cd = tally_emojis E (records lines) []
  /\ min_or_none (cd_timestamps cd) = Ok (chat_start cd)
  /\ max_or_none (cd_timestamps cd) = Ok (chat_end cd).
Proof.
  unfold parse_whatsapp_chat. rewrite parse_loop_fold. simpl. unfold finish.
  rewrite messages_loop, timestamps_loop, user_message_count_loop, users_loop,
    emojis_count_loop. simpl.
  destruct (records lines) as [|m ms] eqn:Hr; [discriminate|].
  unfold bind.
  destruct (min_or_none (map timestamp (m :: ms))) as [lo|e] eqn:Hlo; [|discriminate].
  destruct (max_or_none (map timestamp (m :: ms))) as [hi|e] eqn:Hhi; [|discriminate].
  intros [= <-]. cbn [cd_messages cd_user_message_count cd_users cd_timestamps emoji_count
                       chat_start chat_end].
  repeat split; assumption.
Qed.

(** ** Counters *)

Lemma str_eqb_eq a : forall b, str_eqb a b = true <-> a = b.
Proof.
  induction a as [|x a IH]; intros [|y b]; simpl; split; intros H;
    try reflexivity; try discriminate.
  - apply andb_true_iff in H. destruct H as [Hxy Hab].
    apply N.eqb_eq in Hxy. apply IH in Hab. now subst.
  - injection H as -> ->. rewrite N.eqb_refl. simpl. now apply IH.
Qed.

Lemma str_eqb_neq a b : str_eqb a b = false <-> a <> b.
Proof.
  split.
  - intros H Heq. apply str_eqb_eq in Heq. congruence.
  - intros H. destruct (str_eqb a b) eqn:E; [|reflexivity].
    apply str_eqb_eq in E. contradiction.
Qed.

Section Counters.

Context {K : Type} (eqb : K -> K -> bool).
Hypothesis eqb_eq : forall x y, eqb x y = true <-> x = y.

Lemma eqb_same x : eqb x x = true.
Proof. now apply eqb_eq. Qed.

Lemma eqb_other x y : x <> y -> eqb x y = false.
Proof. intros H. destruct (eqb x y) eqn:E; [|reflexivity]. apply eqb_eq in E. contradiction. Qed.

Lemma count_of_incr_same k d : count_of eqb k (incr eqb k d) = S (count_of eqb k d).
Proof.
  induction d as [|[k' n] d IH]; simpl; [now rewrite eqb_same|].
  destruct (eqb k k') eqn:E; simpl; rewrite E; [reflexivity|exact IH].
Qed.

Lemma count_of_incr_other k k' d :
  k' <> k -> count_of eqb k' (incr eqb k d) = count_of eqb k' d.
Proof.
  intros H. induction d as [|[k0 n] d IH]; simpl; [now rewrite eqb_other|].
  destruct (eqb k k0) eqn:E; simpl.
  - apply eqb_eq in E. subst k0. now rewrite eqb_other.
  - destruct (eqb k' k0); [reflexivity|exact IH].
Qed.

Lemma sum_values_incr k d : sum_values (incr eqb k d) = S (sum_values d).
Proof.
  unfold sum_values. induction d as [|[k' n] d IH]; simpl; [reflexivity|].
  destruct (eqb k k'); simpl; [reflexivity|]. rewrite IH. lia.
Qed.

Lemma keys_incr_iff k k' d : In k' (keys (incr eqb k d)) <-> k' = k \/ In k' (keys d).
Proof.
  unfold keys. induction d as [|[k0 n] d IH]; simpl.
  - split; [intros [H|[]]; auto|intros [H|[]]; auto].
  - destruct (eqb k k0) eqn:E; simpl.
    + apply eqb_eq in E. subst k0. split; [now right|]. intros [->|H]; auto.
    + rewrite IH. split; [intros [H|[H|H]]; auto|intros [H|[H|H]]; auto].
Qed.

Lemma keys_incr_nodup k d : NoDup (keys d) -> NoDup (keys (incr eqb k d)).
Proof.
  unfold keys. induction d as [|[k0 n] d IH]; simpl; intros H.
  - constructor; [intros []|constructor].
  - inversion H as [|? ? Hnot Hd]; subst. destruct (eqb k k0) eqn:E; simpl.
    + now constructor.
    + constructor; [|now apply IH].
      intros Hin. apply (keys_incr_iff k k0 d) in Hin. destruct Hin as [->|Hin].
      * rewrite eqb_same in E. discriminate.
      * contradiction.
Qed.

Lemma positive_incr k d :
  Forall (fun kv => 1 <= snd kv) d -> Forall (fun kv => 1 <= snd kv) (incr eqb k d).
Proof.
  induction d as [|[k0 n] d IH]; simpl; intros H.
  - constructor; [simpl; lia|constructor].
  - inversion H; subst. destruct (eqb k k0); constructor; simpl in *; auto; lia.
Qed.

Lemma count_of_positive k d :
  Forall (fun kv => 1 <= snd kv) d -> (In k (keys d) <-> 1 <= count_of eqb k d).
Proof.
  unfold keys. induction d as [|[k0 n] d IH]; simpl; intros H.
  - split; [intros []|lia].
  - inversion H as [|? ? Hn Hd]; subst. simpl in Hn. destruct (eqb k k0) eqn:E.
    + apply eqb_eq in E. subst. split; auto.
    + rewrite <- (IH Hd). split; [intros [->|Hin]; [|assumption]|now right].
      rewrite eqb_same in E. discriminate.
Qed.

End Counters.

(** ** Messages per user *)

Lemma tally_users_count who ms : forall d,
  count_of str_eqb who (tally_users ms d)
  = count_of str_eqb who d + count_if (sent_by who) ms.
Proof.
  unfold tally_users, count_if, sent_by.
  induction ms as [|m ms IH]; intros d; simpl; [lia|].
  rewrite IH. destruct (str_eqb who (user m)) eqn:E; simpl.
  - apply str_eqb_eq in E. subst who. rewrite (count_of_incr_same str_eqb str_eqb_eq). lia.
  - apply str_eqb_neq in E. rewrite (count_of_incr_other str_eqb str_eqb_eq) by assumption. lia.
Qed.

Lemma tally_users_total ms : forall d,
  sum_values (tally_users ms d) = sum_values d + List.length ms.
Proof.
  unfold tally_users. induction ms as [|m ms IH]; intros d; simpl; [lia|].
  rewrite IH, sum_values_incr. lia.
Qed.

Lemma tally_users_nodup ms : forall d, NoDup (keys d) -> NoDup (keys (tally_users ms d)).
Proof.
  unfold tally_users. induction ms as [|m ms IH]; intros d H; simpl; [assumption|].
  apply IH. now apply (keys_incr_nodup str_eqb str_eqb_eq).
Qed.

Lemma tally_users_keys who ms : forall d,
  In who (keys (tally_users ms d))
  <-> In who (keys d) \/ exists m, In m ms /\ user m = who.
Proof.
  unfold tally_users. induction ms as [|m ms IH]; intros d; simpl.
  - split; [auto|]. intros [H|(m & [] & _)]. assumption.
  - rewrite IH, (keys_incr_iff str_eqb str_eqb_eq). split.
    + intros [[->|H]|(m' & Hin & Hu)]; eauto.
    + intros [H|(m' & [<-|Hin] & Hu)]; eauto.
Qed.

(** The per-user message counts: each sender's entry is the number of
    records with that sender, the entries add up to the number of records,
    and there is one entry per sender. *)
Theorem user_message_count_correct E w lines cd :
  snd (parse_whatsapp_chat E w lines) = Ok cd ->
  (forall who, count_of str_eqb who (cd_user_message_count cd)
               = count_if (sent_by who) (cd_messages cd))
  /\ sum_values (cd_user_message_count cd) = List.length (cd_messages cd)
  /\ NoDup (keys (cd_user_message_count cd))
  /\ forall who, In who (keys (cd_user_message_count cd))
                 <-> exists m, In m (cd_messages cd) /\ user m = who.
Proof.
  intros H. destruct (parse_fields _ _ _ _ H) as (Hm & Hu & _). rewrite Hm, Hu.
  repeat split.
  - intros who. now rewrite tally_users_count.
  - now rewrite tally_users_total.
  - apply tally_users_nodup. constructor.
  - rewrite tally_users_keys. intros [[]|H']; assumption.
  - intros H'. apply tally_users_keys. now right.
Qed.

Lemma user_message_count_correct_witness :
  exists cd,
    snd (parse_whatsapp_chat no_emoji [] dotted_date_chat) = Ok cd
    /\ (forall who, count_of str_eqb who (cd_user_message_count cd)
                    = count_if (sent_by who) (cd_messages cd))
    /\ sum_values (cd_user_message_count cd) = List.length (cd_messages cd)
    /\ NoDup (keys (cd_user_message_count cd))
    /\ forall who, In who (keys (cd_user_message_count cd))
                   <-> exists m, In m (cd_messages cd) /\ user m = who.
Proof.
  eexists. split; [vm_compute; reflexivity|].
  apply (user_message_count_correct no_emoji [] dotted_date_chat).
  vm_compute. reflexivity.
Defined.

(** ** Participants *)

Lemma set_add_in x y s : In x (set_add y s) <-> x = y \/ In x s.
Proof.
  unfold set_add. destruct (existsb (str_eqb y) s) eqn:E.
  - split; [now right|]. intros [->|H]; [|assumption].
    apply existsb_exists in E. destruct E as (z & Hz & Hyz).
    apply str_eqb_eq in Hyz. now subst.
  - rewrite in_app_iff. simpl. split; [intros [H|[H|[]]]; auto|intros [H|H]; auto].
Qed.

Lemma nodup_snoc {A : Type} (y : A) s : NoDup s -> ~ In y s -> NoDup (s ++ [y]).
Proof.
  induction s as [|x s IH]; simpl; intros H Hy.
  - constructor; [intros []|constructor].
  - inversion H as [|? ? Hx Hs]; subst. constructor.
    + rewrite in_app_iff. simpl. intros [Hin|[->|[]]]; [contradiction|]. apply Hy. now left.
    + apply IH; [assumption|]. intros Hin. apply Hy. now right.
Qed.

Lemma set_add_nodup y s : NoDup s -> NoDup (set_add y s).
Proof.
  intros H. unfold set_add. destruct (existsb (str_eqb y) s) eqn:E; [assumption|].
  apply nodup_snoc; [assumption|]. intros Hin.
  assert (existsb (str_eqb y) s = true); [|congruence].
  apply existsb_exists. exists y. split; [assumption|now apply str_eqb_eq].
Qed.

Lemma collect_users_in who ms : forall s,
  In who (collect_users ms s) <-> In who s \/ exists m, In m ms /\ user m = who.
Proof.
  unfold collect_users. induction ms as [|m ms IH]; intros s; simpl.
  - split; [auto|]. intros [H|(m & [] & _)]. assumption.
  - rewrite IH, set_add_in. split.
    + intros [[->|H]|(m' & Hin & Hu)]; eauto.
    + intros [H|(m' & [<-|Hin] & Hu)]; eauto.
Qed.

Lemma collect_users_nodup ms : forall s, NoDup s -> NoDup (collect_users ms s).
Proof.
  unfold collect_users. induction ms as [|m ms IH]; intros s H; simpl; [assumption|].
  apply IH. now apply set_add_nodup.
Qed.

(** The participants are exactly the senders of the records, each once;
    they are also exactly the keys of the per-user message counts. *)
Theorem users_are_the_senders E w lines cd :
  snd (parse_whatsapp_chat E w lines) = Ok cd ->
  NoDup (cd_users cd)
  /\ (forall who, In who (cd_users cd) <-> exists m, In m (cd_messages cd) /\ user m = who)
  /\ (forall who, In who (cd_users cd) <-> In who (keys (cd_user_message_count cd)))
  /\ List.length (cd_users cd) = List.length (cd_user_message_count cd).
Proof.
  intros H. destruct (parse_fields _ _ _ _ H) as (Hm & Hu & Hs & _).
  assert (Hin : forall who, In who (cd_users cd)
                            <-> exists m, In m (cd_messages cd) /\ user m = who).
  { intros who. rewrite Hs, Hm, collect_users_in. split; [intros [[]|H']; assumption|auto]. }
  assert (Hnd : NoDup (cd_users cd)).
  { rewrite Hs. apply collect_users_nodup. constructor. }
  assert (Hk : forall who, In who (cd_users cd) <-> In who (keys (cd_user_message_count cd))).
  { intros who. rewrite Hin, Hu, Hm, tally_users_keys.
    split; [auto|intros [[]|H']; assumption]. }
  repeat split; try assumption; try apply Hin; try apply Hk.
  assert (Hkd : NoDup (keys (cd_user_message_count cd)))
    by (rewrite Hu; apply tally_users_nodup; constructor).
  replace (List.length (cd_user_message_count cd))
    with (List.length (keys (cd_user_message_count cd))) by apply length_map.
  apply Nat.le_antisymm; apply NoDup_incl_length; try assumption;
    intros who Hw; now apply Hk.
Qed.

Lemma users_are_the_senders_witness :
  exists cd,
    snd (parse_whatsapp_chat no_emoji [] dotted_date_chat) = Ok cd
    /\ NoDup (cd_users cd)
    /\ (forall who, In who (cd_users cd) <-> exists m, In m (cd_messages cd) /\ user m = who)
    /\ (forall who, In who (cd_users cd) <-> In who (keys (cd_user_message_count cd)))
    /\ List.length (cd_users cd) = List.length (cd_user_message_count cd).
Proof.
  eexists. split; [vm_compute; reflexivity|].
  apply (users_are_the_senders no_emoji [] dotted_date_chat).
  vm_compute. reflexivity.
Defined.

(** ** Emoji counts *)

Lemma count_emojis_same E who body : forall d,
  count_of str_eqb who (count_emojis E who body d)
  = count_of str_eqb who d + count_if E body.
Proof.
  unfold count_if. induction body as [|c body IH]; intros d; simpl; [lia|].
  rewrite IH. destruct (E c); simpl; [|lia].
  rewrite (count_of_incr_same str_eqb str_eqb_eq). lia.
Qed.

Lemma count_emojis_other E who who' body : forall d,
  who' <> who ->
  count_of str_eqb who' (count_emojis E who body d) = count_of str_eqb who' d.
Proof.
  induction body as [|c body IH]; intros d H; simpl; [reflexivity|].
  rewrite IH by assumption. destruct (E c); [|reflexivity].
  now rewrite (count_of_incr_other str_eqb str_eqb_eq).
Qed.

Lemma count_emojis_total E who body : forall d,
  sum_values (count_emojis E who body d) = sum_values d + count_if E body.
Proof.
  unfold count_if. induction body as [|c body IH]; intros d; simpl; [lia|].
  rewrite IH. destruct (E c); simpl; [|lia]. rewrite sum_values_incr. lia.
Qed.

Lemma count_emojis_positive E who body : forall d,
  Forall (fun kv => 1 <= snd kv) d ->
  Forall (fun kv => 1 <= snd kv) (count_emojis E who body d).
Proof.
  induction body as [|c body IH]; intros d H; simpl; [assumption|].
  apply IH. destruct (E c); [now apply positive_incr|assumption].
Qed.

Lemma tally_emojis_total E ms : forall d,
  sum_values (tally_emojis E ms d) = sum_values d + emojis_in E ms.
Proof.
  unfold tally_emojis, emojis_in. induction ms as [|m ms IH]; intros d; simpl; [lia|].
  rewrite IH, count_emojis_total. lia.
Qed.

Lemma tally_emojis_count E who ms : forall d,
  count_of str_eqb who (tally_emojis E ms d)
  = count_of str_eqb who d + emojis_in E (filter (sent_by who) ms).
Proof.
  unfold tally_emojis, emojis_in, sent_by.
  induction ms as [|m ms IH]; intros d; simpl; [lia|].
  rewrite IH. destruct (str_eqb who (user m)) eqn:Eq; simpl.
  - apply str_eqb_eq in Eq. subst who. rewrite count_emojis_same. lia.
  - apply str_eqb_neq in Eq. now rewrite count_emojis_other.
Qed.

Lemma tally_emojis_positive E ms : forall d,
  Forall (fun kv => 1 <= snd kv) d ->
  Forall (fun kv => 1 <= snd kv) (tally_emojis E ms d).
Proof.
  unfold tally_emojis. induction ms as [|m ms IH]; intros d H; simpl; [assumption|].
  apply IH. now apply count_emojis_positive.
Qed.

(** The emoji counts: each sender's entry is the number of catalogue
    characters in that sender's bodies, the entries add up to the number of
    such characters in all bodies, and only senders who used at least one
    have an entry. *)
Theorem emoji_count_correct E w lines cd :
  snd (parse_whatsapp_chat E w lines) = Ok cd ->
  sum_values (emoji_count cd) = emojis_in E (cd_messages cd)
  /\ (forall who, count_of str_eqb who (emoji_count cd)
                  = emojis_in E (filter (sent_by who) (cd_messages cd)))
  /\ forall who, In who (keys (emoji_count cd))
                 <-> 1 <= emojis_in E (filter (sent_by who) (cd_messages cd)).
Proof.
  intros H. destruct (parse_fields _ _ _ _ H) as (Hm & _ & _ & _ & He & _).
  rewrite Hm, He.
  assert (Hc : forall who, count_of str_eqb who (tally_emojis E (records lines) [])
                           = emojis_in E (filter (sent_by who) (records lines))).
  { intros who. now rewrite tally_emojis_count. }
  split; [now rewrite tally_emojis_total|]. split; [exact Hc|].
  intros who. rewrite <- Hc. apply (count_of_positive str_eqb str_eqb_eq).
  apply tally_emojis_positive. constructor.
Qed.

Lemma emoji_count_correct_witness :
  exists cd,
    snd (parse_whatsapp_chat (N.eqb 104) [] http_word_chat) = Ok cd
    /\ sum_values (emoji_count cd) = emojis_in (N.eqb 104) (cd_messages cd)
    /\ (forall who, count_of str_eqb who (emoji_count cd)
                    = emojis_in (N.eqb 104) (filter (sent_by who) (cd_messages cd)))
    /\ forall who, In who (keys (emoji_count cd))
                   <-> 1 <= emojis_in (N.eqb 104) (filter (sent_by who) (cd_messages cd)).
Proof.
  eexists. split; [vm_compute; reflexivity|].
  apply (emoji_count_correct (N.eqb 104) [] http_word_chat).
  vm_compute. reflexivity.
Defined.

(** ** The span of the chat *)

Lemma lex_ltb_trans a : forall b c,
  lex_ltb a b = true -> lex_ltb b c = true -> lex_ltb a c = true.
Proof.
  induction a as [|x a IH]; intros [|y b] [|z c]; simpl; intros H1 H2;
    try discriminate; try reflexivity.
  destruct (x <? y)%Z eqn:Exy.
  - destruct (y <? z)%Z eqn:Eyz.
    + apply Z.ltb_lt in Exy, Eyz. assert (Hxz : (x <? z)%Z = true) by (apply Z.ltb_lt; lia).
      now rewrite Hxz.
    + destruct (z <? y)%Z eqn:Ezy; [discriminate|].
      apply Z.ltb_lt in Exy. apply Z.ltb_ge in Eyz, Ezy.
      assert (Hxz : (x <? z)%Z = true) by (apply Z.ltb_lt; lia). now rewrite Hxz.
  - destruct (y <? x)%Z eqn:Eyx; [discriminate|].
    apply Z.ltb_ge in Exy, Eyx. assert (x = y) by lia. subst y.
    destruct (x <? z)%Z; [reflexivity|]. destruct (z <? x)%Z; [discriminate|].
    now apply (IH b c).
Qed.

Lemma lex_ltb_irrefl a : lex_ltb a a = false.
Proof. induction a as [|x a IH]; simpl; [reflexivity|]. now rewrite Z.ltb_irrefl. Qed.

Lemma dt_ltb_trans a b c : dt_ltb a b = true -> dt_ltb b c = true -> dt_ltb a c = true.
Proof. unfold dt_ltb. apply lex_ltb_trans. Qed.

Lemma dt_leb_refl a : dt_leb a a = true.
Proof. unfold dt_leb, dt_ltb. now rewrite lex_ltb_irrefl. Qed.

Lemma lex_lt_le_trans a : forall b c,
  lex_ltb a b = true -> lex_ltb c b = false -> lex_ltb a c = true.
Proof.
  induction a as [|x a IH]; intros [|y b] [|z c]; simpl; intros H1 H2;
    try discriminate; try reflexivity.
  destruct (z <? y)%Z eqn:Ezy; [discriminate|]. apply Z.ltb_ge in Ezy.
  destruct (x <? y)%Z eqn:Exy.
  - apply Z.ltb_lt in Exy. assert (Hxz : (x <? z)%Z = true) by (apply Z.ltb_lt; lia).
    now rewrite Hxz.
  - destruct (y <? x)%Z eqn:Eyx; [discriminate|].
    apply Z.ltb_ge in Exy, Eyx. assert (x = y) by lia. subst y.
    destruct (x <? z)%Z eqn:Exz; [reflexivity|].
    apply Z.ltb_ge in Exz. assert (z = x) by lia. subst z.
    rewrite Z.ltb_irrefl. now apply (IH b c).
Qed.

Lemma dt_lt_le_trans a b c : dt_ltb a b = true -> dt_leb b c = true -> dt_ltb a c = true.
Proof.
  unfold dt_leb, dt_ltb. intros H1 H2. apply negb_true_iff in H2.
  now apply (lex_lt_le_trans _ (fields b)).
Qed.

Lemma dt_leb_true a b : dt_leb a b = true <-> dt_ltb b a = false.
Proof. unfold dt_leb. apply negb_true_iff. Qed.

Lemma min_loop_least l : forall cur r,
  min_loop (Some cur) l = Ok (Some r) ->
  In (Some r) (Some cur :: l)
  /\ forall t, In (Some t) (Some cur :: l) -> dt_leb r t = true.
Proof.
  induction l as [|o l IH]; intros cur r H; simpl in H.
  - injection H as <-. split; [now left|].
    intros t [[= <-]|[]]. apply dt_leb_refl.
  - destruct o as [x|]; simpl in H; [|discriminate].
    destruct (dt_ltb x cur) eqn:E.
    + destruct (IH x r H) as (Hin & Hle). split.
      * destruct Hin as [Hin|Hin]; [right; now left|right; now right].
      * intros t [[= <-]|[Ht|Ht]].
        -- apply dt_leb_true. destruct (dt_ltb cur r) eqn:Ecr; [|reflexivity].
           assert (Hxr : dt_leb r x = true) by (apply Hle; now left).
           apply dt_leb_true in Hxr. rewrite (dt_ltb_trans x cur r E Ecr) in Hxr. discriminate.
        -- apply Hle. left. exact Ht.
        -- apply Hle. now right.
    + destruct (IH cur r H) as (Hin & Hle). split.
      * destruct Hin as [Hin|Hin]; [now left|right; now right].
      * intros t [Ht|[Ht|Ht]].
        -- apply Hle. now left.
        -- injection Ht as <-. apply dt_leb_true.
           destruct (dt_ltb x r) eqn:Exr; [|reflexivity].
           assert (Hrc : dt_leb r cur = true) by (apply Hle; now left).
           rewrite (dt_lt_le_trans x r cur Exr Hrc) in E. discriminate.
        -- apply Hle. now right.
Qed.

Lemma max_loop_greatest l : forall cur r,
  max_loop (Some cur) l = Ok (Some r) ->
  In (Some r) (Some cur :: l)
  /\ forall t, In (Some t) (Some cur :: l) -> dt_leb t r = true.
Proof.
  induction l as [|o l IH]; intros cur r H; simpl in H.
  - injection H as <-. split; [now left|].
    intros t [[= <-]|[]]. apply dt_leb_refl.
  - destruct o as [x|]; simpl in H; [|discriminate].
    destruct (dt_ltb cur x) eqn:E.
    + destruct (IH x r H) as (Hin & Hle). split.
      * destruct Hin as [Hin|Hin]; [right; now left|right; now right].
      * intros t [[= <-]|[Ht|Ht]].
        -- apply dt_leb_true. destruct (dt_ltb r cur) eqn:Erc; [|reflexivity].
           assert (Hxr : dt_leb x r = true) by (apply Hle; now left).
           apply dt_leb_true in Hxr. rewrite (dt_ltb_trans r cur x Erc E) in Hxr. discriminate.
        -- apply Hle. left. exact Ht.
        -- apply Hle. now right.
    + destruct (IH cur r H) as (Hin & Hle). split.
      * destruct Hin as [Hin|Hin]; [now left|right; now right].
      * intros t [Ht|[Ht|Ht]].
        -- apply Hle. now left.
        -- injection Ht as <-. apply dt_leb_true.
           destruct (dt_ltb r x) eqn:Erx; [|reflexivity].
           assert (Hxc : dt_leb x cur = true) by (now apply dt_leb_true).
           assert (Hcr : dt_leb cur r = true) by (apply Hle; now left).
           apply dt_leb_true in Hcr.
           rewrite (dt_lt_le_trans r x cur Erx Hxc) in Hcr. discriminate.
        -- apply Hle. now right.
Qed.

(** [chat_start] and [chat_end] are timestamps of the chat, and every
    timestamp of the chat lies between them. *)
Theorem chat_span_bounds E w lines cd :
  snd (parse_whatsapp_chat E w lines) = Ok cd ->
  exists lo hi,
    chat_start cd = Some lo /\ chat_end cd = Some hi
    /\ (exists m, In m (cd_messages cd) /\ timestamp m = Some lo)
    /\ (exists m, In m (cd_messages cd) /\ timestamp m = Some hi)
    /\ (forall m t, In m (cd_messages cd) -> timestamp m = Some t ->
                    dt_leb lo t = true /\ dt_leb t hi = true)
    /\ dt_leb lo hi = true.
Proof.
  intros H. destruct (parse_fields _ _ _ _ H) as (Hm & _ & _ & Ht & _ & Hlo & Hhi).
  rewrite Ht in Hlo, Hhi. rewrite Hm.
  destruct (records lines) as [|m ms] eqn:Hr.
  { rewrite (parse_no_messages E w lines Hr) in H. discriminate. }
  pose proof (records_timestamps lines) as Hall. rewrite Hr in Hall.
  inversion Hall as [|? ? [t0 Ht0] Hrest]; subst.
  simpl in Hlo, Hhi. rewrite Ht0 in Hlo, Hhi.
  assert (Hsome : Forall (fun o => exists x : datetime, o = Some x) (map timestamp ms))
    by (now apply Forall_map).
  destruct (min_loop_ok _ t0 Hsome) as [lo Hlo'].
  destruct (max_loop_ok _ t0 Hsome) as [hi Hhi'].
  rewrite Hlo' in Hlo. rewrite Hhi' in Hhi. injection Hlo as Hlo. injection Hhi as Hhi.
  destruct (min_loop_least _ _ _ Hlo') as (Hlin & Hlle).
  destruct (max_loop_greatest _ _ _ Hhi') as (Hhin & Hhle).
  assert (Hts : forall t, In (Some t) (Some t0 :: map timestamp ms)
                          <-> exists m', In m' (m :: ms) /\ timestamp m' = Some t).
  { intros t. rewrite <- Ht0. change (timestamp m :: map timestamp ms)
      with (map timestamp (m :: ms)). rewrite in_map_iff. split.
    - intros (m' & Hm' & Hin). eauto.
    - intros (m' & Hin & Hm'). eauto. }
  exists lo, hi.
  split; [now rewrite Hlo|]. split; [now rewrite Hhi|].
  split; [now apply Hts|]. split; [now apply Hts|]. split.
  - intros m' t Hin Ht'. split; [apply Hlle|apply Hhle]; apply Hts; eauto.
  - apply Hhle. exact Hlin.
Qed.

Lemma chat_span_bounds_witness :
  exists cd,
    snd (parse_whatsapp_chat no_emoji [] dotted_date_chat) = Ok cd
    /\ exists lo hi,
         chat_start cd = Some lo /\ chat_end cd = Some hi
         /\ (exists m, In m (cd_messages cd) /\ timestamp m = Some lo)
         /\ (exists m, In m (cd_messages cd) /\ timestamp m = Some hi)
         /\ (forall m t, In m (cd_messages cd) -> timestamp m = Some t ->
                         dt_leb lo t = true /\ dt_leb t hi = true)
         /\ dt_leb lo hi = true.
Proof.
  eexists. split; [vm_compute; reflexivity|].
  apply (chat_span_bounds no_emoji [] dotted_date_chat).
  vm_compute. reflexivity.
Defined.

(** ** What the normaliser can return *)

Lemma strptime_valid data fmt t :
  strptime data fmt = Ok t -> valid_datetime t = true /\ second t = 0%Z.
Proof.
  unfold strptime.
  destruct (pattern fmt); [|discriminate].
  destruct (re_match true r data) as [[stop g]|]; [|discriminate].
  destruct (negb _); [discriminate|].
  destruct (year_of g) as [y|]; simpl; [|discriminate].
  destruct (int_group g "m" 1) as [m|]; simpl; [|discriminate].
  destruct (int_group g "d" 1) as [d|]; simpl; [|discriminate].
  destruct (hour_of g) as [h|]; simpl; [|discriminate].
  destruct (int_group g "M" 0) as [mi|]; simpl; [|discriminate].
  destruct (check_date_fields y m d && check_time_fields h mi 0)%bool eqn:E; [|discriminate].
  intros [= <-]. split; [exact E|reflexivity].
Qed.

Lemma try_formats_valid fs d t :
  try_formats fs d = Ok (Some t) -> valid_datetime t = true /\ second t = 0%Z.
Proof.
  intros H. apply try_formats_first_match in H.
  destruct H as (b & fmt & a & _ & Hok & _). eapply strptime_valid; eauto.
Qed.

(** [parse_datetime] returns [None] exactly on the empty string; on any
    other text it either returns a well-formed timestamp with zero seconds
    or raises the [ValueError] that names the normalised text.  No other
    exception leaves it. *)
Theorem parse_datetime_results s :
  match parse_datetime s with
  | Ok None => s = []
  | Ok (Some t) => s <> [] /\ valid_datetime t = true /\ second t = 0%Z
  | Raise e => s <> [] /\ e = ValueError (UnknownFormat (normalize s))
  end.
Proof.
  destruct s as [|c s]; [reflexivity|].
  destruct (parse_datetime_outcome c s) as [[t H] | H]; rewrite H.
  - split; [discriminate|]. unfold parse_datetime in H. eapply try_formats_valid; eauto.
  - split; [discriminate|reflexivity].
Qed.

(** ** Aggregating a parsed chat never fails *)

Lemma all_present ms :
  Forall (fun m => exists t, timestamp m = Some t) ms ->
  exists ts, map timestamp ms = map Some ts.
Proof.
  induction 1 as [|m ms [t Ht] _ [ts IH]]; [now exists []|].
  exists (t :: ts). simpl. now rewrite Ht, IH.
Qed.

Lemma daily_loop_present ts : forall d,
  exists d', daily_loop d (map Some ts) = Ok d'.
Proof. induction ts as [|t ts IH]; intros d; simpl; [eauto|apply IH]. Qed.

(** A run of the program either finds no record and raises "no valid
    messages", or returns the parsed chat with all its statistics: the
    aggregation functions never raise on what the parser returns. *)
Theorem analyse_outcome E polarity_of w lines :
  (records lines = []
   /\ snd (analyse E polarity_of w lines) = Raise (ValueError NoValidMessages))
  \/ (records lines <> []
      /\ exists cd s,
           snd (analyse E polarity_of w lines) = Ok (cd, s)
           /\ snd (parse_whatsapp_chat E w lines) = Ok cd
           /\ summarize polarity_of cd = Ok s).
Proof.
  rewrite analyse_result. destruct (records lines) as [|m ms] eqn:Hr.
  - left. split; [reflexivity|]. now rewrite (parse_no_messages E w lines Hr).
  - right. split; [discriminate|].
    destruct (parse_some_messages E w lines) as (cd & Hcd & Hm & Ht & _); [congruence|].
    rewrite Hcd. simpl.
    destruct (all_present (records lines) (records_timestamps lines)) as [ts Hts].
    assert (Hs : exists s, summarize polarity_of cd = Ok s).
    { unfold summarize. rewrite Ht, Hts.
      destruct (daily_loop_present ts []) as [d Hd]. unfold daily_chat_frequency. rewrite Hd.
      simpl. rewrite (response_time_present (cd_messages cd) ts) by (now rewrite Hm).
      simpl. eauto. }
    destruct Hs as [s Hs]. exists cd, s. rewrite Hs. simpl. auto.
Qed.

(** ** Daily frequency *)

Lemma date_eqb_eq a b : date_eqb a b = true <-> a = b.
Proof.
  destruct a as [[y1 m1] d1], b as [[y2 m2] d2]. simpl.
  rewrite !andb_true_iff, !Z.eqb_eq. split.
  - intros [[-> ->] ->]. reflexivity.
  - intros [= -> -> ->]. auto.
Qed.

Lemma daily_loop_tally ts : forall d, daily_loop d (map Some ts) = Ok (tally_days ts d).
Proof. unfold tally_days. induction ts as [|t ts IH]; intros d; simpl; [reflexivity|apply IH]. Qed.

Lemma daily_loop_none ts : forall d, In None ts -> daily_loop d ts = Raise AttributeError.
Proof.
  induction ts as [|o ts IH]; intros d H; [destruct H|].
  destruct o as [t|]; simpl; [|reflexivity].
  apply IH. destruct H as [H|H]; [discriminate|assumption].
Qed.

Lemma tally_days_count date ts : forall d,
  count_of date_eqb date (tally_days ts d)
  = count_of date_eqb date d + count_if (on_date date) ts.
Proof.
  unfold tally_days, count_if, on_date.
  induction ts as [|t ts IH]; intros d; simpl; [lia|].
  rewrite IH. destruct (date_eqb date (date_of t)) eqn:E; simpl.
  - apply date_eqb_eq in E. subst date. rewrite (count_of_incr_same date_eqb date_eqb_eq). lia.
  - rewrite (count_of_incr_other date_eqb date_eqb_eq); [lia|].
    intros ->. rewrite (proj2 (date_eqb_eq _ _) eq_refl) in E. discriminate.
Qed.

Lemma tally_days_total ts : forall d,
  sum_values (tally_days ts d) = sum_values d + List.length ts.
Proof.
  unfold tally_days. induction ts as [|t ts IH]; intros d; simpl; [lia|].
  rewrite IH, sum_values_incr. lia.
Qed.

Lemma tally_days_nodup ts : forall d, NoDup (keys d) -> NoDup (keys (tally_days ts d)).
Proof.
  unfold tally_days. induction ts as [|t ts IH]; intros d H; simpl; [assumption|].
  apply IH. now apply (keys_incr_nodup date_eqb date_eqb_eq).
Qed.

Lemma tally_days_positive ts : forall d,
  Forall (fun kv => 1 <= snd kv) d -> Forall (fun kv => 1 <= snd kv) (tally_days ts d).
Proof.
  unfold tally_days. induction ts as [|t ts IH]; intros d H; simpl; [assumption|].
  apply IH. now apply positive_incr.
Qed.

(** [daily_chat_frequency] counts, for each calendar date, the timestamps
    that fall on it: one entry per date that occurs, every entry at least
    1, the entries adding up to the number of timestamps; on a list with a
    missing timestamp it raises [AttributeError]. *)
Theorem daily_chat_frequency_correct :
  (forall ts,
     daily_chat_frequency (map Some ts) = Ok (tally_days ts [])
     /\ (forall date, count_of date_eqb date (tally_days ts []) = count_if (on_date date) ts)
     /\ sum_values (tally_days ts []) = List.length ts
     /\ NoDup (keys (tally_days ts []))
     /\ Forall (fun kv => 1 <= snd kv) (tally_days ts []))
  /\ forall ts, In None ts -> daily_chat_frequency ts = Raise AttributeError.
Proof.
  split.
  - intros ts. split; [apply daily_loop_tally|]. split; [|split; [|split]].
    + intros date. now rewrite tally_days_count.
    + now rewrite tally_days_total.
    + apply tally_days_nodup. constructor.
    + apply tally_days_positive. constructor.
  - intros ts H. now apply daily_loop_none.
Qed.

Lemma daily_chat_frequency_correct_witness :
  daily_chat_frequency [Some (mkdatetime 2023 2 1 9 0 0); None] = Raise AttributeError.
Proof.
  apply (proj2 daily_chat_frequency_correct). right. left. reflexivity.
Defined.

(** ** Average messages per day *)

Lemma sum_Q_counts {K : Type} (d : list (K * nat)) :
  (sum_Q (map (fun kv => inject_Z (Z.of_nat (snd kv))) d) == of_nat (sum_values d))%Q.
Proof.
  unfold sum_Q, sum_values, of_nat. induction d as [|[k n] d IH]; simpl; [reflexivity|].
  rewrite IH, Nat2Z.inj_add, inject_Z_plus. reflexivity.
Qed.

Lemma of_nat_nonzero n : n <> 0 -> ~ (of_nat n == 0)%Q.
Proof.
  unfold of_nat. intros H Hq. change 0%Q with (inject_Z 0) in Hq.
  apply (proj1 (inject_Z_injective _ _)) in Hq. lia.
Qed.

Lemma positive_sum {K : Type} (d : list (K * nat)) :
  Forall (fun kv => 1 <= snd kv) d -> List.length d <= sum_values d.
Proof.
  unfold sum_values. induction 1 as [|[k n] d Hn _ IH]; simpl in *; lia.
Qed.

(** [average_messages_per_day] is the number of counted messages divided
    by the number of dates, zero for no date at all, and at least 1 when
    every date has a message. *)
Theorem average_messages_per_day_correct (d : list (Z * Z * Z * nat)) :
  (d = [] -> average_messages_per_day d = 0%Q)
  /\ (d <> [] ->
      (average_messages_per_day d == of_nat (sum_values d) / of_nat (List.length d))%Q
      /\ (Forall (fun kv => 1 <= snd kv) d -> (1 <= average_messages_per_day d)%Q)).
Proof.
  split; [intros ->; reflexivity|]. intros Hd.
  assert (Hlen : List.length d <> 0) by (destruct d; [congruence|discriminate]).
  assert (Havg : (average_messages_per_day d == of_nat (sum_values d) / of_nat (List.length d))%Q).
  { destruct d as [|kv d]; [congruence|]. unfold average_messages_per_day, mean.
    rewrite length_map. fold (sum_Q (map (fun kv0 => inject_Z (Z.of_nat (snd kv0))) (kv :: d))).
    rewrite sum_Q_counts. reflexivity. }
  split; [exact Havg|]. intros Hpos. rewrite Havg.
  apply Qle_shift_div_l.
  - unfold of_nat. change 0%Q with (inject_Z 0). rewrite <- Zlt_Qlt. lia.
  - rewrite Qmult_1_l. unfold of_nat. rewrite <- Zle_Qle.
    apply inj_le. now apply positive_sum.
Qed.

Lemma average_messages_per_day_correct_witness :
  (average_messages_per_day [((2023, 2, 1)%Z, 3%nat); ((2023, 2, 2)%Z, 1%nat)]
   == of_nat (sum_values [((2023, 2, 1)%Z, 3%nat); ((2023, 2, 2)%Z, 1%nat)])
      / of_nat (List.length [((2023, 2, 1)%Z, 3%nat); ((2023, 2, 2)%Z, 1%nat)]))%Q.
Proof.
  apply (proj2 (average_messages_per_day_correct [((2023, 2, 1)%Z, 3%nat); ((2023, 2, 2)%Z, 1%nat)])).
  discriminate.
Defined.

(** ** The response time telescopes *)

Lemma total_seconds_epoch a b :
  total_seconds_between a b = (epoch_seconds a - epoch_seconds b)%Z.
Proof. unfold total_seconds_between, epoch_seconds. lia. Qed.

Lemma last_cons_default (t : datetime) rest p : last (t :: rest) p = last rest t.
Proof.
  revert t p. induction rest as [|t' rest IH]; intros t p; [reflexivity|].
  change (last (t :: t' :: rest) p) with (last (t' :: rest) p).
  now rewrite (IH t' p), (IH t' t).
Qed.

Lemma sum_deltas_minutes ts : forall p,
  (sum_Q (deltas_minutes p ts)
   == inject_Z (epoch_seconds (last_of ts p) - epoch_seconds p) / 60)%Q.
Proof.
  unfold last_of, sum_Q. induction ts as [|t ts IH]; intros p.
  - simpl. rewrite Z.sub_diag. reflexivity.
  - change (fold_right Qplus 0%Q (deltas_minutes p (t :: ts)))
      with (inject_Z (total_seconds_between t p) / 60
            + fold_right Qplus 0%Q (deltas_minutes t ts))%Q.
    rewrite IH, last_cons_default, total_seconds_epoch.
    unfold Z.sub. rewrite !inject_Z_plus, !inject_Z_opp. field.
Qed.

(** The average response time is the time from the first record to the
    last one, in minutes, divided by the number of gaps: the timestamps in
    between cancel out, whatever their order. *)
Theorem response_time_telescopes ms first rest :
  map timestamp ms = map Some (first :: rest) ->
  rest <> [] ->
  exists q,
    response_time_analysis ms = Ok q
    /\ (q == inject_Z (total_seconds_between (last_of rest first) first) / 60
             / of_nat (List.length rest))%Q.
Proof.
  intros H Hrest. rewrite (response_time_present _ _ H). eexists. split; [reflexivity|].
  simpl. destruct (deltas_minutes first rest) as [|q qs] eqn:E.
  - destruct rest; [congruence|discriminate].
  - unfold mean_or_zero, mean. rewrite <- E. fold (sum_Q (deltas_minutes first rest)).
    rewrite sum_deltas_minutes, length_deltas_minutes, total_seconds_epoch. reflexivity.
Qed.

Lemma response_time_telescopes_witness :
  exists q,
    response_time_analysis
      [at_minute 2023 1 2 9 0 (u "Alice") (u "a");
       at_minute 2023 1 2 9 40 (u "Bob") (u "b");
       at_minute 2023 1 2 9 10 (u "Alice") (u "c")] = Ok q
    /\ (q == inject_Z (total_seconds_between
                         (last_of [mkdatetime 2023 1 2 9 40 0; mkdatetime 2023 1 2 9 10 0]
                                  (mkdatetime 2023 1 2 9 0 0))
                         (mkdatetime 2023 1 2 9 0 0)) / 60
             / of_nat (List.length [mkdatetime 2023 1 2 9 40 0; mkdatetime 2023 1 2 9 10 0]))%Q.
Proof.
  apply (response_time_telescopes
           [at_minute 2023 1 2 9 0 (u "Alice") (u "a");
            at_minute 2023 1 2 9 40 (u "Bob") (u "b");
            at_minute 2023 1 2 9 10 (u "Alice") (u "c")]
           (mkdatetime 2023 1 2 9 0 0)
           [mkdatetime 2023 1 2 9 40 0; mkdatetime 2023 1 2 9 10 0]).
  - reflexivity.
  - discriminate.
Defined.

(** A record without a timestamp after one that has it makes the
    subtraction fail. *)
Lemma response_loop_missing ms : forall p acc,
  In None (map timestamp ms) -> response_loop (Some p) acc ms = Raise TypeError.
Proof.
  induction ms as [|m ms IH]; intros p acc H; [destruct H|].
  simpl. destruct (timestamp m) as [t|] eqn:E; [|reflexivity].
  apply IH. simpl in H. rewrite E in H. destruct H as [H|H]; [discriminate|assumption].
Qed.

(** ** Sentiment distribution, percentages and mean *)

Lemma bucket_eqb_eq a b : bucket_eqb a b = true <-> a = b.
Proof. destruct a, b; simpl; split; intros H; try reflexivity; discriminate. Qed.

Lemma sentiment_loop_polarities polarity_of ms : forall ps d,
  fst (sentiment_loop polarity_of ps d ms) = ps ++ map (fun m => polarity_of (message m)) ms.
Proof.
  induction ms as [|m ms IH]; intros ps d; simpl; [now rewrite app_nil_r|].
  rewrite IH. now rewrite <- app_assoc.
Qed.

Lemma sentiment_loop_counts polarity_of b ms : forall ps d,
  count_of bucket_eqb b (snd (sentiment_loop polarity_of ps d ms))
  = count_of bucket_eqb b d + count_if (falls_in polarity_of b) ms.
Proof.
  unfold count_if, falls_in. induction ms as [|m ms IH]; intros ps d; simpl; [lia|].
  rewrite IH. destruct (bucket_eqb b (classify (polarity_of (message m)))) eqn:E; simpl.
  - apply bucket_eqb_eq in E. rewrite <- E.
    rewrite (count_of_incr_same bucket_eqb bucket_eqb_eq). lia.
  - rewrite (count_of_incr_other bucket_eqb bucket_eqb_eq); [lia|].
    intros ->. rewrite (proj2 (bucket_eqb_eq _ _) eq_refl) in E. discriminate.
Qed.

Lemma sum_Q_app l1 l2 : (sum_Q (l1 ++ l2) == sum_Q l1 + sum_Q l2)%Q.
Proof.
  unfold sum_Q. induction l1 as [|x l1 IH]; simpl; [now rewrite Qplus_0_l|].
  rewrite IH. now rewrite Qplus_assoc.
Qed.

Lemma sum_Q_bounds lo hi l :
  Forall (fun x => lo <= x /\ x <= hi)%Q l ->
  (of_nat (List.length l) * lo <= sum_Q l /\ sum_Q l <= of_nat (List.length l) * hi)%Q.
Proof.
  unfold sum_Q, of_nat. induction 1 as [|x l [Hlo Hhi] _ [IHlo IHhi]].
  - simpl. split; rewrite Qmult_0_l; apply Qle_refl.
  - change (List.length (x :: l)) with (S (List.length l)).
    rewrite Nat2Z.inj_succ. unfold Z.succ. rewrite inject_Z_plus. simpl fold_right.
    change (inject_Z 1) with 1%Q.
    set (n := inject_Z (Z.of_nat (List.length l))) in *.
    set (s := fold_right Qplus 0%Q l) in *.
    split; nra.
Qed.

Lemma average_polarity_mean polarity_of ms :
  ms <> [] ->
  (average_polarity (sentiment_analysis polarity_of ms)
   == sum_Q (map (fun m => polarity_of (message m)) ms) / of_nat (List.length ms))%Q.
Proof.
  intros Hms.
  pose proof (sentiment_loop_polarities polarity_of ms [] no_counts) as Hps.
  unfold sentiment_analysis.
  destruct (sentiment_loop polarity_of [] no_counts ms) as [ps d]. simpl in Hps. subst ps.
  destruct ms as [|m ms]; [congruence|].
  cbn [List.length average_polarity]. unfold mean. rewrite length_map. reflexivity.
Qed.

Lemma to_double_equal (x y : Q) : (x == y)%Q -> to_double x = to_double y.
Proof. intros H. unfold to_double. now rewrite (Qred_complete x y H). Qed.

Lemma percentage_none total : total <> 0 -> percentage 0 total = 0%Q.
Proof.
  intros Ht. unfold percentage.
  rewrite (to_double_equal (of_nat 0 / of_nat total) 0).
  - reflexivity.
  - unfold of_nat. simpl. unfold Qdiv. now rewrite Qmult_0_l.
Qed.

Lemma percentage_all total : total <> 0 -> percentage total total = 100%Q.
Proof.
  intros Ht. unfold percentage.
  rewrite (to_double_equal (of_nat total / of_nat total) 1).
  - vm_compute. reflexivity.
  - apply Qmult_inv_r. now apply of_nat_nonzero.
Qed.

Lemma five_buckets (d : list (bucket * nat)) :
  map fst d = [TooNegative; Negative; Neutral; Positive; VeryPositive] ->
  d = map (fun b => (b, count_of bucket_eqb b d))
          [TooNegative; Negative; Neutral; Positive; VeryPositive].
Proof.
  intros H.
  destruct d as [|[b1 n1] [|[b2 n2] [|[b3 n3] [|[b4 n4] [|[b5 n5] [|? ?]]]]]];
    try discriminate.
  simpl in H. injection H as -> -> -> -> ->. reflexivity.
Qed.

(** [sentiment_analysis]: each bucket's count is the number of records
    whose polarity falls in that bucket; with no record the mean and all
    percentages are zero; otherwise the percentages are, in the order of
    the buckets, the counts over the number of records times 100, as
    doubles; that of a bucket without a record is 0 and that of a bucket
    with all the records is 100. *)
Theorem sentiment_analysis_correct polarity_of ms :
  (forall b, count_of bucket_eqb b (distribution (sentiment_analysis polarity_of ms))
             = count_if (falls_in polarity_of b) ms)
  /\ (ms = [] ->
      average_polarity (sentiment_analysis polarity_of ms) = 0%Q
      /\ percentages (sentiment_analysis polarity_of ms)
         = [(TooNegative, 0%Q); (Negative, 0%Q); (Neutral, 0%Q); (Positive, 0%Q);
            (VeryPositive, 0%Q)])
  /\ (ms <> [] ->
      percentages (sentiment_analysis polarity_of ms)
      = map (fun b => (b, percentage (count_if (falls_in polarity_of b) ms) (List.length ms)))
            [TooNegative; Negative; Neutral; Positive; VeryPositive]
      /\ forall b,
           (count_if (falls_in polarity_of b) ms = 0 ->
            percentage (count_if (falls_in polarity_of b) ms) (List.length ms) = 0%Q)
           /\ (count_if (falls_in polarity_of b) ms = List.length ms ->
               percentage (count_if (falls_in polarity_of b) ms) (List.length ms) = 100%Q)).
Proof.
  assert (Hcount : forall b,
            count_of bucket_eqb b (distribution (sentiment_analysis polarity_of ms))
            = count_if (falls_in polarity_of b) ms).
  { intros b. rewrite distribution_sentiment_analysis, sentiment_loop_counts.
    destruct b; reflexivity. }
  split; [exact Hcount|split].
  - intros ->. split; reflexivity.
  - intros Hms.
    assert (Hlen : List.length ms <> 0) by (destruct ms; [congruence|discriminate]).
    split.
    + rewrite <- (map_ext _ _ (fun b => f_equal (fun n => (b, percentage n (List.length ms)))
                                          (Hcount b))).
      pose proof (keys_sentiment_loop polarity_of ms [] no_counts eq_refl) as Hkeys.
      rewrite <- distribution_sentiment_analysis in Hkeys.
      apply five_buckets in Hkeys. revert Hkeys.
      unfold sentiment_analysis.
      destruct (sentiment_loop polarity_of [] no_counts ms) as [ps d].
      destruct (List.length ms) as [|n] eqn:El; [congruence|].
      cbn [percentages distribution]. intros Hd. rewrite Hd at 1.
      rewrite map_map. reflexivity.
    + intros b. split; intros ->.
      * now apply percentage_none.
      * now apply percentage_all.
Qed.

Lemma sentiment_analysis_correct_witness :
  percentages (sentiment_analysis (fun body => if has_link body then 1 else -1)%Q
                 [at_minute 2023 1 2 9 0 (u "Alice") (u "www.x.y");
                  at_minute 2023 1 2 9 5 (u "Bob") (u "no")])
  = [(TooNegative, 50%Q); (Negative, 0%Q); (Neutral, 0%Q); (Positive, 0%Q);
     (VeryPositive, 50%Q)].
Proof.
  refine (eq_trans
            (proj1 (proj2 (proj2 (sentiment_analysis_correct
                                    (fun body => if has_link body then 1 else -1)%Q
                                    [at_minute 2023 1 2 9 0 (u "Alice") (u "www.x.y");
                                     at_minute 2023 1 2 9 5 (u "Bob") (u "no")])) _)) _).
  - discriminate.
  - vm_compute. reflexivity.
Defined.

(** The percentages are rounded one by one and need not add up to 100:
    three records in three buckets give three times the double nearest to
    100/3. *)
Example thirds_do_not_add_up :
  ~ (sum_Q (map snd (percentages
                       (sentiment_analysis (fun body => of_nat (List.length body) - 1)%Q
                          [at_minute 2023 1 2 9 0 (u "Alice") (u "");
                           at_minute 2023 1 2 9 5 (u "Bob") (u "a");
                           at_minute 2023 1 2 9 7 (u "Alice") (u "ab")]))) == 100)%Q.
Proof. intros H. vm_compute in H. discriminate. Qed.

(** The mean polarity stays within the bounds of the scorer: if every
    score lies between -1 and 1, so does [average_polarity]. *)
Theorem average_polarity_bounded polarity_of ms :
  (forall m, In m ms -> -1 <= polarity_of (message m) /\ polarity_of (message m) <= 1)%Q ->
  (-1 <= average_polarity (sentiment_analysis polarity_of ms)
   /\ average_polarity (sentiment_analysis polarity_of ms) <= 1)%Q.
Proof.
  intros H. destruct ms as [|m0 ms0] eqn:Ems; [split; discriminate|]. rewrite <- Ems in *.
  assert (Hne : ms <> []) by (rewrite Ems; discriminate).
  rewrite (average_polarity_mean polarity_of ms Hne).
  assert (Hb : Forall (fun x => -1 <= x /\ x <= 1)%Q (map (fun m => polarity_of (message m)) ms)).
  { apply Forall_forall. intros x Hx. apply in_map_iff in Hx.
    destruct Hx as (m & <- & Hm). now apply H. }
  apply sum_Q_bounds in Hb. rewrite length_map in Hb. destruct Hb as [Hlo Hhi].
  assert (Hpos : (0 < of_nat (List.length ms))%Q).
  { unfold of_nat. change 0%Q with (inject_Z 0). rewrite <- Zlt_Qlt.
    rewrite Ems. simpl. lia. }
  split.
  - apply Qle_shift_div_l; [assumption|]. lra.
  - apply Qle_shift_div_r; [assumption|]. lra.
Qed.

Lemma average_polarity_bounded_witness :
  (-1 <= average_polarity
           (sentiment_analysis (fun body => if has_link body then 1 else -1)%Q
              [at_minute 2023 1 2 9 0 (u "Alice") (u "www.x.y");
               at_minute 2023 1 2 9 5 (u "Bob") (u "no")])
   /\ average_polarity
        (sentiment_analysis (fun body => if has_link body then 1 else -1)%Q
           [at_minute 2023 1 2 9 0 (u "Alice") (u "www.x.y");
            at_minute 2023 1 2 9 5 (u "Bob") (u "no")]) <= 1)%Q.
Proof.
  apply (average_polarity_bounded (fun body => if has_link body then 1 else -1)%Q
           [at_minute 2023 1 2 9 0 (u "Alice") (u "www.x.y");
            at_minute 2023 1 2 9 5 (u "Bob") (u "no")]).
  intros m Hm. destruct (has_link (message m)); split; discriminate.
Defined.

(** * What the matcher finds *)

Lemma one_sound p pos s g k res :
  one p pos s g k = Some res ->
  exists c s', s = c :: s' /\ p c = true /\ k (S pos) s' g = Some res.
Proof.
  unfold one. destruct s as [|c s']; [discriminate|].
  destruct (p c) eqn:E; [|discriminate]. intros H. exists c, s'. auto.
Qed.

Lemma iter_app P n : forall m pos w1 w2 g g1 g2,
  iter P n pos w1 g g1 -> iter P m (pos + List.length w1) w2 g1 g2 ->
  iter P (n + m) pos (w1 ++ w2) g g2.
Proof.
  induction n as [|n IH]; intros m pos w1 w2 g g1 g2 H1 H2.
  - inversion H1; subst. simpl in *. now rewrite Nat.add_0_r in H2.
  - inversion H1 as [|? ? u1 u2 ? gm ? Hu Hrest]; subst.
    rewrite <- app_assoc. simpl. econstructor; [eassumption|].
    eapply IH; [eassumption|]. now rewrite length_app, Nat.add_assoc in H2.
Qed.

Section Sound.

Variable P : nat -> str -> captures -> captures -> Prop.
Variable body : matcher.
Hypothesis body_sound : forall pos s g k res,
  body pos s g k = Some res ->
  exists w s' g', s = w ++ s' /\ P pos w g g' /\ k (pos + List.length w) s' g' = Some res.

Lemma times_sound n : forall pos s g k res,
  times n body pos s g k = Some res ->
  exists w s' g',
    s = w ++ s' /\ iter P n pos w g g' /\ k (pos + List.length w) s' g' = Some res.
Proof.
  induction n as [|n IH]; intros pos s g k res H; simpl in H.
  - exists [], s, g. rewrite Nat.add_0_r. repeat split; [constructor|assumption].
  - apply body_sound in H. destruct H as (w1 & s1 & g1 & -> & HP & H).
    apply IH in H. destruct H as (w2 & s2 & g2 & -> & Hit & H).
    exists (w1 ++ w2), s2, g2. rewrite <- app_assoc. split; [reflexivity|].
    split; [econstructor; eassumption|]. now rewrite length_app, Nat.add_assoc.
Qed.

Lemma upto_sound n greedy : forall pos s g k res,
  upto n greedy body pos s g k = Some res ->
  exists m w s' g',
    m <= n /\ s = w ++ s' /\ iter P m pos w g g'
    /\ k (pos + List.length w) s' g' = Some res.
Proof.
  induction n as [|n IH]; intros pos s g k res H; simpl in H.
  - exists 0, [], s, g. rewrite Nat.add_0_r.
    split; [lia|]. split; [reflexivity|]. split; [constructor|assumption].
  - assert (Hstop : k pos s g = Some res ->
                    exists m w s' g', m <= S n /\ s = w ++ s' /\ iter P m pos w g g'
                                      /\ k (pos + List.length w) s' g' = Some res).
    { intros Hk. exists 0, [], s, g. rewrite Nat.add_0_r.
      split; [lia|]. split; [reflexivity|]. split; [constructor|assumption]. }
    assert (Hgo : body pos s g (fun pos' s' g' => upto n greedy body pos' s' g' k) = Some res ->
                  exists m w s' g', m <= S n /\ s = w ++ s' /\ iter P m pos w g g'
                                    /\ k (pos + List.length w) s' g' = Some res).
    { intros Hb. apply body_sound in Hb. destruct Hb as (w1 & s1 & g1 & -> & HP & Hb).
      apply IH in Hb. destruct Hb as (m & w2 & s2 & g2 & Hm & -> & Hit & Hb).
      exists (S m), (w1 ++ w2), s2, g2. rewrite <- app_assoc.
      split; [lia|]. split; [reflexivity|]. split; [econstructor; eassumption|].
      now rewrite length_app, Nat.add_assoc. }
    destruct greedy.
    + destruct (body pos s g _) as [r|] eqn:Eb; [injection H as ->; now apply Hgo|].
      now apply Hstop.
    + destruct (k pos s g) as [r|] eqn:Ek; [injection H as ->; now apply Hstop|].
      now apply Hgo.
Qed.

End Sound.

(** Whatever the matcher returns comes from a match of the pattern,
    followed by a successful continuation. *)
Lemma run_sound ic r : forall pos s g k res,
  run ic r pos s g k = Some res ->
  exists w s' g',
    s = w ++ s' /\ denote ic r pos w g g' /\ k (pos + List.length w) s' g' = Some res.
Proof.
  induction r as [|a|items| | |r1 IH1 r2 IH2|r1 IH1 r2 IH2|r' IH lo hi greedy|name r' IH];
    intros pos s g k res H; simpl in H.
  - exists [], s, g. rewrite Nat.add_0_r. simpl. auto.
  - apply one_sound in H. destruct H as (c & s' & -> & Hc & H).
    exists [c], s', g. simpl. rewrite Nat.add_1_r. eauto 7.
  - apply one_sound in H. destruct H as (c & s' & -> & Hc & H).
    exists [c], s', g. simpl. rewrite Nat.add_1_r. eauto 7.
  - apply one_sound in H. destruct H as (c & s' & -> & Hc & H).
    exists [c], s', g. simpl. rewrite Nat.add_1_r. apply negb_true_iff, N.eqb_neq in Hc.
    eauto 7.
  - destruct (Nat.eqb pos 0) eqn:E; [|discriminate]. apply Nat.eqb_eq in E.
    exists [], s, g. rewrite Nat.add_0_r. simpl. auto.
  - apply IH1 in H. destruct H as (w1 & s1 & g1 & -> & H1 & H).
    apply IH2 in H. destruct H as (w2 & s2 & g2 & -> & H2 & H).
    exists (w1 ++ w2), s2, g2. rewrite <- app_assoc. split; [reflexivity|].
    split; [simpl; eauto 7|]. now rewrite length_app, Nat.add_assoc.
  - destruct (run ic r1 pos s g k) as [x|] eqn:E.
    + injection H as ->. apply IH1 in E. destruct E as (w & s' & g' & -> & Hd & Hk).
      exists w, s', g'. simpl. auto.
    + apply IH2 in H. destruct H as (w & s' & g' & -> & Hd & Hk).
      exists w, s', g'. simpl. auto.
  - apply (times_sound (denote ic r') (run ic r') IH) in H.
    destruct H as (w1 & s1 & g1 & -> & Hit1 & H).
    apply (upto_sound (denote ic r') (run ic r') IH) in H.
    destruct H as (m & w2 & s2 & g2 & Hm & -> & Hit2 & H).
    exists (w1 ++ w2), s2, g2. rewrite <- app_assoc. split; [reflexivity|]. split.
    + simpl. exists (lo + m). split; [lia|]. split.
      * destruct hi as [h|]; [lia|exact I].
      * eapply iter_app; eassumption.
    + now rewrite length_app, Nat.add_assoc.
  - apply IH in H. destruct H as (w & s' & g' & -> & Hd & H).
    exists w, s', ((name, w) :: g'). split; [reflexivity|]. split.
    + simpl. eauto.
    + replace (pos + List.length w - pos) with (List.length w) in H by lia.
      now rewrite firstn_app, firstn_all, Nat.sub_diag, app_nil_r in H.
Qed.

(** ** Exactly which lines are system notifications *)

Lemma search_sound ic r s : forall pos res,
  search_from ic r pos s = Some res ->
  exists pre s', s = pre ++ s' /\ run ic r (pos + List.length pre) s' [] accept = Some res.
Proof.
  induction s as [|c s IH]; intros pos res H; simpl in H.
  - destruct (run ic r pos [] [] accept) eqn:E; [|discriminate].
    injection H as ->. exists [], []. now rewrite Nat.add_0_r.
  - destruct (run ic r pos (c :: s) [] accept) eqn:E.
    + injection H as ->. exists [], (c :: s). now rewrite Nat.add_0_r.
    + apply IH in H. destruct H as (pre & s' & -> & H).
      exists (c :: pre), s'. split; [reflexivity|].
      simpl. now replace (pos + S (List.length pre)) with (S pos + List.length pre) by lia.
Qed.

Lemma iter_any ic n pos w g g' :
  iter (denote ic Any) n pos w g g' ->
  Forall (fun c => c <> newline) w /\ g' = g /\ List.length w = n.
Proof.
  induction 1 as [|n pos w1 w2 g g1 g2 (c & -> & Hc & ->) _ (IHw & IHg & IHn)].
  - auto.
  - repeat split; [now constructor|assumption|simpl; now rewrite IHn].
Qed.

Lemma star_any_sound ic greedy pos s g k res :
  run ic (Rep Any 0 None greedy) pos s g k = Some res ->
  exists w s',
    s = w ++ s' /\ Forall (fun c => c <> newline) w
    /\ k (pos + List.length w) s' g = Some res.
Proof.
  intros H. apply run_sound in H. destruct H as (w & s' & g' & -> & (n & _ & _ & Hit) & H).
  apply iter_any in Hit. destruct Hit as (Hw & -> & _). eauto.
Qed.

Lemma word_sound p : forall pos s g k res,
  run true (word p) pos s g k = Some res ->
  exists mid rest,
    s = mid ++ rest /\ Forall2 same_class mid p
    /\ k (pos + List.length mid) rest g = Some res.
Proof.
  unfold word. induction p as [|a p IH]; intros pos s g k res H.
  - exists [], s. rewrite Nat.add_0_r. simpl in H. auto.
  - change (map Lit (a :: p)) with (Lit a :: map Lit p) in H. rewrite run_cat_cons in H.
    simpl in H. apply one_sound in H. destruct H as (c & s' & -> & Hc & H).
    apply IH in H. destruct H as (mid & rest & -> & Hmid & H).
    exists (c :: mid), rest. split; [reflexivity|]. split.
    + constructor; [|assumption]. unfold same_class. unfold lit_match in Hc.
      apply N.eqb_eq in Hc. congruence.
    + simpl. now replace (pos + S (List.length mid)) with (S pos + List.length mid) by lia.
Qed.

Lemma notice_sound n line :
  truthy (re_search true (notice_pattern n) line) = true -> shows n line.
Proof.
  unfold re_search. destruct (search_from true (notice_pattern n) 0 line) as [res|] eqn:H;
    [intros _|discriminate].
  apply search_sound in H. destruct H as (pre & s & -> & H).
  destruct n as [p | p1 p2]; unfold notice_pattern in H; rewrite run_cat_cons in H;
    apply star_any_sound in H; destruct H as (w0 & s0 & -> & _ & H);
    rewrite run_cat_cons in H; apply word_sound in H;
    destruct H as (m1 & s1 & -> & Hm1 & H).
  - exists (pre ++ w0), m1, s1. split; [now rewrite <- app_assoc|assumption].
  - rewrite run_cat_cons in H. apply star_any_sound in H.
    destruct H as (gap & s2 & -> & Hgap & H).
    rewrite run_cat_cons in H. apply word_sound in H.
    destruct H as (m2 & s3 & -> & Hm2 & H).
    exists (pre ++ w0), m1, gap, m2, s3. split; [now rewrite <- !app_assoc|]. auto.
Qed.

(** [is_system_message] holds exactly for the lines that show one of the
    eleven phrases, each character in the case class of the character of
    the phrase: nothing else is filtered. *)
Theorem is_system_message_iff line :
  is_system_message line = true <-> exists n, In n system_phrases /\ shows n line.
Proof.
  split.
  - unfold is_system_message, system_patterns. intros H.
    apply existsb_exists in H. destruct H as (p & Hp & Hfound).
    apply in_map_iff in Hp. destruct Hp as (n & <- & Hn).
    exists n. split; [assumption|now apply notice_sound].
  - intros (n & Hn & Hocc). now apply (is_system_message_shows n).
Qed.

(** ** The shape of a matched header *)

Lemma chat_pattern_split pos s g k :
  run false chat_pattern pos s g k
  = run false header_front pos s g
      (fun p1 s1 g1 =>
         run false (Group "4" (LazyStar Any)) p1 s1 g1
           (fun p2 s2 g2 => run false header_tail p2 s2 g2 k)).
Proof. reflexivity. Qed.

Lemma iter_no_groups P n pos w g g' :
  (forall pos w g g', P pos w g g' -> g' = g) -> iter P n pos w g g' -> g' = g.
Proof.
  intros HP. induction 1 as [|n pos w1 w2 g g1 g2 H1 _ IH]; [reflexivity|].
  apply HP in H1. congruence.
Qed.

Lemma no_groups_sound ic r : forall pos w g g',
  no_groups r = true -> denote ic r pos w g g' -> g' = g.
Proof.
  induction r as [|a|items| | |r1 IH1 r2 IH2|r1 IH1 r2 IH2|r' IH lo hi greedy|name r' IH];
    intros pos w g g' Hn H; simpl in *; try discriminate.
  - now destruct H.
  - now destruct H as (c & _ & _ & ->).
  - now destruct H as (c & _ & _ & ->).
  - now destruct H as (c & _ & _ & ->).
  - now destruct H as (_ & _ & ->).
  - apply andb_true_iff in Hn. destruct Hn as [Hn1 Hn2].
    destruct H as (w1 & w2 & g1 & _ & H1 & H2).
    apply IH1 in H1; [|assumption]. apply IH2 in H2; [|assumption]. congruence.
  - apply andb_true_iff in Hn. destruct Hn as [Hn1 Hn2].
    destruct H as [H|H]; [now apply IH1 in H|now apply IH2 in H].
  - destruct H as (n & _ & _ & Hit). eapply iter_no_groups; [|eassumption].
    intros. eapply IH; eassumption.
Qed.

Lemma opt_cases ic r pos w g g' :
  denote ic (Opt r) pos w g g' -> (w = [] /\ g' = g) \/ denote ic r pos w g g'.
Proof.
  unfold Opt. simpl. intros (n & _ & Hn & Hit).
  destruct n as [|[|n]]; [|  |lia].
  - inversion Hit; subst. now left.
  - inversion Hit as [|? ? w1 w2 ? g1 ? H1 H2]; subst. inversion H2; subst.
    rewrite app_nil_r. now right.
Qed.

Lemma header_date_shape pos w g g' :
  denote false header_date pos w g g' -> w <> [] /\ g' = ("1"%string, w) :: g.
Proof.
  unfold header_date. intros (g1 & H & ->).
  assert (Hg : g1 = g) by (eapply no_groups_sound; [|eassumption]; reflexivity).
  subst g1. split; [|reflexivity].
  cbn [cat denote] in H. destruct H as (w1 & w2 & g2 & -> & (n & Hn & _ & Hit) & _).
  destruct n as [|n]; [lia|].
  inversion Hit as [|? ? u1 u2 ? ? ? (c & -> & _) _]; subst. discriminate.
Qed.

Ltac same_captures H :=
  first [ apply no_groups_sound in H; [|reflexivity]
        | destruct H as (? & _ & _ & H) ].

Lemma header_time_shape pos w g g' :
  denote false header_time pos w g g' ->
  g' = ("2"%string, w) :: g \/ exists w3, g' = ("2"%string, w) :: ("3"%string, w3) :: g.
Proof.
  unfold header_time. intros (g1 & H & ->). cbn [cat denote] in H.
  destruct H as (w1 & w2 & ga & -> & Ha & wb & w3 & gb & -> & Hb & wc & wd & gc & -> & Hc & Hd).
  same_captures Ha. same_captures Hb. same_captures Hc. subst.
  apply opt_cases in Hd. destruct Hd as [[-> ->] | (g3 & H3 & ->)]; [now left|].
  same_captures H3. subst. right. eauto.
Qed.

Lemma header_front_shape w g1 :
  denote false header_front 0 w [] g1 ->
  exists date mid,
    w = date ++ mid /\ date <> [] /\ group g1 "1" = Some date
    /\ forall x y, group (("5"%string, x) :: ("4"%string, y) :: g1) "1" = Some date.
Proof.
  unfold header_front. cbn [cat denote].
  intros (w0 & r0 & g0 & -> & (_ & -> & ->)
          & wd & rd & gd & -> & Hdate
          & wc & rc & gc & -> & Hcomma
          & ws & rs & gs & -> & Hsp1
          & wt & rt & gt & -> & Htime
          & wu & ru & gu & -> & Hsp2
          & wv & rv & gv & -> & Hdash & Hsp3).
  apply header_date_shape in Hdate. destruct Hdate as [Hne ->].
  same_captures Hcomma. same_captures Hsp1. same_captures Hsp2. same_captures Hdash.
  same_captures Hsp3. subst.
  exists wd, (wc ++ ws ++ wt ++ wu ++ wv ++ rv).
  split; [reflexivity|]. split; [assumption|].
  apply opt_cases in Htime. destruct Htime as [[-> ->] | Htime].
  - split; [reflexivity|]. intros; reflexivity.
  - apply header_time_shape in Htime. destruct Htime as [-> | [w3 ->]];
      (split; [reflexivity|]; intros; reflexivity).
Qed.

(** A lazy [.*?] stops at the first place where what follows succeeds. *)
Lemma lazy_any_first ic n : forall pos s g K res,
  upto n false (run ic Any) pos s g K = Some res ->
  exists w s',
    s = w ++ s' /\ Forall (fun c => c <> newline) w
    /\ K (pos + List.length w) s' g = Some res
    /\ forall w1 c w2, w = w1 ++ c :: w2 -> K (pos + List.length w1) (c :: w2 ++ s') g = None.
Proof.
  induction n as [|n IH]; intros pos s g K res H; simpl in H.
  - exists [], s. rewrite Nat.add_0_r. repeat split; [constructor|assumption|].
    intros [|x w1] y w2 Hw; discriminate.
  - destruct (K pos s g) as [r|] eqn:EK.
    + injection H as ->. exists [], s. rewrite Nat.add_0_r.
      repeat split; [constructor|assumption|]. intros [|x w1] y w2 Hw; discriminate.
    + apply one_sound in H. destruct H as (c & s1 & -> & Hc & H).
      apply negb_true_iff, N.eqb_neq in Hc.
      apply IH in H. destruct H as (w & s' & -> & Hw & HK & Hmin).
      exists (c :: w), s'. split; [reflexivity|]. split; [now constructor|]. split.
      * simpl. now replace (pos + S (List.length w)) with (S pos + List.length w) by lia.
      * intros [|x w1] y w2 Heq; simpl in Heq; injection Heq as -> ->.
        -- simpl. now rewrite Nat.add_0_r.
        -- simpl. replace (pos + S (List.length w1)) with (S pos + List.length w1) by lia.
           now apply Hmin.
Qed.

Lemma first_line_split s :
  exists rest,
    s = first_line s ++ rest /\ Forall (fun c => c <> newline) (first_line s)
    /\ (rest = [] \/ exists t, rest = newline :: t).
Proof.
  induction s as [|c s (rest & Hs & Hf & Hr)]; simpl.
  - exists []. repeat split; auto.
  - destruct (N.eqb c newline) eqn:E.
    + apply N.eqb_eq in E. subst c. exists (newline :: s). repeat split; eauto.
    + apply N.eqb_neq in E. exists rest. simpl. rewrite <- Hs.
      repeat split; [now constructor|assumption].
Qed.

Lemma first_line_all s : Forall (fun c => c <> newline) s -> first_line s = s.
Proof.
  induction 1 as [|c s Hc _ IH]; simpl; [reflexivity|].
  apply N.eqb_neq in Hc. now rewrite Hc, IH.
Qed.

(** A greedy [.*] followed by something that cannot fail takes the whole
    first line. *)
Lemma greedy_any_line ic s : forall n pos g K,
  List.length s <= n ->
  (forall p t h, K p t h <> None) ->
  upto n true (run ic Any) pos s g K
  = K (pos + List.length (first_line s)) (skipn (List.length (first_line s)) s) g.
Proof.
  induction s as [|c s IH]; intros n pos g K Hn HK.
  - simpl. rewrite Nat.add_0_r. destruct n; reflexivity.
  - destruct n as [|n]; simpl in Hn; [lia|].
    rewrite upto_greedy_step. simpl first_line. destruct (N.eqb c newline) eqn:E.
    + simpl. unfold one. rewrite E. simpl. now rewrite Nat.add_0_r.
    + rewrite run_any_cons by (now apply N.eqb_neq).
      rewrite IH by (assumption || lia).
      cbn [List.length skipn].
      replace (pos + S (List.length (first_line s)))
        with (S pos + List.length (first_line s)) by lia.
      destruct (K (S pos + List.length (first_line s))
                  (skipn (List.length (first_line s)) s) g) eqn:EK; [reflexivity|].
      exfalso. eapply HK; eassumption.
Qed.

Lemma firstn_first_line s : firstn (List.length (first_line s)) s = first_line s.
Proof.
  induction s as [|c s IH]; simpl; [reflexivity|].
  destruct (N.eqb c newline); simpl; [reflexivity|]. now rewrite IH.
Qed.

Lemma body_group_run pos s g :
  run false (Group "5" (Star Any)) pos s g accept
  = Some (pos + List.length (first_line s), ("5"%string, first_line s) :: g).
Proof.
  change (run false (Group "5" (Star Any)) pos s g accept)
    with (upto (List.length s) true (run false Any) pos s g
            (fun pos' s' g' => accept pos' s' (("5"%string, firstn (pos' - pos) s) :: g'))).
  rewrite greedy_any_line; [|lia|discriminate].
  unfold accept. replace (pos + List.length (first_line s) - pos)
    with (List.length (first_line s)) by lia.
  now rewrite firstn_first_line.
Qed.

Lemma run_lit_cons ic a c s pos g k :
  run ic (Lit a) pos (c :: s) g k = if lit_match ic a c then k (S pos) s g else None.
Proof. reflexivity. Qed.

Lemma run_space_cons ic c s pos g k :
  run ic Space pos (c :: s) g k = if isspace c then k (S pos) s g else None.
Proof. cbn [run Space one existsb item_match]. now rewrite orb_false_r. Qed.

Lemma header_tail_run pos s g :
  run false header_tail pos s g accept
  = match s with
    | c :: sp :: after =>
        if (N.eqb colon c && isspace sp)%bool
        then Some (S (S pos) + List.length (first_line after),
                   ("5"%string, first_line after) :: g)
        else None
    | _ => None
    end.
Proof.
  unfold header_tail. rewrite run_cat_cons.
  destruct s as [|c s]; [reflexivity|].
  rewrite run_lit_cons. unfold lit_match. change (chr ":") with colon.
  destruct (N.eqb colon c); [|destruct s as [|sp after]; reflexivity].
  rewrite run_cat_cons. destruct s as [|sp after]; [reflexivity|].
  rewrite run_space_cons. destruct (isspace sp); [|reflexivity].
  change (cat [Group "5" (Star Any)]) with (Group "5" (Star Any)).
  apply body_group_run.
Qed.

Lemma sender_group_run pos s g k :
  run false (Group "4" (LazyStar Any)) pos s g k
  = upto (List.length s) false (run false Any) pos s g
      (fun pos' s' g' => k pos' s' (("4"%string, firstn (pos' - pos) s) :: g')).
Proof. reflexivity. Qed.

Lemma firstn_consumed (a : nat) (w x : str) : firstn (a + List.length w - a) (w ++ x) = w.
Proof.
  replace (a + List.length w - a) with (List.length w) by lia.
  now rewrite firstn_app, firstn_all, Nat.sub_diag, app_nil_r.
Qed.

Lemma header_shape line stop g :
  re_match false chat_pattern line = Some (stop, g) ->
  exists date mid sender sp after,
    line = date ++ mid ++ sender ++ colon :: sp :: after
    /\ date <> []
    /\ isspace sp = true
    /\ group g "1" = Some date
    /\ group g "4" = Some sender
    /\ group g "5" = Some (first_line after)
    /\ Forall (fun c => c <> newline) sender
    /\ no_colon_space sender.
Proof.
  unfold re_match. rewrite chat_pattern_split. intros H.
  apply run_sound in H. destruct H as (w & s1 & g1 & -> & Hfront & H).
  apply header_front_shape in Hfront. destruct Hfront as (date & mid & -> & Hne & _ & Hg1).
  rewrite sender_group_run in H.
  apply lazy_any_first in H. destruct H as (sender & s2 & -> & Hsender & H & Hmin).
  rewrite header_tail_run in H.
  destruct s2 as [|c [|sp after]]; try discriminate.
  destruct (N.eqb colon c) eqn:Ec; [|discriminate]. apply N.eqb_eq in Ec. subst c.
  destruct (isspace sp) eqn:Esp; [|discriminate]. cbn [andb] in H. injection H as <- <-.
  rewrite firstn_consumed.
  exists date, mid, sender, sp, after. rewrite <- app_assoc.
  repeat split; try assumption; try reflexivity.
  - apply Hg1.
  - intros w1 w2 Hw. specialize (Hmin w1 colon w2 Hw). rewrite header_tail_run in Hmin.
    destruct (w2 ++ colon :: sp :: after) as [|c t] eqn:Et.
    { destruct w2; discriminate. }
    assert (Hhead : exists t', w2 ++ [colon] = c :: t').
    { destruct w2 as [|x w2]; simpl in *; injection Et as -> _; eauto. }
    destruct Hhead as [t' Ht']. exists c, t'. split; [assumption|].
    rewrite N.eqb_refl in Hmin. simpl in Hmin.
    destruct (isspace c); [discriminate|reflexivity].
Qed.

(** The shape of every line that [chat_pattern] matches: a date, the rest
    of the header, the sender, a colon, one white-space character and the
    body.  The sender is the text up to the first colon that is followed
    by white space; the body is the rest of the line, up to a line break
    if there is one. *)
Theorem header_match_shape line stop g :
  re_match false chat_pattern line = Some (stop, g) ->
  exists date mid sender sp body rest,
    line = date ++ mid ++ sender ++ colon :: sp :: body ++ rest
    /\ date <> []
    /\ isspace sp = true
    /\ group g "1" = Some date
    /\ group g "4" = Some sender
    /\ group g "5" = Some body
    /\ Forall (fun c => c <> newline) sender
    /\ no_colon_space sender
    /\ Forall (fun c => c <> newline) body
    /\ (rest = [] \/ exists t, rest = newline :: t).
Proof.
  intros H. destruct (header_shape _ _ _ H)
    as (date & mid & sender & sp & after & Hline & Hne & Hsp & H1 & H4 & H5 & Hs & Hc).
  destruct (first_line_split after) as (rest & Hafter & Hbody & Hrest).
  exists date, mid, sender, sp, (first_line after), rest.
  rewrite <- Hafter. repeat split; assumption.
Qed.

Lemma header_match_shape_witness :
  exists stop g,
    re_match false chat_pattern (u "1/2/23, 9:00 AM - Alice: see: this") = Some (stop, g)
    /\ exists date mid sender sp body rest,
         u "1/2/23, 9:00 AM - Alice: see: this"
         = date ++ mid ++ sender ++ colon :: sp :: body ++ rest
         /\ date <> []
         /\ isspace sp = true
         /\ group g "1" = Some date
         /\ group g "4" = Some sender
         /\ group g "5" = Some body
         /\ Forall (fun c => c <> newline) sender
         /\ no_colon_space sender
         /\ Forall (fun c => c <> newline) body
         /\ (rest = [] \/ exists t, rest = newline :: t).
Proof.
  eexists. eexists. split; [vm_compute; reflexivity|].
  eapply (header_match_shape (u "1/2/23, 9:00 AM - Alice: see: this")).
  vm_compute. reflexivity.
Defined.

(** ** What a line can print *)

Lemma line_events_cases raw :
  line_events raw = []
  \/ exists s,
       header_datetime raw = Some s
       /\ line_record raw = None
       /\ parse_datetime s = Raise (ValueError (UnknownFormat (normalize s)))
       /\ line_events raw = [SkippedFormatError (strip raw) (UnknownFormat (normalize s))].
Proof.
  destruct (is_system_message (strip raw)) eqn:Hsys.
  { left. exact (proj2 (system_line _ Hsys)). }
  destruct (re_match false chat_pattern (strip raw)) as [[stop g]|] eqn:Hm.
  2: { left. exact (proj2 (unmatched_line _ Hm)). }
  destruct (header_shape _ _ _ Hm) as (date & mid & sender & sp & after & _ & Hne & _ & Hd & _).
  destruct date as [|c date]; [congruence|].
  assert (Hs : header_datetime raw
               = Some ((c :: date) ++ [space] ++ or_else (group g "2") (u "00:00"))).
  { unfold header_datetime. now rewrite Hm, Hd. }
  destruct (parse_datetime_outcome c (date ++ [space] ++ or_else (group g "2") (u "00:00")))
    as [[t Ht] | Ht].
  - left. unfold line_events, process_line. rewrite Hsys, Hm, Hd.
    change ((c :: date) ++ [space] ++ or_else (group g "2") (u "00:00"))
      with (c :: date ++ [space] ++ or_else (group g "2") (u "00:00")).
    now rewrite Ht.
  - right. eexists. split; [exact Hs|].
    destruct (bad_timestamp_line raw _ _ Hs Ht) as (Hnone & v & Hv & Hev).
    injection Hv as <-. split; [assumption|]. split; [exact Ht|]. now apply Hev.
Qed.

Lemma one_per_line lines :
  List.length (records lines) + List.length (diagnostics lines) <= List.length lines.
Proof.
  unfold records, diagnostics. induction lines as [|raw lines IH]; simpl; [lia|].
  rewrite !length_app.
  destruct (line_events_cases raw) as [He | (s & _ & Hr & _ & He)]; rewrite He.
  - destruct (line_record raw); simpl; lia.
  - rewrite Hr. simpl. lia.
Qed.

(** Everything the parser prints is a format error of one input line,
    naming the normalised date and time that no layout matched; the
    "missing date" message is never printed; and a line gives a record or a
    message or nothing, never two of them. *)
Theorem diagnostics_are_format_errors E w lines :
  fst (parse_whatsapp_chat E w lines) = w ++ diagnostics lines
  /\ (forall e, In e (diagnostics lines) ->
        exists raw s,
          In raw lines
          /\ header_datetime raw = Some s
          /\ e = SkippedFormatError (strip raw) (UnknownFormat (normalize s))
          /\ line_record raw = None
          /\ Forall (fun fmt => exists v, strptime (normalize s) fmt = Raise v) formats)
  /\ List.length (records lines) + List.length (diagnostics lines) <= List.length lines.
Proof.
  split; [apply parse_output|]. split; [|apply one_per_line].
  intros e He. unfold diagnostics in He. apply in_flat_map in He.
  destruct He as (raw & Hraw & He).
  destruct (line_events_cases raw) as [Hnil | (s & Hs & Hr & Hp & Hev)].
  - rewrite Hnil in He. destruct He.
  - rewrite Hev in He. destruct He as [<-|[]].
    exists raw, s. repeat split; try assumption.
    assert (Hs' : s <> []).
    { unfold header_datetime in Hs.
      destruct (re_match false chat_pattern (strip raw)) as [[stop g]|]; [|discriminate].
      destruct (group g "1") as [[|c d]|]; try discriminate. injection Hs as <-. discriminate. }
    destruct s as [|c s]; [congruence|]. unfold parse_datetime in Hp.
    clear -Hp. revert Hp. generalize (normalize (c :: s)) at 1 3 as d.
    generalize (UnknownFormat (normalize (c :: s))) as v. intros v d.
    induction formats as [|f fs IH]; simpl; intros H; [constructor|].
    destruct (strptime d f) as [t|e] eqn:Hf; [discriminate|].
    constructor; [eauto|].
    destruct (strptime_raises_value_error _ _ _ Hf) as [v' ->]. now apply IH.
Qed.

(** ** What a record takes from its line *)

(** The sender and the body of a record are cut out of its own line: the
    stripped line is a date, the rest of the header, the sender, a colon,
    one white-space character and then the body.  The sender has no colon
    followed by white space, and the body runs to the end of the line. *)
Theorem record_fields_from_line raw m :
  line_record raw = Some m ->
  exists date mid sp after,
    strip raw = date ++ mid ++ user m ++ colon :: sp :: after
    /\ date <> []
    /\ isspace sp = true
    /\ message m = first_line after
    /\ Forall (fun c => c <> newline) (user m)
    /\ no_colon_space (user m)
    /\ (Forall (fun c => c <> newline) (strip raw) -> message m = after).
Proof.
  intros H. destruct (line_record_inv _ _ H) as (_ & s & t & _ & _ & _ & Hu & Hb).
  unfold header_sender, header_body in *.
  destruct (re_match false chat_pattern (strip raw)) as [[stop g]|] eqn:Hm; [|discriminate].
  destruct (header_shape _ _ _ Hm)
    as (date & mid & sender & sp & after & Hline & Hne & Hsp & _ & H4 & H5 & Hs & Hc).
  rewrite H4 in Hu. rewrite H5 in Hb. simpl in Hu, Hb.
  injection Hu as Hu. injection Hb as Hb. subst sender.
  exists date, mid, sp, after. repeat split; try assumption; try (now symmetry).
  intros Hnl. rewrite <- Hb. apply first_line_all.
  rewrite Hline in Hnl. rewrite !Forall_app in Hnl.
  destruct Hnl as (_ & _ & _ & Hnl). inversion Hnl as [|? ? _ Hnl']; subst.
  now inversion Hnl'.
Qed.

Lemma record_fields_from_line_witness :
  exists date mid sp after,
    strip (nl "1/2/23, 9:00 AM - Alice: see: this") 
    = date ++ mid ++ user (at_minute 2023 2 1 9 0 (u "Alice") (u "see: this"))
        ++ colon :: sp :: after
    /\ date <> []
    /\ isspace sp = true
    /\ message (at_minute 2023 2 1 9 0 (u "Alice") (u "see: this")) = first_line after
    /\ Forall (fun c => c <> newline)
              (user (at_minute 2023 2 1 9 0 (u "Alice") (u "see: this")))
    /\ no_colon_space (user (at_minute 2023 2 1 9 0 (u "Alice") (u "see: this")))
    /\ (Forall (fun c => c <> newline) (strip (nl "1/2/23, 9:00 AM - Alice: see: this")) ->
        message (at_minute 2023 2 1 9 0 (u "Alice") (u "see: this")) = after).
Proof.
  apply (record_fields_from_line (nl "1/2/23, 9:00 AM - Alice: see: this")
           (at_minute 2023 2 1 9 0 (u "Alice") (u "see: this"))).
  vm_compute. reflexivity.
Defined.

(** ** Timestamps of the records *)

(** The list of timestamps runs parallel to the list of records, and
    every timestamp is a well-formed calendar date and time of day with
    zero seconds. *)
Theorem timestamps_are_valid E w lines cd :
  snd (parse_whatsapp_chat E w lines) = Ok cd ->
  cd_timestamps cd = map timestamp (cd_messages cd)
  /\ forall m, In m (cd_messages cd) ->
       exists t, timestamp m = Some t /\ valid_datetime t = true /\ second t = 0%Z.
Proof.
  intros H. destruct (parse_returns _ _ _ _ H) as (Hm & Ht & _).
  split; [now rewrite Ht, Hm|]. rewrite Hm. intros m Hin.
  destruct (in_records _ _ Hin) as (raw & _ & Hrec).
  destruct (line_record_inv _ _ Hrec) as (_ & s & t & _ & Hp & Hts & _).
  exists t. split; [assumption|].
  destruct s as [|c s]; [discriminate Hp|]. unfold parse_datetime in Hp.
  eapply try_formats_valid; eassumption.
Qed.

Lemma timestamps_are_valid_witness :
  exists cd,
    snd (parse_whatsapp_chat no_emoji [] dotted_date_chat) = Ok cd
    /\ cd_timestamps cd = map timestamp (cd_messages cd)
    /\ forall m, In m (cd_messages cd) ->
         exists t, timestamp m = Some t /\ valid_datetime t = true /\ second t = 0%Z.
Proof.
  eexists. split; [vm_compute; reflexivity|].
  apply (timestamps_are_valid no_emoji [] dotted_date_chat).
  vm_compute. reflexivity.
Defined.

(** ** Parsing two files in a row *)

Lemma tally_users_app ms1 ms2 d :
  tally_users (ms1 ++ ms2) d = tally_users ms2 (tally_users ms1 d).
Proof. unfold tally_users. apply fold_left_app. Qed.

(** Parsing the lines of two chats one after the other gives the records
    of the first followed by the records of the second; the link counts
    and the per-user message counts add up. *)
Theorem parse_concatenation E w lines1 lines2 cd1 cd2 :
  snd (parse_whatsapp_chat E w lines1) = Ok cd1 ->
  snd (parse_whatsapp_chat E w lines2) = Ok cd2 ->
  exists cd,
    snd (parse_whatsapp_chat E w (lines1 ++ lines2)) = Ok cd
    /\ cd_messages cd = cd_messages cd1 ++ cd_messages cd2
    /\ cd_link_count cd = cd_link_count cd1 + cd_link_count cd2
    /\ forall who,
         count_of str_eqb who (cd_user_message_count cd)
         = count_of str_eqb who (cd_user_message_count cd1)
           + count_of str_eqb who (cd_user_message_count cd2).
Proof.
  intros H1 H2.
  destruct (parse_returns _ _ _ _ H1) as (Hm1 & _ & Hl1).
  destruct (parse_returns _ _ _ _ H2) as (Hm2 & _ & Hl2).
  destruct (parse_some_messages E w (lines1 ++ lines2)) as (cd & Hcd & Hm & _ & Hl).
  { rewrite records_app. intros Happ. apply app_eq_nil in Happ. destruct Happ as [Hr1 _].
    rewrite (parse_no_messages E w lines1 Hr1) in H1. discriminate. }
  exists cd. split; [assumption|]. split; [|split].
  - now rewrite Hm, records_app, Hm1, Hm2.
  - rewrite Hl, Hl1, Hl2, records_app. unfold count_if. now rewrite filter_app, length_app.
  - intros who.
    destruct (parse_fields _ _ _ _ Hcd) as (_ & Hu & _).
    destruct (parse_fields _ _ _ _ H1) as (_ & Hu1 & _).
    destruct (parse_fields _ _ _ _ H2) as (_ & Hu2 & _).
    rewrite Hu, Hu1, Hu2, records_app, !tally_users_count.
    unfold count_if. rewrite filter_app, length_app. simpl. lia.
Qed.

Lemma parse_concatenation_witness :
  exists cd1 cd2 cd,
    snd (parse_whatsapp_chat no_emoji [] dotted_date_chat) = Ok cd1
    /\ snd (parse_whatsapp_chat no_emoji [] http_word_chat) = Ok cd2
    /\ snd (parse_whatsapp_chat no_emoji [] (dotted_date_chat ++ http_word_chat)) = Ok cd
    /\ cd_messages cd = cd_messages cd1 ++ cd_messages cd2
    /\ cd_link_count cd = cd_link_count cd1 + cd_link_count cd2
    /\ forall who,
         count_of str_eqb who (cd_user_message_count cd)
         = count_of str_eqb who (cd_user_message_count cd1)
           + count_of str_eqb who (cd_user_message_count cd2).
Proof.
  eexists. eexists.
  assert (H1 : snd (parse_whatsapp_chat no_emoji [] dotted_date_chat) = Ok ?[c1])
    by (vm_compute; reflexivity).
  assert (H2 : snd (parse_whatsapp_chat no_emoji [] http_word_chat) = Ok ?[c2])
    by (vm_compute; reflexivity).
  destruct (parse_concatenation no_emoji [] dotted_date_chat http_word_chat _ _ H1 H2)
    as (cd & Hcd).
  exists cd. split; [exact H1|]. split; [exact H2|]. exact Hcd.
Defined.

(** ** Buckets are ordered *)

(** A higher polarity never falls in a lower bucket. *)
Theorem classify_monotone (p q : Q) :
  (p <= q)%Q -> bucket_rank (classify p) <= bucket_rank (classify q).
Proof.
  intros Hpq. destruct threshold_values as (T1 & T2 & T3 & T4).
  destruct (classify_cases p)
    as [[A ->] | [(A & B & ->) | [(A & B & ->) | [(A & B & ->) | [A ->]]]]];
  destruct (classify_cases q)
    as [[A' ->] | [(A' & B' & ->) | [(A' & B' & ->) | [(A' & B' & ->) | [A' ->]]]]];
  rewrite ?T1, ?T2, ?T3, ?T4 in *;
  simpl; try lia; exfalso; lra.
Qed.

Lemma classify_monotone_witness :
  bucket_rank (classify (-3 # 10)) <= bucket_rank (classify (1 # 2)).
Proof. apply (classify_monotone (-3 # 10) (1 # 2)). discriminate. Defined.

(** ** Normalising twice *)

Lemma lstrip_solid s : solid_start s = true -> lstrip s = s.
Proof.
  destruct s as [|c s]; simpl; [reflexivity|]. intros H. apply negb_true_iff in H.
  now rewrite H.
Qed.

Lemma solid_start_lstrip s : solid_start (lstrip s) = true.
Proof.
  induction s as [|c s IH]; simpl; [reflexivity|].
  destruct (isspace c) eqn:E; [exact IH|]. simpl. now rewrite E.
Qed.

Lemma solid_start_rstrip s : solid_start s = true -> solid_start (rstrip s) = true.
Proof.
  destruct s as [|c s]; [reflexivity|]. simpl. intros H. apply negb_true_iff in H.
  unfold rstrip. simpl. rewrite lstrip_app_solid by assumption.
  rewrite rev_app_distr. simpl. now rewrite H.
Qed.

Lemma strip_solid s :
  solid_start s = true -> solid_start (rev s) = true -> strip s = s.
Proof.
  intros H1 H2. unfold strip, rstrip. rewrite (lstrip_solid s H1), (lstrip_solid _ H2).
  apply rev_involutive.
Qed.

Lemma collapse_spaces_tidy s : single_spaced s = true -> collapse_spaces s = s.
Proof.
  induction s as [|c rest IH]; [reflexivity|].
  simpl. intros H. apply andb_true_iff in H. destruct H as [Hc Hrest].
  destruct (isspace c) eqn:E.
  - apply andb_true_iff in Hc. destruct Hc as [Hsp Hnext]. apply N.eqb_eq in Hsp. subst c.
    destruct rest as [|d rest']; [reflexivity|].
    apply negb_true_iff in Hnext. rewrite Hnext. now rewrite IH.
  - now rewrite IH.
Qed.

Lemma replace_char_tidy s : single_spaced s = true -> replace_char 8239 32 s = s.
Proof.
  unfold replace_char. induction s as [|c rest IH]; [reflexivity|].
  simpl. intros H. apply andb_true_iff in H. destruct H as [Hc Hrest].
  rewrite IH by assumption. destruct (N.eqb c 8239) eqn:E; [|reflexivity].
  apply N.eqb_eq in E. subst c. discriminate Hc.
Qed.

Lemma solid_start_collapse s : solid_start s = true -> solid_start (collapse_spaces s) = true.
Proof.
  destruct s as [|c s]; [reflexivity|]. simpl. intros H. apply negb_true_iff in H.
  rewrite H. simpl. now rewrite H.
Qed.

Lemma collapse_spaces_space a d t :
  isspace a = true ->
  collapse_spaces (a :: d :: t)
  = if isspace d then collapse_spaces (d :: t) else space :: collapse_spaces (d :: t).
Proof.
  intros H.
  change (collapse_spaces (a :: d :: t))
    with (if isspace a
          then if isspace d then collapse_spaces (d :: t) else space :: collapse_spaces (d :: t)
          else a :: collapse_spaces (d :: t)).
  now rewrite H.
Qed.

Lemma collapse_spaces_last c : forall s,
  isspace c = false -> exists y, collapse_spaces (s ++ [c]) = y ++ [c].
Proof.
  intros s Hc. induction s as [|a s (y & IH)].
  - exists []. simpl. now rewrite Hc.
  - change ((a :: s) ++ [c]) with (a :: (s ++ [c])).
    destruct (isspace a) eqn:Ea.
    + destruct (s ++ [c]) as [|d t] eqn:Est; [destruct s; discriminate|].
      rewrite collapse_spaces_space by assumption. destruct (isspace d) eqn:Ed.
      * exists y. exact IH.
      * exists (space :: y). now rewrite IH.
    + exists (a :: y). rewrite collapse_spaces_nonspace by assumption. now rewrite IH.
Qed.

Lemma solid_end_collapse s :
  solid_start (rev s) = true -> solid_start (rev (collapse_spaces s)) = true.
Proof.
  intros H. destruct (rev s) as [|c t] eqn:E.
  - assert (s = []) by (rewrite <- (rev_involutive s), E; reflexivity). now subst.
  - simpl in H. apply negb_true_iff in H.
    assert (Hs : s = rev t ++ [c]) by (rewrite <- (rev_involutive s), E; reflexivity).
    destruct (collapse_spaces_last c (rev t) H) as [y Hy].
    rewrite Hs, Hy, rev_app_distr. simpl. now rewrite H.
Qed.

Lemma tidy_normalize s : tidy (normalize s) = true.
Proof.
  unfold tidy, normalize. set (x := replace_char 8239 32 s).
  rewrite single_spaced_collapse. simpl.
  assert (H1 : solid_start (strip x) = true).
  { unfold strip. apply solid_start_rstrip, solid_start_lstrip. }
  assert (H2 : solid_start (rev (strip x)) = true).
  { unfold strip, rstrip. rewrite rev_involutive. apply solid_start_lstrip. }
  now rewrite solid_start_collapse, solid_end_collapse.
Qed.

(** [normalize] leaves single spaces as the only white space, none at
    either end; text of that form is left as it is, so normalising twice
    is normalising once. *)
Theorem normalize_idempotent :
  (forall s, tidy (normalize s) = true)
  /\ (forall s, tidy s = true -> normalize s = s)
  /\ (forall s, normalize (normalize s) = normalize s).
Proof.
  assert (Hfix : forall s, tidy s = true -> normalize s = s).
  { intros s H. unfold tidy in H. apply andb_true_iff in H. destruct H as [H H3].
    apply andb_true_iff in H. destruct H as [H1 H2]. unfold normalize.
    rewrite replace_char_tidy, strip_solid, collapse_spaces_tidy by assumption.
    reflexivity. }
  split; [apply tidy_normalize|]. split; [exact Hfix|].
  intros s. apply Hfix, tidy_normalize.
Qed.

Lemma normalize_idempotent_witness :
  normalize (u "03/04/25 9:00 AM") = u "03/04/25 9:00 AM".
Proof.
  apply (proj1 (proj2 normalize_idempotent) (u "03/04/25 9:00 AM")).
  vm_compute. reflexivity.
Defined.

Lemma lstrip_blank s : forallb isspace s = true -> lstrip s = [].
Proof.
  induction s as [|c s IH]; simpl; [reflexivity|]. intros H.
  apply andb_true_iff in H. destruct H as [Hc Hs]. rewrite Hc. now apply IH.
Qed.

Lemma forallb_isspace_replace s :
  forallb isspace s = true -> forallb isspace (replace_char 8239 32 s) = true.
Proof.
  unfold replace_char. induction s as [|c s IH]; simpl; [reflexivity|]. intros H.
  apply andb_true_iff in H. destruct H as [Hc Hs]. rewrite IH by assumption.
  destruct (N.eqb c 8239); [reflexivity|]. now rewrite Hc.
Qed.

(** Only the empty string gives [None]: a text of white space alone, not
    empty, raises the format error, naming the empty normalised text. *)
Theorem parse_datetime_blank s :
  s <> [] -> forallb isspace s = true ->
  parse_datetime s = Raise (ValueError (UnknownFormat [])).
Proof.
  intros Hne Hs. destruct s as [|c s]; [congruence|]. unfold parse_datetime.
  assert (Hn : normalize (c :: s) = []).
  { unfold normalize, strip. rewrite (lstrip_blank _ (forallb_isspace_replace _ Hs)).
    reflexivity. }
  rewrite Hn. vm_compute. reflexivity.
Qed.

Lemma parse_datetime_blank_witness :
  parse_datetime [space; 8239%N] = Raise (ValueError (UnknownFormat [])).
Proof. apply (parse_datetime_blank [space; 8239%N]); [discriminate|reflexivity]. Defined.

Lemma diagnostics_are_format_errors_witness :
  exists raw s,
    In raw dotted_date_chat
    /\ header_datetime raw = Some s
    /\ SkippedFormatError (u "1.2.23, 9:03 - Bob: lost") (UnknownFormat (u "1.2.23 9:03"))
       = SkippedFormatError (strip raw) (UnknownFormat (normalize s))
    /\ line_record raw = None
    /\ Forall (fun fmt => exists v, strptime (normalize s) fmt = Raise v) formats.
Proof.
  apply (proj1 (proj2 (diagnostics_are_format_errors no_emoji [] dotted_date_chat))).
  vm_compute. left. reflexivity.
Defined.
